(** * The tool-function store of adk-agent-kit (main.py)

    A shallow embedding of the FastAPI handlers that keep named Python
    functions in [global_tools.py], of the AST helpers they share, and of
    [sanitize_agent_name].  The handlers parse the whole file with
    [ast.parse], edit the tree, and write [ast.unparse] of it back; the two
    library functions are an interface ([PyAst]) of which nothing is
    assumed, either may raise, and [MiniPy] is a small line-oriented
    instance of it on which the handlers are run on concrete file
    contents.

    The agent side of main.py follows in [Agents]: the text of agent.py
    that [generate_agent_py_code] produces, and the agent endpoints over
    the managed directory as a finite map. *)

From Stdlib Require Import Ascii String NArith Lia.
From stdpp Require Import base list strings sorting gmap.

Local Open Scope string_scope.
Local Open Scope list_scope.

(** ** Agent-name sanitisation (main.py, lines 26-87) *)

Module Sanitize.

(** A Python [str] is a sequence of code points. *)
Definition pystr := list N.

Definition of_string (s : string) : pystr :=
  map N_of_ascii (list_ascii_of_string s).

(** What a request can carry in the [name] field. *)
Inductive pyvalue :=
| PyStr (s : pystr)
| PyNone
| PyInt (n : Z).

(** The three [ValueError]s of [sanitize_agent_name]. *)
Inductive ValueError :=
| MustBeString
| EmptyAfterSanitization
| NotAnIdentifier (name : pystr).

Definition underscore : N := 95.
Definition space : N := 32.
Definition hyphen : N := 45.

Definition ascii_upper (c : N) : bool := (65 <=? c)%N && (c <=? 90)%N.
Definition ascii_lower (c : N) : bool := (97 <=? c)%N && (c <=? 122)%N.
Definition ascii_digit (c : N) : bool := (48 <=? c)%N && (c <=? 57)%N.

(** The character class [a-zA-Z0-9_] of the regular expression. *)
Definition word_char (c : N) : bool :=
  ascii_lower c || ascii_upper c || ascii_digit c || (c =? underscore)%N.

(** [s.replace(old, new)] for one-character [old] and [new]. *)
Definition replace (old new : N) (s : pystr) : pystr :=
  map (fun c => if (c =? old)%N then new else c) s.

(** [re.sub(r'[^a-zA-Z0-9_]', '', s)]. *)
Definition re_sub_non_word (s : pystr) : pystr :=
  List.filter word_char s.

Fixpoint lstrip (ch : N) (s : pystr) : pystr :=
  match s with
  | c :: s' => if (c =? ch)%N then lstrip ch s' else s
  | [] => []
  end.

Definition rstrip (ch : N) (s : pystr) : pystr :=
  rev (lstrip ch (rev s)).

(** [s.strip(ch)] for a one-character [ch]. *)
Definition strip (ch : N) (s : pystr) : pystr :=
  rstrip ch (lstrip ch s).

Section Unicode.

(** The Unicode tables behind [str.isdigit] and [str.isidentifier] are
    consulted for code points above 127 only; below, both are the ASCII
    rules written out here. *)
Variables (uni_digit xid_start xid_continue : N -> bool).

Definition isdigit (c : N) : bool :=
  if (c <? 128)%N then ascii_digit c else uni_digit c.

Definition id_start (c : N) : bool :=
  if (c <? 128)%N
  then ascii_lower c || ascii_upper c || (c =? underscore)%N
  else xid_start c.

Definition id_continue (c : N) : bool :=
  if (c <? 128)%N then word_char c else xid_continue c.

Definition isidentifier (s : pystr) : bool :=
  match s with
  | [] => false
  | c :: s' => id_start c && forallb id_continue s'
  end.

(** Lines 32-42: the rewriting steps, before the two final checks. *)
Definition clean (name : pystr) : pystr :=
  let name := replace hyphen underscore (replace space underscore name) in
  let name := re_sub_non_word name in
  let name := strip underscore name in
  match name with
  | c :: _ => if isdigit c then underscore :: name else name
  | [] => name
  end.

Definition sanitize_agent_name (name : pyvalue) : pystr + ValueError :=
  match name with
  | PyStr name =>
      let name := clean name in
      match name with
      | [] => inr EmptyAfterSanitization
      | _ => if isidentifier name then inl name
             else inr (NotAnIdentifier name)
      end
  | _ => inr MustBeString
  end.

(** [AgentConfig.validate_and_sanitize_name]: the field validator runs
    before the standard validation and re-raises the sanitiser's error. *)
Definition validate_and_sanitize_name (v : pyvalue) : pystr + ValueError :=
  match v with
  | PyStr _ =>
      match sanitize_agent_name v with
      | inl sanitized_name => inl sanitized_name
      | inr e => inr e
      end
  | _ => inr MustBeString
  end.

End Unicode.

End Sanitize.

(** ** The syntax tree (what [ast.parse] returns, as far as the store looks) *)

(** A statement node.  [FunctionDef] and [AsyncFunctionDef] carry the
    name, the rest of the signature (parameters, annotations) and the body.
    [Block] is every other node that holds statements: [ClassDef], [If],
    [For], [While], [With], [Try], and the [ExceptHandler] and [match_case]
    nodes below them.  [Simple] is a statement without nested statements
    (import, assignment, return, expression, ...). *)
#[warnings="-register-all"]
Inductive stmt : Type :=
| FunctionDef (name : string) (args : string) (body : list stmt)
| AsyncFunctionDef (name : string) (args : string) (body : list stmt)
| Block (head : string) (body : list stmt)
| Simple (text : string).

(** A module is its [body]. *)
Definition module := list stmt.

(** [ast.iter_child_nodes], restricted to the children that can be or can
    hold a function definition. *)
Definition child_nodes (node : stmt) : list stmt :=
  match node with
  | FunctionDef _ _ body | AsyncFunctionDef _ _ body | Block _ body => body
  | Simple _ => []
  end.

Fixpoint node_count (node : stmt) : nat :=
  match node with
  | FunctionDef _ _ body | AsyncFunctionDef _ _ body | Block _ body =>
      S (list_sum (map node_count body))
  | Simple _ => 1
  end.

Definition forest_count (nodes : list stmt) : nat :=
  list_sum (map node_count nodes).

(** [ast.walk]: a queue, first in first out; the node taken from the front
    is yielded and its children are put at the back.  One unit of fuel is
    spent per node taken. *)
Fixpoint walk_queue (fuel : nat) (todo : list stmt) : list stmt :=
  match fuel with
  | 0 => []
  | S fuel =>
      match todo with
      | [] => []
      | node :: todo => node :: walk_queue fuel (todo ++ child_nodes node)
      end
  end.

(** [ast.walk(tree)] without the [Module] node it yields first (which is
    not a function definition). *)
Definition walk (tree : module) : list stmt :=
  walk_queue (forest_count tree) tree.

(** [isinstance(node, (ast.FunctionDef, ast.AsyncFunctionDef))]. *)
Definition is_function_def (node : stmt) : bool :=
  match node with
  | FunctionDef _ _ _ | AsyncFunctionDef _ _ _ => true
  | _ => false
  end.

(** [node.name], read only behind the [isinstance] test. *)
Definition node_name (node : stmt) : string :=
  match node with
  | FunctionDef name _ _ | AsyncFunctionDef name _ _ => name
  | Block _ _ | Simple _ => ""
  end.

(** [isinstance(node, ...) and node.name == func_name]. *)
Definition is_function_named (func_name : string) (node : stmt) : bool :=
  is_function_def node && String.eqb (node_name node) func_name.

(** The names of the function definitions among [nodes], in order. *)
Definition function_names (nodes : list stmt) : list string :=
  map node_name (List.filter is_function_def nodes).

Definition find_function_node (tree : module) (func_name : string)
  : option stmt :=
  List.find (is_function_named func_name) (walk tree).

(** ** The Python library functions the store calls *)

Definition newline : string := String "010" "".

Fixpoint endswith_newline (s : string) : bool :=
  match s with
  | "" => false
  | String c "" => Ascii.eqb c "010"
  | String _ s' => endswith_newline s'
  end.

(** Lines 115-116 of [write_global_tools_ast]. *)
Definition final_newline (new_source_code : string) : string :=
  if endswith_newline new_source_code then new_source_code
  else (new_source_code ++ newline)%string.

(** What [ast.parse] raises: a [SyntaxError], a [ValueError] (a null
    byte in the source), or another exception ([RecursionError] and
    [MemoryError] on deeply nested source). *)
Inductive parse_error :=
| SyntaxError
| ValueError
| OtherException.

(** [ast.parse], [ast.unparse] and [str.strip].  [ast.unparse] raises on
    some trees ([ValueError] on an integer literal too long to print,
    [RecursionError] on deep ones): [None].  Nothing is assumed of the
    three: the text [ast.unparse] renders need not parse, nor parse to
    the tree it came from, and a text that parses need not parse after
    [strip()].  A property that needs a written file to parse back to
    the tree it was rendered from says so. *)
Class PyAst := {
  ast_parse : string -> module + parse_error;
  ast_unparse : module -> option string;
  str_strip : string -> string
}.

(** ** The handlers (main.py, lines 97-134 and 243-353) *)

(** What the tool endpoints raise, by the [detail] text it carries.  The
    last constructor is a Python exception that no [except] clause
    catches; the server answers it with status 500.  An exception raised
    inside the [try] block of create or update and not caught as
    [SyntaxError] or [ValueError] reaches the client through the last
    clause of that block, with the prefix of the handler before its
    detail. *)
Inductive HTTPException :=
| AlreadyExists      (* "Function '..' already exists." *)
| NotFound           (* "Function '..' not found." *)
| InvalidDefinition  (* "Invalid function code provided: ..", for a
                        SyntaxError or ValueError of the parser and for
                        "Provided code does not contain a valid function
                        definition." *)
| NameMismatch       (* "Invalid function code provided: Function name in
                        code ('..') does not match .." *)
| PathBodyMismatch   (* "Function name in path does not match name in
                        body." *)
| FileMissing        (* "global_tools.py not found." *)
| StorageCorrupt     (* "Syntax error in global_tools.py: .." *)
| ReadFailed         (* "Failed to read/parse global_tools.py: .." *)
| WriteFailed        (* "Failed to write global_tools.py: .." *)
| AddFailed          (* "Failed to add function: .." *)
| UpdateFailed       (* "Failed to update function: .." *)
| NodeIndexMissing   (* "Failed to update function: 500: Failed to find
                        node index for replacement." *)
| Unhandled.         (* no HTTPException: an exception nothing catches *)

Definition status_code (e : HTTPException) : nat :=
  match e with
  | AlreadyExists => 409
  | NotFound => 404
  | InvalidDefinition | NameMismatch | PathBodyMismatch => 400
  | FileMissing | StorageCorrupt | ReadFailed | WriteFailed | AddFailed
  | UpdateFailed | NodeIndexMissing | Unhandled => 500
  end.

(** The request and response model of the tool endpoints. *)
Record ToolFunction := { name : string; code : string }.

(** The state: the text of [global_tools.py], [None] when the file does
    not exist. *)
Definition files := option string.

Inductive response (A : Type) :=
| Ok (a : A)
| Raise (e : HTTPException).
Arguments Ok {A} a.
Arguments Raise {A} e.

(** A handler reads and writes the file and returns or raises. *)
Definition handler (A : Type) := files -> response A * files.

#[global] Instance handler_ret : MRet handler :=
  fun A (a : A) fs => (Ok a, fs).

#[global] Instance handler_bind : MBind handler :=
  fun A B (k : A -> handler B) (m : handler A) fs =>
    match m fs with
    | (Ok a, fs') => k a fs'
    | (Raise e, fs') => (Raise e, fs')
    end.

Definition raise {A} (e : HTTPException) : handler A :=
  fun fs => (Raise e, fs).

Definition open_read : handler string :=
  fun fs => match fs with
            | Some source_code => (Ok source_code, fs)
            | None => (Raise FileMissing, fs)
            end.

Definition open_write (text : string) : handler unit :=
  fun _ => (Ok tt, Some text).

Section Handlers.
Context `{PyAst}.

(** Lines 97-108.  Reading is taken to succeed on a file that exists. *)
Definition read_global_tools_ast : handler module :=
  source_code ← open_read;
  match ast_parse source_code with
  | inl tree => mret tree
  | inr SyntaxError => raise StorageCorrupt
  | inr _ => raise ReadFailed
  end.

(** Lines 110-120: whatever [ast.unparse] raises comes out as the 500 of
    the failed write, before the file is opened.  Writing the text is
    taken to succeed. *)
Definition write_global_tools_ast (tree : module) : handler unit :=
  match ast_unparse tree with
  | Some new_source_code => open_write (final_newline new_source_code)
  | None => raise WriteFailed
  end.

(** Lines 129-134; [ast.unparse(node)] is outside every [try]. *)
Definition get_function_code (tree : module) (func_name : string)
  : response (option string) :=
  match find_function_node tree func_name with
  | Some node =>
      match ast_unparse [node] with
      | Some text => Ok (Some text)
      | None => Raise Unhandled
      end
  | None => Ok None
  end.

(** Lines 254-259 and 310-315: the submitted code is parsed after
    [strip()], its first statement must be a function definition, and that
    definition must carry the addressed name.  The [SyntaxError] and the
    [ValueError] of the parser and the two [ValueError]s raised here are
    the 400 of the first [except] clause; another exception of the parser
    goes on to the last clause. *)
Definition parse_new_function (code : string) (target : string)
  : handler stmt :=
  match ast_parse (str_strip code) with
  | inr SyntaxError | inr ValueError => raise InvalidDefinition
  | inr OtherException => raise Unhandled
  | inl [] => raise InvalidDefinition
  | inl (new_func_node :: _) =>
      if negb (is_function_def new_func_node) then raise InvalidDefinition
      else if negb (String.eqb (node_name new_func_node) target)
           then raise NameMismatch
           else mret new_func_node
  end.

(** [except Exception as e: raise HTTPException(500, "Failed to ..: {e}")],
    the last clause of the [try] blocks of create and update: the failed
    write and the exception of the parser come out as the handler's own
    500. *)
Definition wrapped (failed e : HTTPException) : HTTPException :=
  match e with
  | Unhandled | WriteFailed => failed
  | _ => e
  end.

Definition except_exception {A} (failed : HTTPException) (m : handler A)
  : handler A :=
  fun fs =>
    match m fs with
    | (Raise e, fs') => (Raise (wrapped failed e), fs')
    | out => out
    end.

Definition create_tool_function (tool_func : ToolFunction)
  : handler ToolFunction :=
  tree ← read_global_tools_ast;
  match find_function_node tree (name tool_func) with
  | Some _ => raise AlreadyExists
  | None =>
      except_exception AddFailed
        (new_func_node ← parse_new_function (code tool_func) (name tool_func);
         write_global_tools_ast (tree ++ [new_func_node]);;
         mret tool_func)
  end.

Definition list_tool_functions : handler (list string) :=
  tree ← read_global_tools_ast;
  mret (map node_name (List.filter is_function_def (walk tree))).

Definition get_tool_function (function_name : string)
  : handler ToolFunction :=
  tree ← read_global_tools_ast;
  match get_function_code tree function_name with
  | Raise e => raise e
  | Ok None => raise NotFound
  | Ok (Some code) => mret {| name := function_name; code := code |}
  end.

Definition update_tool_function (function_name : string)
    (tool_func : ToolFunction) : handler ToolFunction :=
  if negb (String.eqb function_name (name tool_func))
  then raise PathBodyMismatch
  else
    tree ← read_global_tools_ast;
    match find_function_node tree function_name with
    | None => raise NotFound
    | Some existing_node =>
        except_exception UpdateFailed
          (new_func_node ← parse_new_function (code tool_func) function_name;
           match list_find
                   (fun node => is_function_named function_name node = true)
                   tree with
           | Some (i, _) =>
               write_global_tools_ast (<[i := new_func_node]> tree);;
               mret tool_func
           | None => raise NodeIndexMissing
           end)
    end.

(** Lines 342-353; the write is outside every [try]. *)
Definition delete_tool_function (function_name : string) : handler unit :=
  tree ← read_global_tools_ast;
  let new_body :=
    List.filter (fun node => negb (is_function_named function_name node))
                tree in
  if (length new_body =? length tree)%nat then raise NotFound
  else write_global_tools_ast new_body.

(** [fs] is the file the store writes for [tree]: the text [ast.unparse]
    renders, with the final newline. *)
Definition written (tree : module) (fs : files) : Prop :=
  exists new_source_code,
    ast_unparse tree = Some new_source_code
    /\ fs = Some (final_newline new_source_code).

(** What the validation of the submitted code returns; it touches no
    file. *)
Definition validated (code target : string) : response stmt :=
  fst (parse_new_function code target None).


(** The submitted code is refused as no function definition: after
    [strip()] the parser raises a [SyntaxError] or a [ValueError], or
    there is no statement, or the first one is another statement. *)
Definition no_leading_function (code : string) : Prop :=
  match ast_parse (str_strip code) with
  | inl (node :: _) => is_function_def node = false
  | inl [] | inr SyntaxError | inr ValueError => True
  | inr OtherException => False
  end.

(** The parser raises something else on the submitted code. *)
Definition parser_fails (code : string) : Prop :=
  ast_parse (str_strip code) = inr OtherException.

(** The submitted code starts with a function definition of another name
    than [target]. *)
Definition leading_function_misnamed (code target : string) : Prop :=
  exists node rest,
    ast_parse (str_strip code) = inl (node :: rest)
    /\ is_function_def node = true /\ node_name node <> target.

End Handlers.

(** The top-level statements that are not function definitions, and the
    ones among them that come before the first definition. *)
Definition other_statements (tree : module) : list stmt :=
  List.filter (fun node => negb (is_function_def node)) tree.

Fixpoint preamble (tree : module) : list stmt :=
  match tree with
  | node :: rest => if is_function_def node then [] else node :: preamble rest
  | [] => []
  end.

(** ** MiniPy: a line-oriented instance of the library interface

    One statement per line; a line that opens a block ([def], [async def],
    [class]) ends in a colon and is followed by a deeper-indented body;
    blank lines and comment lines are skipped.  The unparser indents by
    four spaces, puts an empty line before every function or class that
    does not start the text, and emits no comment. *)

Module MiniPy.

Definition chars := list ascii.
Definition of_str : string -> chars := list_ascii_of_string.
Definition to_str : chars -> string := string_of_list_ascii.

Definition is_newline (c : ascii) : bool := Ascii.eqb c "010".
Definition is_space (c : ascii) : bool := Ascii.eqb c " ".

Fixpoint split_lines (s : chars) : list chars :=
  match s with
  | [] => [[]]
  | c :: s' =>
      if is_newline c then [] :: split_lines s'
      else match split_lines s' with
           | l :: ls => (c :: l) :: ls
           | [] => [[c]]
           end
  end.

Fixpoint join_lines (ls : list chars) : chars :=
  match ls with
  | [] => []
  | [l] => l
  | l :: ls' => l ++ "010"%char :: join_lines ls'
  end.

(** Leading spaces of a line, and the rest of it. *)
Fixpoint indent_of (l : chars) : nat * chars :=
  match l with
  | c :: l' =>
      if is_space c then let (n, r) := indent_of l' in (S n, r) else (0, l)
  | [] => (0, [])
  end.

Definition rstrip_spaces (l : chars) : chars :=
  rev (snd (indent_of (rev l))).

Fixpoint strip_prefix (p l : chars) : option chars :=
  match p, l with
  | [], _ => Some l
  | a :: p', b :: l' => if Ascii.eqb a b then strip_prefix p' l' else None
  | _ :: _, [] => None
  end.

Fixpoint span (f : ascii -> bool) (l : chars) : chars * chars :=
  match l with
  | c :: l' => if f c then let (a, b) := span f l' in (c :: a, b) else ([], l)
  | [] => ([], [])
  end.

Definition between (lo hi : N) (c : ascii) : bool :=
  (lo <=? N_of_ascii c)%N && (N_of_ascii c <=? hi)%N.

Definition digit_char (c : ascii) : bool := between 48 57 c.
Definition ident_char (c : ascii) : bool :=
  between 97 122 c || between 65 90 c || digit_char c || Ascii.eqb c "_".

Definition ident_ok (name : chars) : bool :=
  match name with
  | [] => false
  | c :: _ => negb (digit_char c) && forallb ident_char name
  end.

(** Characters a statement line may hold: no control character, and none
    of the characters that start a comment, a string, a line continuation
    or a second statement. *)
Definition plain_char (c : ascii) : bool :=
  negb (between 0 31 c) && negb (between 127 127 c)
  && negb (Ascii.eqb c "#") && negb (between 34 34 c) && negb (Ascii.eqb c "'")
  && negb (Ascii.eqb c "\") && negb (Ascii.eqb c ";").

Definition opening (c : ascii) : bool :=
  Ascii.eqb c "(" || Ascii.eqb c "[" || Ascii.eqb c "{".
Definition closing (c : ascii) : bool :=
  Ascii.eqb c ")" || Ascii.eqb c "]" || Ascii.eqb c "}".

(** Brackets opened on a line are closed on it. *)
Fixpoint balanced (depth : nat) (l : chars) : bool :=
  match l with
  | [] => (depth =? 0)%nat
  | c :: l' =>
      if opening c then balanced (S depth) l'
      else if closing c then
             match depth with 0 => false | S d => balanced d l' end
      else balanced depth l'
  end.

Definition starts_with (f : ascii -> bool) (l : chars) : bool :=
  match l with c :: _ => f c | [] => false end.

Definition ends_with (f : ascii -> bool) (l : chars) : bool :=
  starts_with f (rev l).

(** A line of the text, once indentation is taken off. *)
Inductive logical :=
| LDef (async : bool) (name args : string)
| LClass (head : string)
| LSimple (text : string).

Definition args_ok (args : chars) : bool :=
  starts_with (Ascii.eqb "(") args && balanced 0 args.

Definition head_ok (head : chars) : bool :=
  match strip_prefix (of_str "class ") head with
  | Some _ => balanced 0 head
  | None => false
  end.

Definition keyword_free (content : chars) : bool :=
  match strip_prefix (of_str "async def ") content,
        strip_prefix (of_str "def ") content,
        strip_prefix (of_str "class ") content with
  | None, None, None => true
  | _, _, _ => false
  end.

Definition simple_ok (content : chars) : bool :=
  keyword_free content && balanced 0 content
  && negb (starts_with (Ascii.eqb "@") content)
  && negb (ends_with (Ascii.eqb ":") content).

Definition def_header (async : bool) (rest : chars) : option logical :=
  let (nm, tail) := span ident_char rest in
  match rev tail with
  | c :: ra =>
      if Ascii.eqb c ":" && ident_ok nm && args_ok (rev ra)
      then Some (LDef async (to_str nm) (to_str (rev ra)))
      else None
  | [] => None
  end.

Definition classify_content (content : chars) : option logical :=
  match strip_prefix (of_str "async def ") content with
  | Some rest => def_header true rest
  | None =>
  match strip_prefix (of_str "def ") content with
  | Some rest => def_header false rest
  | None =>
  match strip_prefix (of_str "class ") content with
  | Some _ =>
      match rev content with
      | c :: rh =>
          if Ascii.eqb c ":" && head_ok (rev rh)
          then Some (LClass (to_str (rev rh)))
          else None
      | [] => None
      end
  | None =>
      if simple_ok content then Some (LSimple (to_str content)) else None
  end end end.

Inductive physical :=
| Blank
| Line (indent : nat) (l : logical)
| Bad.

Definition classify (raw : chars) : physical :=
  let (n, rest) := indent_of raw in
  let content := rstrip_spaces rest in
  match content with
  | [] => Blank
  | c :: _ =>
      if Ascii.eqb c "#" then Blank
      else if forallb plain_char content then
             match classify_content content with
             | Some l => Line n l
             | None => Bad
             end
      else Bad
  end.

Fixpoint logical_lines (raws : list chars) : option (list (nat * logical)) :=
  match raws with
  | [] => Some []
  | raw :: raws' =>
      match classify raw with
      | Bad => None
      | Blank => logical_lines raws'
      | Line i l =>
          match logical_lines raws' with
          | Some ls => Some ((i, l) :: ls)
          | None => None
          end
      end
  end.

Definition open_block (l : logical) (body : list stmt) : stmt :=
  match l with
  | LDef false name args => FunctionDef name args body
  | LDef true name args => AsyncFunctionDef name args body
  | LClass head => Block head body
  | LSimple text => Simple text
  end.

(** The statements at indentation [k] at the front of [ls], and the lines
    left over. *)
Fixpoint block (fuel k : nat) (ls : list (nat * logical))
  : option (list stmt * list (nat * logical)) :=
  match fuel with
  | 0 => None
  | S fuel =>
      match ls with
      | [] => Some ([], [])
      | (i, l) :: rest =>
          if (i <? k)%nat then Some ([], ls)
          else if (k <? i)%nat then None
          else
            match l with
            | LSimple text =>
                match block fuel k rest with
                | Some (ss, r) => Some (Simple text :: ss, r)
                | None => None
                end
            | _ =>
                match rest with
                | (j, _) :: _ =>
                    if (i <? j)%nat then
                      match block fuel j rest with
                      | Some (body, r1) =>
                          match block fuel k r1 with
                          | Some (ss, r2) => Some (open_block l body :: ss, r2)
                          | None => None
                          end
                      | None => None
                      end
                    else None
                | [] => None
                end
            end
      end
  end.

(** The text is cut into lines, the lines are classified, and the blocks
    are built from indentation 0 on. *)
Definition parse_chars (x : chars) : option module :=
  match logical_lines (split_lines x) with
  | Some ls =>
      match block (S (length ls)) 0 ls with
      | Some (tree, []) => Some tree
      | _ => None
      end
  | None => None
  end.

Definition parse (s : string) : option module := parse_chars (of_str s).

Definition logical_text (l : logical) : chars :=
  match l with
  | LDef false name args =>
      of_str "def " ++ of_str name ++ of_str args ++ [":"%char]
  | LDef true name args =>
      of_str "async def " ++ of_str name ++ of_str args ++ [":"%char]
  | LClass head => of_str head ++ [":"%char]
  | LSimple text => of_str text
  end.

Definition line_text (k : nat) (l : logical) : chars :=
  repeat " "%char k ++ logical_text l.

Fixpoint unparse_stmt (k : nat) (s : stmt) : list chars :=
  match s with
  | FunctionDef name args body =>
      [] :: line_text k (LDef false name args)
         :: flat_map (unparse_stmt (k + 4)) body
  | AsyncFunctionDef name args body =>
      [] :: line_text k (LDef true name args)
         :: flat_map (unparse_stmt (k + 4)) body
  | Block head body =>
      [] :: line_text k (LClass head) :: flat_map (unparse_stmt (k + 4)) body
  | Simple text => [line_text k (LSimple text)]
  end.

Definition drop_leading_blank (ls : list chars) : list chars :=
  match ls with
  | [] :: ls' => ls'
  | _ => ls
  end.

Definition unparse (tree : module) : string :=
  to_str (join_lines (drop_leading_blank (flat_map (unparse_stmt 0) tree))).

(** [str.strip()] on ASCII text: tab, newline, vertical tab, form feed,
    carriage return, the four separators 28-31 and the space. *)
Definition whitespace (c : ascii) : bool := between 9 13 c || between 28 32 c.

Fixpoint lstrip (l : chars) : chars :=
  match l with
  | c :: l' => if whitespace c then lstrip l' else l
  | [] => []
  end.

Definition rstrip (l : chars) : chars := rev (lstrip (rev l)).

Definition strip (s : string) : string := to_str (rstrip (lstrip (of_str s))).

(** The statements the parser builds. *)
Definition logical_ok (l : logical) : bool :=
  match l with
  | LDef _ name args =>
      ident_ok (of_str name) && args_ok (of_str args)
      && forallb plain_char (of_str args)
  | LClass head => head_ok (of_str head) && forallb plain_char (of_str head)
  | LSimple text =>
      simple_ok (of_str text) && forallb plain_char (of_str text)
      && starts_with (fun c => negb (is_space c)) (of_str text)
      && ends_with (fun c => negb (is_space c)) (of_str text)
  end.

Fixpoint stmt_ok (s : stmt) : bool :=
  match s with
  | FunctionDef name args body =>
      logical_ok (LDef false name args)
      && negb (Nat.eqb (length body) 0) && forallb stmt_ok body
  | AsyncFunctionDef name args body =>
      logical_ok (LDef true name args)
      && negb (Nat.eqb (length body) 0) && forallb stmt_ok body
  | Block head body =>
      logical_ok (LClass head)
      && negb (Nat.eqb (length body) 0) && forallb stmt_ok body
  | Simple text => logical_ok (LSimple text)
  end.

(** Notions for stating that what is unparsed parses back. *)

Definition no_newline (l : chars) : Prop :=
  forallb (fun c => negb (is_newline c)) l = true.

Definition header_of (s : stmt) : logical :=
  match s with
  | FunctionDef name args _ => LDef false name args
  | AsyncFunctionDef name args _ => LDef true name args
  | Block head _ => LClass head
  | Simple text => LSimple text
  end.

Definition opens_block (l : logical) : bool :=
  match l with LSimple _ => false | _ => true end.

(** The lines of a statement without the empty ones. *)
Fixpoint render (k : nat) (s : stmt) : list (nat * logical) :=
  match s with
  | FunctionDef name args body =>
      (k, LDef false name args) :: flat_map (render (k + 4)) body
  | AsyncFunctionDef name args body =>
      (k, LDef true name args) :: flat_map (render (k + 4)) body
  | Block head body => (k, LClass head) :: flat_map (render (k + 4)) body
  | Simple text => [(k, LSimple text)]
  end.

(** The lines that may follow the statements of a block at indentation
    [k]: none, or a line that is indented less. *)
Definition dedent (k : nat) (rest : list (nat * logical)) : Prop :=
  match rest with
  | [] => True
  | (i, _) :: _ => i < k
  end.

Definition lines_ok (ls : list (nat * logical)) : Prop :=
  Forall (fun p => logical_ok (snd p) = true) ls.

End MiniPy.

(** MiniPy as the library: its parser raises nothing but a
    [SyntaxError], and its unparser renders every tree. *)
Definition minipy : PyAst :=
  {| ast_parse := fun src =>
       match MiniPy.parse src with
       | Some tree => inl tree
       | None => inr SyntaxError
       end;
     ast_unparse := fun tree => Some (MiniPy.unparse tree);
     str_strip := MiniPy.strip |}.

(** ** Concrete files and submissions *)

(** The file main.py creates at start-up (lines 18-22). *)
Definition initial_file : string :=
"# Global tool functions managed by the API
import datetime
from zoneinfo import ZoneInfo

".

Definition imports : module :=
  [Simple "import datetime"; Simple "from zoneinfo import ZoneInfo"].

Definition add_code : string :=
"def add(a, b):
    return a + b".

Definition add_def : stmt := FunctionDef "add" "(a, b)" [Simple "return a + b"].

Definition add_tool : ToolFunction := {| name := "add"; code := add_code |}.

(** The file after [add] has been created in the initial file. *)
Definition file_with_add : string :=
"import datetime
from zoneinfo import ZoneInfo

def add(a, b):
    return a + b
".

(** A tool with a helper function inside. *)
Definition outer_code : string :=
"def outer():
    def inner():
        pass
    return inner".

Definition outer_tool : ToolFunction :=
  {| name := "outer"; code := outer_code |}.

Definition file_with_outer : string :=
"import datetime
from zoneinfo import ZoneInfo

def outer():

    def inner():
        pass
    return inner
".

Definition inner_tool : ToolFunction :=
  {| name := "inner";
     code := "def inner():
    pass" |}.

(** A tool named [helper], and a tool with a helper of that name inside. *)
Definition helper_tool : ToolFunction :=
  {| name := "helper";
     code := "def helper():
    pass" |}.

Definition tool_tool : ToolFunction :=
  {| name := "tool";
     code := "def tool():
    def helper():
        return 1
    return helper()" |}.

Definition file_with_helper_and_tool : string :=
"import datetime
from zoneinfo import ZoneInfo

def helper():
    pass

def tool():

    def helper():
        return 1
    return helper()
".

Definition file_with_tool : string :=
"import datetime
from zoneinfo import ZoneInfo

def tool():

    def helper():
        return 1
    return helper()
".

(** Two declarations in one submission. *)
Definition two_code : string :=
"def f():
    pass
def g():
    pass".

Definition file_with_f : string :=
"import datetime
from zoneinfo import ZoneInfo

def f():
    pass
".

(** A declaration followed by another statement. *)
Definition sub_code : string :=
"def add(a, b):
    return a - b
x = 1".

Definition sub_def : stmt := FunctionDef "add" "(a, b)" [Simple "return a - b"].

Definition file_with_sub : string :=
"import datetime
from zoneinfo import ZoneInfo

def add(a, b):
    return a - b
".

Definition mul_code : string :=
"def mul(a, b):
    return a * b".

(** ** The store: what an error leaves *)


(** ** Names the sanitiser returns *)

Module SanitizedNames.
Import Sanitize.

(** Names the sanitiser leaves as they are: characters of [a-zA-Z0-9_]
    only, no underscore at the end, and at the front a letter or one
    underscore before a digit. *)
Definition ascii_letter (c : N) : bool := ascii_lower c || ascii_upper c.

Definition ascii_alnum (c : N) : bool := ascii_letter c || ascii_digit c.

Definition canonical (s : pystr) : bool :=
  forallb word_char s
  && match rev s with
     | c :: _ => negb (c =? underscore)%N
     | [] => false
     end
  && match s with
     | c :: d :: _ => ascii_letter c || (c =? underscore)%N && ascii_digit d
     | [c] => ascii_letter c
     | [] => false
     end.

End SanitizedNames.

(** ** Agents: the generated code and the endpoints *)

Module Agents.

(** The fields of [AgentConfig] (main.py, lines 62-68).  A text is given
    by the bytes of its UTF-8 encoding. *)
Record AgentConfig := {
  name : string;
  model : string;
  description : option string;
  instruction : string;
  tool_references : list string
}.

Definition chars := list ascii.

Fixpoint starts_with (prefix s : chars) : bool :=
  match prefix, s with
  | [], _ => true
  | a :: prefix', b :: s' => Ascii.eqb a b && starts_with prefix' s'
  | _ :: _, [] => false
  end.

(** The scan of [str.replace] for a non-empty [old]: at an occurrence of
    [old] emit [new] and pass over the occurrence ([skip] counts what is
    left of it), otherwise copy one character. *)
Fixpoint replace_from (old new : chars) (skip : nat) (s : chars) : chars :=
  match s with
  | [] => []
  | c :: s' =>
      match skip with
      | S k => replace_from old new k s'
      | 0 =>
          if starts_with old s
          then new ++ replace_from old new (length old - 1) s'
          else c :: replace_from old new 0 s'
      end
  end.

(** [s.replace(old, new)]; an empty [old] matches before every character
    and at the end. *)
Definition replace_chars (old new s : chars) : chars :=
  match old with
  | [] => new ++ flat_map (fun c => c :: new) s
  | _ => replace_from old new 0 s
  end.

Definition str_replace (old new s : string) : string :=
  string_of_list_ascii
    (replace_chars (list_ascii_of_string old) (list_ascii_of_string new)
       (list_ascii_of_string s)).

(** [sep.join(parts)]. *)
Fixpoint join (sep : string) (parts : list string) : string :=
  match parts with
  | [] => ""
  | [p] => p
  | p :: parts' => (p ++ sep ++ join sep parts')%string
  end.

(** The order of [sorted] on strings: by code point, which on UTF-8 is
    the order of the bytes. *)
Definition str_le (a b : string) : Prop := String.leb a b = true.

#[global] Instance str_le_dec (a b : string) : Decision (str_le a b).
Proof. unfold str_le. apply _. Defined.

(** [sorted(list(set(names)))]: the distinct names in ascending order. *)
Definition sorted_set (names : list string) : list string :=
  merge_sort str_le (remove_dups names).

Definition quote : string := String "034" "".
Definition backslash : string := String "092" "".
Definition triple_quote : string := (quote ++ quote ++ quote)%string.
Definition escaped_triple_quote : string :=
  (backslash ++ quote ++ backslash ++ quote ++ backslash ++ quote)%string.

(** The f-string of lines 161-175. *)
Definition template (config : AgentConfig)
    (import_statement tools_list_definition agent_tools_arg : string)
  : string :=
  let escaped_instruction :=
    str_replace triple_quote escaped_triple_quote (instruction config) in
  ("from google.adk.agents import Agent
" ++ import_statement ++ "

" ++ tools_list_definition ++ "

# Agent definition generated from config
root_agent = Agent(
    name=" ++ quote ++ name config ++ quote ++ ",
    model=" ++ quote ++ model config ++ quote ++ ",
    description=" ++ quote
      ++ match description config with
         | Some d => d
         | None => ""
         end ++ quote ++ ",
    instruction=" ++ triple_quote ++ escaped_instruction ++ triple_quote ++ ",
" ++ agent_tools_arg ++ "
)
")%string.

(** The three strings set in lines 146-156. *)
Definition import_statement (config : AgentConfig) : string :=
  match tool_references config with
  | [] => ""
  | _ => ("from global_tools import "
          ++ join ", " (sorted_set (tool_references config)))%string
  end.

Definition tools_list_definition (config : AgentConfig) : string :=
  match tool_references config with
  | [] => ""
  | _ => ("tools_list = ["
          ++ join ", " (sorted_set (tool_references config)) ++ "]")%string
  end.

Definition agent_tools_arg (config : AgentConfig) : string :=
  match tool_references config with
  | [] => ""
  | _ => "    tools=tools_list,"
  end.

Definition filled_template (config : AgentConfig) : string :=
  final_newline
    (template config (import_statement config) (tools_list_definition config)
       (agent_tools_arg config)).

(** The characters of the two closing replacements. *)
Definition nl : ascii := "010".
Definition rp : ascii := ")".
Definition comma : ascii := ",".

(** The configuration with other tool references. *)
Definition with_tools (config : AgentConfig) (refs : list string)
  : AgentConfig :=
  {| name := name config; model := model config;
     description := description config; instruction := instruction config;
     tool_references := refs |}.

Definition generate_agent_py_code (config : AgentConfig) : string :=
  let code := filled_template config in
  let code :=
    match agent_tools_arg config with
    | "" => code
    | _ => str_replace "
)" ",
)" code
    end in
  str_replace ",
)" "
)" code.

(** *** Agent names and the validator *)

Definition no_table (c : N) : bool := false.

Definition to_string (s : Sanitize.pystr) : string :=
  string_of_list_ascii (map ascii_of_N s).

(** The validator of the [name] field on a text given byte by byte.  The
    bytes above 127 are dropped by the sanitiser like the characters they
    encode, and the Unicode tables are consulted on what is left, which is
    ASCII, so that any table will do. *)
Definition validate_name (v : string) : option string :=
  match Sanitize.validate_and_sanitize_name no_table no_table no_table
          (Sanitize.PyStr (Sanitize.of_string v)) with
  | inl sanitized_name => Some (to_string sanitized_name)
  | inr _ => None
  end.

(** Building an [AgentConfig] or an [AgentRead] from dumped fields, and
    [model_validate_json] on their JSON: the validator runs on the name,
    the other fields are taken as they are. *)
Definition model_validate (fields : AgentConfig) : option AgentConfig :=
  match validate_name (name fields) with
  | Some sanitized_name =>
      Some {| name := sanitized_name; model := model fields;
              description := description fields;
              instruction := instruction fields;
              tool_references := tool_references fields |}
  | None => None
  end.

(** *** The managed directory *)

Definition MANAGED_AGENTS_DIR : string := "managed_agents".

(** What the agent endpoints raise, by status. *)
Inductive AgentError :=
| AgentInvalidCharacters  (* 400 "Invalid characters in agent name." *)
| AgentNameMismatch       (* 400 "Agent name in path does not match .." *)
| AgentAlreadyExists      (* 409 *)
| AgentNotFound           (* 404 *)
| AgentFailed.            (* 500 "Failed to .." *)

Definition agent_status (e : AgentError) : nat :=
  match e with
  | AgentInvalidCharacters | AgentNameMismatch => 400
  | AgentAlreadyExists => 409
  | AgentNotFound => 404
  | AgentFailed => 500
  end.

Definition contains_char (ch : ascii) (s : string) : bool :=
  existsb (Ascii.eqb ch) (list_ascii_of_string s).

(** Lines 138-142, with [os.path.join] of a name that holds no
    separator. *)
Definition get_agent_dir (agent_name : string) : string + AgentError :=
  if contains_char "/" agent_name || contains_char "092" agent_name
     || contains_char "." agent_name
  then inr AgentInvalidCharacters
  else inl (MANAGED_AGENTS_DIR ++ "/" ++ agent_name)%string.

(** What a file of an agent directory holds, as far as the endpoints
    can tell: the JSON of dumped configuration fields (what
    [model_dump_json] writes and [model_validate_json] decodes, the
    validator not yet run), or a text that is no such JSON. *)
Inductive content :=
| Text (s : string)
| ConfigJson (fields : AgentConfig).

(** An entry of the managed directory: a plain file, or an agent
    directory with its files by name. *)
Inductive entry :=
| RegularFile
| Directory (files : gmap string content).

(** The managed directory, by entry name.  A missing directory and an
    empty one are the same to every endpoint.  The entries have names
    that are not empty, and an endpoint is reached with such a name (the
    route matches one segment that is not empty, and a validated name is
    not empty); with the empty name [agent_dir] would be the managed
    directory itself.  File operations on existing directories succeed:
    full disks, permissions and name limits are left out. *)
Abbreviation agents_fs := (gmap string entry).

Definition init_content : string :=
"import sys
import os

# Calculate the path to the project root directory (adk_kit)
# This __init__.py is assumed to be at <project_root>/managed_agents/<agent_name>/__init__.py
# We need to go up 3 levels from this file's location to get to the project root.
project_root = os.path.dirname(os.path.dirname(os.path.dirname(os.path.abspath(__file__))))

# Add the project root to sys.path if it's not already there.
# Inserting at index 0 ensures it's checked first.
if project_root not in sys.path:
    sys.path.insert(0, project_root)

# Now that the project root is potentially in sys.path, the absolute import
# 'from global_tools import ...' inside agent.py should work.
from . import agent
".

(** [write_agent_config_file], [write_agent_init_file] and
    [write_agent_py_file], in the order the endpoints call them. *)
Definition write_agent_files (config : AgentConfig)
    (files : gmap string content) : gmap string content :=
  <["agent.py" := Text (generate_agent_py_code config)]>
    (<["__init__.py" := Text init_content]>
       (<["agent_config.json" := ConfigJson config]> files)).

Definition result (A : Type) : Type := (A + AgentError)%type.

(** The endpoints (lines 359-457).  [AgentRead] of the dumped fields
    runs the validator again; in [create_agent] a failure after
    [os.makedirs] removes the directory. *)
Definition create_agent (agent_config : AgentConfig) (fs : agents_fs)
  : result AgentConfig * agents_fs :=
  match get_agent_dir (name agent_config) with
  | inr e => (inr e, fs)
  | inl _ =>
      match fs !! name agent_config with
      | Some _ => (inr AgentAlreadyExists, fs)
      | None =>
          let fs' :=
            <[name agent_config := Directory (write_agent_files agent_config ∅)]>
              fs in
          match model_validate agent_config with
          | Some agent_read => (inl agent_read, fs')
          | None => (inr AgentFailed, delete (name agent_config) fs')
          end
      end
  end.

(** [os.listdir] filtered by [os.path.isdir]; the order of the map
    stands for the order of [os.listdir], which is arbitrary. *)
Definition is_directory (e : entry) : bool :=
  match e with
  | Directory _ => true
  | RegularFile => false
  end.

Definition list_agents (fs : agents_fs) : list string :=
  map fst (List.filter (fun d => is_directory (snd d)) (map_to_list fs)).

Definition get_agent (agent_name : string) (fs : agents_fs)
  : result AgentConfig * agents_fs :=
  match get_agent_dir agent_name with
  | inr e => (inr e, fs)
  | inl _ =>
      match fs !! agent_name with
      | None | Some RegularFile => (inr AgentNotFound, fs)
      | Some (Directory files) =>
          match files !! "agent_config.json" with
          | None => (inr AgentNotFound, fs)
          | Some (Text _) => (inr AgentFailed, fs)
          | Some (ConfigJson fields) =>
              match model_validate fields with
              | None => (inr AgentFailed, fs)
              | Some config_data =>
                  match model_validate config_data with
                  | Some agent_read => (inl agent_read, fs)
                  | None => (inr AgentFailed, fs)
                  end
              end
          end
      end
  end.

Definition update_agent (agent_name : string) (agent_config : AgentConfig)
    (fs : agents_fs) : result AgentConfig * agents_fs :=
  if negb (String.eqb agent_name (name agent_config))
  then (inr AgentNameMismatch, fs)
  else
    match get_agent_dir agent_name with
    | inr e => (inr e, fs)
    | inl _ =>
        match fs !! agent_name with
        | None => (inr AgentNotFound, fs)
        | Some RegularFile => (inr AgentFailed, fs)
        | Some (Directory files) =>
            let fs' :=
              <[agent_name := Directory (write_agent_files agent_config files)]>
                fs in
            match model_validate agent_config with
            | Some agent_read => (inl agent_read, fs')
            | None => (inr AgentFailed, fs')
            end
        end
    end.

Definition delete_agent (agent_name : string) (fs : agents_fs)
  : result unit * agents_fs :=
  match get_agent_dir agent_name with
  | inr e => (inr e, fs)
  | inl _ =>
      match fs !! agent_name with
      | None => (inr AgentNotFound, fs)
      | Some RegularFile => (inr AgentFailed, fs)
      | Some (Directory _) => (inl tt, delete agent_name fs)
      end
  end.

(** [list_models]. *)
Definition list_models : list string :=
  ["gemini-2.0-flash"; "gemini-2.5-pro-preview-03-25"].

End Agents.

(** The agent of the repository (managed_agents/weather_time_agent), its
    tool references given out of order and one of them twice. *)
Definition weather_time_agent : Agents.AgentConfig :=
  {| Agents.name := "weather_time_agent";
     Agents.model := "gemini-2.0-flash";
     Agents.description :=
       Some "Agent to answer questions about the time and weather in a city.!";
     Agents.instruction :=
       "You are a helpful agent who can answer user questions about the time and weather in a city. When asked about a country you will ask if the checking for the capital city of that country is ok";
     Agents.tool_references :=
       ["get_weather"; "report_problem"; "get_current_time"; "get_weather"] |}.

(** The same references as a set, in order. *)
Definition sorted_references : list string :=
  ["get_current_time"; "get_weather"; "report_problem"].

(** An agent without tools. *)
Definition echo_agent : Agents.AgentConfig :=
  {| Agents.name := "Echo";
     Agents.model := "gemini-2.0-flash";
     Agents.description := None;
     Agents.instruction := "Repeat what the user says.";
     Agents.tool_references := [] |}.

(** Fields with a name the validator refuses, which no request body can
    carry. *)
Definition unnamed_agent : Agents.AgentConfig :=
  {| Agents.name := "___";
     Agents.model := "gemini-2.0-flash";
     Agents.description := None;
     Agents.instruction := "";
     Agents.tool_references := [] |}.

(** Managed directories: with a plain file only; with the agent [Echo]
    as create makes it; with a directory [Echo] that holds a file the
    endpoints do not write; and the latter after an update. *)
Definition notes_only : Agents.agents_fs :=
  <["notes.txt" := Agents.RegularFile]> ∅.

Definition one_agent : Agents.agents_fs :=
  <["Echo" := Agents.Directory (Agents.write_agent_files echo_agent ∅)]> ∅.

Definition stale_files : gmap string Agents.content :=
  <[".env" := Agents.Text "GOOGLE_GENAI_USE_VERTEXAI=FALSE"]> ∅.

Definition stale_agent : Agents.agents_fs :=
  <["Echo" := Agents.Directory stale_files]> notes_only.

Definition updated_agent : Agents.agents_fs :=
  <["Echo" := Agents.Directory (Agents.write_agent_files echo_agent stale_files)]>
    notes_only.

(** The top-level statements of [file_with_helper_and_tool]. *)
Definition helper_and_tool : module :=
  imports
  ++ [FunctionDef "helper" "()" [Simple "pass"];
      FunctionDef "tool" "()"
        [FunctionDef "helper" "()" [Simple "return 1"];
         Simple "return helper()"]].

(** * Properties *)

(** ** Sanitised agent names *)

Section SanitizeFacts.
Import Sanitize.
Variables (uni_digit xid_start xid_continue : N -> bool).

Lemma word_char_ascii (c : N) : word_char c = true -> (c <? 128)%N = true.
Proof.
  unfold word_char, ascii_lower, ascii_upper, ascii_digit, underscore.
  rewrite !orb_true_iff, !andb_true_iff, !N.leb_le, N.eqb_eq, N.ltb_lt. lia.
Qed.

Lemma word_char_continue (c : N) :
  word_char c = true -> id_continue xid_continue c = true.
Proof.
  intros Hw. unfold id_continue. rewrite (word_char_ascii c Hw). exact Hw.
Qed.

Lemma word_char_start (c : N) :
  word_char c = true -> (c =? underscore)%N = false ->
  isdigit uni_digit c = false -> id_start xid_start c = true.
Proof.
  intros Hw Hu Hd. unfold id_start, isdigit in *.
  rewrite (word_char_ascii c Hw) in *. unfold word_char in Hw.
  rewrite Hu, Hd in Hw. rewrite !orb_false_r in Hw. rewrite Hw. reflexivity.
Qed.

Lemma lstrip_suffix (ch : N) (s : pystr) :
  exists k, s = repeat ch k ++ lstrip ch s
            /\ match lstrip ch s with
               | c :: _ => (c =? ch)%N = false
               | [] => True
               end.
Proof.
  induction s as [|c s (k & E & Hc)]; simpl.
  - exists 0. auto.
  - destruct (c =? ch)%N eqn:Ec.
    + apply N.eqb_eq in Ec. subst c. exists (S k). simpl. split; [congruence|auto].
    + exists 0. simpl. auto.
Qed.

Lemma rstrip_prefix (ch : N) (s : pystr) :
  exists k, s = rstrip ch s ++ repeat ch k.
Proof.
  unfold rstrip. destruct (lstrip_suffix ch (rev s)) as (k & E & _).
  exists k. rewrite <- (rev_involutive s) at 1. rewrite E at 1.
  rewrite rev_app_distr, rev_repeat. reflexivity.
Qed.

Lemma forallb_lstrip (f : N -> bool) (ch : N) (s : pystr) :
  forallb f s = true -> forallb f (lstrip ch s) = true.
Proof.
  induction s as [|c s IH]; simpl; [reflexivity|].
  rewrite andb_true_iff. intros [Hc Hs].
  destruct (c =? ch)%N; [auto|]. simpl. rewrite Hc, Hs. reflexivity.
Qed.

Lemma forallb_rev (f : N -> bool) (s : pystr) :
  forallb f (rev s) = forallb f s.
Proof.
  induction s as [|c s IH]; simpl; [reflexivity|].
  rewrite forallb_app, IH. simpl. rewrite andb_true_r. apply andb_comm.
Qed.

Lemma forallb_strip (f : N -> bool) (ch : N) (s : pystr) :
  forallb f s = true -> forallb f (strip ch s) = true.
Proof.
  intros Hs. unfold strip, rstrip.
  rewrite forallb_rev. apply forallb_lstrip. rewrite forallb_rev.
  apply forallb_lstrip, Hs.
Qed.

(** A stripped name does not start with the stripped character. *)
Lemma strip_head (ch : N) (s : pystr) (c : N) (rest : pystr) :
  strip ch s = c :: rest -> (c =? ch)%N = false.
Proof.
  unfold strip. intros Hs.
  destruct (lstrip_suffix ch s) as (_ & _ & Hhead).
  destruct (rstrip_prefix ch (lstrip ch s)) as (k & E).
  rewrite Hs in E. rewrite E in Hhead. exact Hhead.
Qed.

Lemma re_sub_word_chars (s : pystr) : forallb word_char (re_sub_non_word s) = true.
Proof.
  unfold re_sub_non_word. induction s as [|c s IH]; simpl; [reflexivity|].
  destruct (word_char c) eqn:E; simpl; rewrite ?E; exact IH.
Qed.

Lemma forallb_continue (s : pystr) :
  forallb word_char s = true -> forallb (id_continue xid_continue) s = true.
Proof.
  induction s as [|c s IH]; simpl; [reflexivity|].
  rewrite !andb_true_iff. intros [Hc Hs]. auto using word_char_continue.
Qed.

(** The rewriting steps leave nothing for the final check to reject. *)
Lemma clean_identifier (name : pystr) :
  clean uni_digit name <> [] ->
  isidentifier xid_start xid_continue (clean uni_digit name) = true.
Proof.
  unfold clean.
  set (stripped := strip underscore
         (re_sub_non_word
            (replace hyphen underscore (replace space underscore name)))).
  assert (forallb word_char stripped = true) as Hw
    by apply forallb_strip, re_sub_word_chars.
  pose proof (strip_head underscore
    (re_sub_non_word (replace hyphen underscore (replace space underscore name))))
    as Hhead.
  fold stripped in Hhead.
  destruct stripped as [|c rest]; [congruence|]. intros _.
  specialize (Hhead c rest eq_refl).
  pose proof Hw as Hw'. simpl in Hw'. apply andb_true_iff in Hw' as [Hc Hrest].
  destruct (isdigit uni_digit c) eqn:Hd.
  - unfold isidentifier. cbn [forallb].
    rewrite (word_char_continue c Hc), (forallb_continue rest Hrest).
    reflexivity.
  - unfold isidentifier.
    rewrite (word_char_start c Hc Hhead Hd), (forallb_continue rest Hrest).
    reflexivity.
Qed.

Lemma sanitize_never_unidentified (v : pyvalue) (name : pystr) :
  sanitize_agent_name uni_digit xid_start xid_continue v
  <> inr (NotAnIdentifier name).
Proof.
  destruct v as [s| |z]; simpl; try discriminate.
  pose proof (clean_identifier s) as Hid.
  destruct (clean uni_digit s) as [|c rest]; [discriminate|].
  rewrite Hid by discriminate. discriminate.
Qed.

(** C10: for every input, sanitize_agent_name either raises ValueError
    or returns a non-empty string that satisfies isidentifier(), and so
    does the validator of AgentConfig, which accepts a name only through
    it. *)
Theorem sanitize_agent_name_identifier (v : pyvalue) :
  match sanitize_agent_name uni_digit xid_start xid_continue v with
  | inl name => name <> [] /\ isidentifier xid_start xid_continue name = true
  | inr _ => True
  end
  /\ match validate_and_sanitize_name uni_digit xid_start xid_continue v with
     | inl name => name <> [] /\ isidentifier xid_start xid_continue name = true
     | inr _ => True
     end.
Proof.
  assert (match sanitize_agent_name uni_digit xid_start xid_continue v with
          | inl name =>
              name <> [] /\ isidentifier xid_start xid_continue name = true
          | inr _ => True
          end) as Hs.
  { destruct v as [s| |z]; simpl; try exact I.
    destruct (clean uni_digit s) as [|c rest] eqn:E; [exact I|].
    destruct (isidentifier xid_start xid_continue (c :: rest)) eqn:Hid;
      [|exact I].
    split; [discriminate|exact Hid]. }
  split; [exact Hs|].
  unfold validate_and_sanitize_name. destruct v as [s| |z]; try exact I.
  destruct (sanitize_agent_name uni_digit xid_start xid_continue (PyStr s));
    [exact Hs|exact I].
Qed.

End SanitizeFacts.

Example sanitize_spaces_and_hyphens :
  Sanitize.sanitize_agent_name (fun _ => false) (fun _ => false) (fun _ => false)
    (Sanitize.PyStr (Sanitize.of_string "my agent-1"))
  = inl (Sanitize.of_string "my_agent_1").
Proof. reflexivity. Qed.

Example sanitize_leading_digit :
  Sanitize.sanitize_agent_name (fun _ => false) (fun _ => false) (fun _ => false)
    (Sanitize.PyStr (Sanitize.of_string "_42 things!_"))
  = inl (Sanitize.of_string "_42_things").
Proof. reflexivity. Qed.

Example sanitize_only_invalid :
  Sanitize.sanitize_agent_name (fun _ => false) (fun _ => false) (fun _ => false)
    (Sanitize.PyStr (Sanitize.of_string "--- ???"))
  = inr Sanitize.EmptyAfterSanitization.
Proof. reflexivity. Qed.

(** ** The walk *)

Lemma forest_count_app (a b : list stmt) :
  forest_count (a ++ b) = forest_count a + forest_count b.
Proof.
  unfold forest_count. induction a as [|x a IH]; simpl; [reflexivity|].
  rewrite IH. lia.
Qed.

Lemma node_count_children (node : stmt) :
  node_count node = S (forest_count (child_nodes node)).
Proof. destruct node; reflexivity. Qed.

Lemma forest_count_cons (node : stmt) (todo : list stmt) :
  forest_count (node :: todo)
  = S (forest_count (todo ++ child_nodes node)).
Proof.
  rewrite forest_count_app. unfold forest_count at 1. simpl.
  fold (forest_count todo). rewrite node_count_children. lia.
Qed.

Lemma walk_queue_fuel (f1 : nat) :
  forall f2 todo,
    forest_count todo <= f1 -> forest_count todo <= f2 ->
    walk_queue f1 todo = walk_queue f2 todo.
Proof.
  induction f1 as [|f1 IH]; intros f2 todo H1 H2.
  - destruct todo as [|node todo].
    + destruct f2; reflexivity.
    + rewrite forest_count_cons in H1. lia.
  - destruct todo as [|node todo]; [destruct f2; reflexivity|].
    rewrite forest_count_cons in H1, H2.
    destruct f2 as [|f2]; [lia|]. simpl. f_equal.
    apply IH; lia.
Qed.

(** The two equations of the queue: enough fuel is always given. *)
Lemma walk_nil : walk [] = [].
Proof. reflexivity. Qed.

Lemma walk_cons (node : stmt) (todo : list stmt) :
  walk (node :: todo) = node :: walk (todo ++ child_nodes node).
Proof.
  unfold walk at 1. rewrite forest_count_cons. reflexivity.
Qed.

(** Breadth first: the nodes at the front of the queue come out before
    any of their children. *)
Lemma walk_app (l1 : list stmt) :
  forall l2, walk (l1 ++ l2) = l1 ++ walk (l2 ++ flat_map child_nodes l1).
Proof.
  induction l1 as [|x l1 IH]; intros l2; simpl.
  - rewrite app_nil_r. reflexivity.
  - rewrite walk_cons. f_equal. rewrite <- app_assoc, IH, <- app_assoc.
    reflexivity.
Qed.

Lemma walk_top_level (tree : module) :
  walk tree = tree ++ walk (flat_map child_nodes tree).
Proof.
  rewrite <- (app_nil_r tree) at 1. rewrite walk_app. reflexivity.
Qed.

Lemma function_names_app (a b : list stmt) :
  function_names (a ++ b) = function_names a ++ function_names b.
Proof. unfold function_names. rewrite List.filter_app, map_app. reflexivity. Qed.

Lemma is_function_named_spec (n : string) (node : stmt) :
  is_function_named n node = true <->
  is_function_def node = true /\ node_name node = n.
Proof.
  unfold is_function_named. rewrite andb_true_iff, String.eqb_eq. reflexivity.
Qed.

Lemma elem_of_function_names (n : string) (nodes : list stmt) :
  n ∈ function_names nodes <->
  exists node, node ∈ nodes /\ is_function_named n node = true.
Proof.
  unfold function_names. rewrite list_elem_of_In, in_map_iff. split.
  - intros (node & Hn & Hin). apply filter_In in Hin as [Hin Hf].
    exists node. rewrite list_elem_of_In, is_function_named_spec. auto.
  - intros (node & Hin & Hf). apply is_function_named_spec in Hf as [Hf Hn].
    exists node. rewrite filter_In, <- list_elem_of_In. auto.
Qed.

Lemma find_none_iff (n : string) (nodes : list stmt) :
  List.find (is_function_named n) nodes = None <-> n ∉ function_names nodes.
Proof.
  rewrite elem_of_function_names. split.
  - intros Hnone (node & Hin & Hf). apply list_elem_of_In in Hin.
    pose proof (find_none _ _ Hnone node Hin). congruence.
  - intros Hno. destruct (List.find _ nodes) as [node|] eqn:E; [|reflexivity].
    exfalso. apply Hno. apply find_some in E as [Hin Hf].
    exists node. rewrite list_elem_of_In. auto.
Qed.

Lemma find_app_l (n : string) (a b : list stmt) (node : stmt) :
  List.find (is_function_named n) a = Some node ->
  List.find (is_function_named n) (a ++ b) = Some node.
Proof.
  induction a as [|x a IH]; simpl; [discriminate|].
  destruct (is_function_named n x); auto.
Qed.

Lemma find_app_r (n : string) (a b : list stmt) :
  List.find (is_function_named n) a = None ->
  List.find (is_function_named n) (a ++ b) = List.find (is_function_named n) b.
Proof.
  induction a as [|x a IH]; simpl; [reflexivity|].
  destruct (is_function_named n x); [discriminate|auto].
Qed.

(** Found by the walk means listed by the walk. *)
Lemma find_function_node_none (tree : module) (n : string) :
  find_function_node tree n = None <-> n ∉ function_names (walk tree).
Proof. apply find_none_iff. Qed.

(** A top-level definition is found before any nested one. *)
Lemma find_function_node_top_level (tree : module) (n : string) (node : stmt) :
  List.find (is_function_named n) tree = Some node ->
  find_function_node tree n = Some node.
Proof.
  intros Hf. unfold find_function_node. rewrite walk_top_level.
  apply find_app_l, Hf.
Qed.

Lemma top_level_names_walk (tree : module) (n : string) :
  n ∈ function_names tree -> n ∈ function_names (walk tree).
Proof.
  rewrite walk_top_level, function_names_app, elem_of_app. auto.
Qed.

(** ** The handlers, over any parser and unparser *)

Section StoreProperties.
Context `{PyAst}.

Lemma read_keeps_file (fs fs' : files) (r : response module) :
  read_global_tools_ast fs = (r, fs') -> fs' = fs.
Proof.
  unfold read_global_tools_ast, mbind, handler_bind, open_read.
  destruct fs as [src|]; [|congruence].
  destruct (ast_parse src) as [tree|[]]; unfold mret, handler_ret, raise;
    congruence.
Qed.

Lemma read_ok_iff (fs : files) (tree : module) :
  read_global_tools_ast fs = (Ok tree, fs) <->
  exists src, fs = Some src /\ ast_parse src = inl tree.
Proof.
  unfold read_global_tools_ast, mbind, handler_bind, open_read.
  destruct fs as [src|].
  - destruct (ast_parse src) as [t|[]] eqn:E;
      unfold mret, handler_ret, raise; split;
      try discriminate;
      try (intros (src' & [= <-] & E'); congruence).
    intros [= ->]. eauto.
  - split; [discriminate|]. intros (src & [=] & _).
Qed.

(** A file that holds the rendering of [tree] and parses back to it. *)
Lemma read_written (tree : module) (fs : files) (text : string) :
  ast_unparse tree = Some text -> fs = Some (final_newline text) ->
  ast_parse (final_newline text) = inl tree ->
  read_global_tools_ast fs = (Ok tree, fs).
Proof.
  intros _ -> Hp. apply read_ok_iff. eauto.
Qed.

Lemma parse_new_function_pure (code target : string) (fs : files) :
  parse_new_function code target fs = (validated code target, fs).
Proof.
  unfold validated, parse_new_function.
  destruct (ast_parse (str_strip code)) as [[|node rest]|[]]; try reflexivity.
  destruct (negb (is_function_def node)); [reflexivity|].
  destruct (negb (node_name node =? target)%string); reflexivity.
Qed.

Lemma validated_ok_iff (code target : string) (node : stmt) :
  validated code target = Ok node <->
  exists rest, ast_parse (str_strip code) = inl (node :: rest)
               /\ is_function_named target node = true.
Proof.
  unfold validated, parse_new_function, is_function_named.
  destruct (ast_parse (str_strip code)) as [[|node' rest]|[]]; simpl;
    try (split; [discriminate|intros (? & [=] & _)]).
  destruct (is_function_def node') eqn:Ef; simpl.
  - destruct (node_name node' =? target)%string eqn:En; simpl.
    + split.
      * intros [= ->]. exists rest. rewrite Ef, En. auto.
      * intros (rest' & [= -> ->] & _). reflexivity.
    + split; [discriminate|].
      intros (rest' & [= -> ->] & Hn). rewrite Ef, En in Hn. discriminate.
  - split; [discriminate|].
    intros (rest' & [= -> ->] & Hn). rewrite Ef in Hn. discriminate.
Qed.

(** What the validation raises. *)
Lemma validated_raises (code target : string) (e : HTTPException) :
  validated code target = Raise e ->
  e = InvalidDefinition \/ e = NameMismatch \/ e = Unhandled.
Proof.
  unfold validated, parse_new_function.
  destruct (ast_parse (str_strip code)) as [[|node rest]|[]]; simpl;
    try (intros [= <-]; auto).
  destruct (is_function_def node); simpl; [|intros [= <-]; auto].
  destruct (node_name node =? target)%string; simpl;
    [discriminate|intros [= <-]; auto].
Qed.

(** What a write leaves. *)
Lemma write_global_tools_ast_unfold (tree : module) (fs : files) :
  write_global_tools_ast tree fs
  = match ast_unparse tree with
    | Some text => (Ok tt, Some (final_newline text))
    | None => (Raise WriteFailed, fs)
    end.
Proof.
  unfold write_global_tools_ast. destruct (ast_unparse tree); reflexivity.
Qed.

(** The three handlers that write, read off their definitions. *)
Lemma create_tool_function_unfold (tool_func : ToolFunction) (fs : files)
    (tree : module) :
  read_global_tools_ast fs = (Ok tree, fs) ->
  create_tool_function tool_func fs =
    match find_function_node tree (name tool_func) with
    | Some _ => (Raise AlreadyExists, fs)
    | None =>
        match validated (code tool_func) (name tool_func) with
        | Ok node =>
            match ast_unparse (tree ++ [node]) with
            | Some text => (Ok tool_func, Some (final_newline text))
            | None => (Raise AddFailed, fs)
            end
        | Raise e => (Raise (wrapped AddFailed e), fs)
        end
    end.
Proof.
  intros Hr. unfold create_tool_function, mbind, handler_bind. rewrite Hr.
  destruct (find_function_node tree (name tool_func)); [reflexivity|].
  unfold except_exception. rewrite parse_new_function_pure.
  destruct (validated _ _) as [node|e]; [|reflexivity].
  rewrite write_global_tools_ast_unfold.
  destruct (ast_unparse (tree ++ [node])); reflexivity.
Qed.

Lemma update_tool_function_unfold (function_name : string)
    (tool_func : ToolFunction) (fs : files) (tree : module) :
  read_global_tools_ast fs = (Ok tree, fs) ->
  name tool_func = function_name ->
  update_tool_function function_name tool_func fs =
    match find_function_node tree function_name with
    | None => (Raise NotFound, fs)
    | Some _ =>
        match validated (code tool_func) function_name with
        | Raise e => (Raise (wrapped UpdateFailed e), fs)
        | Ok node =>
            match list_find (fun x => is_function_named function_name x = true)
                            tree with
            | Some (i, _) =>
                match ast_unparse (<[i := node]> tree) with
                | Some text => (Ok tool_func, Some (final_newline text))
                | None => (Raise UpdateFailed, fs)
                end
            | None => (Raise NodeIndexMissing, fs)
            end
        end
    end.
Proof.
  intros Hr Hn. unfold update_tool_function. rewrite Hn, String.eqb_refl. simpl.
  unfold mbind, handler_bind. rewrite Hr.
  destruct (find_function_node tree function_name); [|reflexivity].
  unfold except_exception. rewrite parse_new_function_pure.
  destruct (validated _ _) as [node|e]; [|reflexivity].
  destruct (list_find _ tree) as [[i x]|]; [|reflexivity].
  rewrite write_global_tools_ast_unfold.
  destruct (ast_unparse (<[i := node]> tree)); reflexivity.
Qed.

Lemma delete_tool_function_unfold (function_name : string) (fs : files)
    (tree : module) :
  read_global_tools_ast fs = (Ok tree, fs) ->
  delete_tool_function function_name fs =
    let new_body :=
      List.filter (fun node => negb (is_function_named function_name node))
                  tree in
    if (length new_body =? length tree)%nat then (Raise NotFound, fs)
    else match ast_unparse new_body with
         | Some text => (Ok tt, Some (final_newline text))
         | None => (Raise WriteFailed, fs)
         end.
Proof.
  intros Hr. unfold delete_tool_function, mbind, handler_bind. rewrite Hr.
  simpl. destruct (_ =? _)%nat; [reflexivity|].
  apply write_global_tools_ast_unfold.
Qed.


Lemma get_tool_function_unfold (function_name : string) (fs : files)
    (tree : module) :
  read_global_tools_ast fs = (Ok tree, fs) ->
  get_tool_function function_name fs =
    match find_function_node tree function_name with
    | Some node =>
        match ast_unparse [node] with
        | Some text => (Ok {| name := function_name; code := text |}, fs)
        | None => (Raise Unhandled, fs)
        end
    | None => (Raise NotFound, fs)
    end.
Proof.
  intros Hr. unfold get_tool_function, get_function_code, mbind, handler_bind.
  rewrite Hr. destruct (find_function_node tree function_name) as [node|];
    [|reflexivity].
  destruct (ast_unparse [node]); reflexivity.
Qed.

(** A listing that succeeds comes from a file that parses. *)
Lemma list_tool_functions_inv (fs fs' : files) (names : list string) :
  list_tool_functions fs = (Ok names, fs') ->
  exists tree, read_global_tools_ast fs = (Ok tree, fs)
               /\ names = function_names (walk tree) /\ fs' = fs.
Proof.
  unfold list_tool_functions, mbind, handler_bind.
  destruct (read_global_tools_ast fs) as [[tree|e] fs1] eqn:Hr; [|discriminate].
  pose proof (read_keeps_file _ _ _ Hr) as ->.
  unfold mret, handler_ret. intros [= <- <-]. eauto.
Qed.

(** Deleting by name keeps the names of the other functions, in order. *)
Lemma function_names_delete (n : string) (tree : module) :
  function_names (List.filter (fun node => negb (is_function_named n node)) tree)
  = List.filter (fun m => negb (String.eqb m n)) (function_names tree).
Proof.
  unfold function_names, is_function_named.
  induction tree as [|x tree IH]; simpl; [reflexivity|].
  destruct (is_function_def x) eqn:Ef; simpl.
  - destruct (node_name x =? n)%string; simpl; rewrite ?Ef; simpl;
      rewrite IH; reflexivity.
  - rewrite Ef. apply IH.
Qed.

Lemma filter_length_lt (n : string) (tree : module) :
  length (List.filter (fun node => negb (is_function_named n node)) tree)
  <= length tree.
Proof. apply List.filter_length_le. Qed.

Lemma delete_length_eq_iff (n : string) (tree : module) :
  length (List.filter (fun node => negb (is_function_named n node)) tree)
  = length tree <-> n ∉ function_names tree.
Proof.
  rewrite elem_of_function_names.
  induction tree as [|x tree IH]; simpl.
  - split; [|reflexivity]. intros _ (node & Hin & _). inversion Hin.
  - pose proof (filter_length_lt n tree) as Hle.
    destruct (is_function_named n x) eqn:E; simpl.
    + split; [lia|]. intros Hno. exfalso. apply Hno. exists x.
      split; [left|assumption].
    + split.
      * intros Hlen (node & Hin & Hf). apply elem_of_cons in Hin as [->|Hin].
        -- congruence.
        -- apply IH; [lia|]. eauto.
      * intros Hno. f_equal. apply IH. intros (node & Hin & Hf).
        apply Hno. exists node. split; [right|]; assumption.
Qed.

(** The first top-level definition named [n], as the loop of
    [update_tool_function] finds it. *)
Lemma first_named_split (n : string) (tree : module) (i : nat) (old : stmt) :
  list_find (fun x => is_function_named n x = true) tree = Some (i, old) ->
  tree = take i tree ++ old :: drop (S i) tree
  /\ is_function_named n old = true
  /\ n ∉ function_names (take i tree).
Proof.
  intros Hf. apply list_find_Some in Hf as (Hi & Hold & Hbefore).
  split; [|split].
  - symmetry. apply take_drop_middle, Hi.
  - exact Hold.
  - rewrite elem_of_function_names. intros (node & Hin & Hn).
    apply list_elem_of_lookup in Hin as [j Hj].
    pose proof (lookup_lt_Some _ _ _ Hj) as Hlt. rewrite length_take in Hlt.
    rewrite lookup_take_lt in Hj by lia.
    apply (Hbefore j node); [assumption|lia|assumption].
Qed.

Lemma first_named_exists (n : string) (tree : module) :
  n ∈ function_names tree <->
  exists i old,
    list_find (fun x => is_function_named n x = true) tree = Some (i, old).
Proof.
  rewrite elem_of_function_names. split.
  - intros (node & Hin & Hn).
    destruct (list_find (fun x => is_function_named n x = true) tree)
      as [[i old]|] eqn:E; [eauto|].
    exfalso. rewrite list_find_None in E. rewrite Forall_forall in E.
    exact (E node Hin Hn).
  - intros (i & old & Hf). apply list_find_Some in Hf as (Hi & Hold & _).
    exists old. split; [|exact Hold]. eapply list_elem_of_lookup_2, Hi.
Qed.


(** After a replacement or an append, the walk finds the new node. *)
Lemma find_first_top_level (n : string) (before after : list stmt)
    (node : stmt) :
  n ∉ function_names before -> is_function_named n node = true ->
  find_function_node (before ++ node :: after) n = Some node.
Proof.
  intros Hb Hn. apply find_function_node_top_level.
  rewrite find_app_r by (apply find_none_iff, Hb). simpl. rewrite Hn.
  reflexivity.
Qed.

End StoreProperties.

(** ** MiniPy parses back what it unparses *)

Module MiniPyLaws.
Import MiniPy.

Local Arguments Ascii.eqb : simpl never.
Local Arguments between : simpl never.
Local Arguments plain_char : simpl never.
Local Arguments ident_char : simpl never.
Local Arguments digit_char : simpl never.
Local Arguments whitespace : simpl never.

(** *** Lines *)

Lemma split_lines_cons (s : chars) : exists l ls, split_lines s = l :: ls.
Proof.
  induction s as [|c s (l & ls & IH)]; simpl; [eauto|].
  destruct (is_newline c); [eauto|]. rewrite IH. eauto.
Qed.

Lemma split_lines_line (l : chars) (s : chars) :
  no_newline l ->
  split_lines (l ++ "010"%char :: s) = l :: split_lines s.
Proof.
  unfold no_newline. induction l as [|c l IH]; simpl; [reflexivity|].
  rewrite andb_true_iff, negb_true_iff. intros [Hc Hl].
  rewrite Hc, IH by assumption. reflexivity.
Qed.

Lemma split_lines_last (l : chars) : no_newline l -> split_lines l = [l].
Proof.
  unfold no_newline. induction l as [|c l IH]; simpl; [reflexivity|].
  rewrite andb_true_iff, negb_true_iff. intros [Hc Hl].
  rewrite Hc, IH by assumption. reflexivity.
Qed.

Lemma split_join (l : chars) (ls : list chars) :
  Forall no_newline (l :: ls) -> split_lines (join_lines (l :: ls)) = l :: ls.
Proof.
  revert l. induction ls as [|l' ls IH]; intros l Hall.
  - simpl. apply split_lines_last. inversion Hall; assumption.
  - change (join_lines (l :: l' :: ls))
      with (l ++ "010"%char :: join_lines (l' :: ls)).
    inversion Hall; subst. rewrite split_lines_line by assumption.
    rewrite IH by assumption. reflexivity.
Qed.

Lemma split_lines_snoc_newline (s : chars) :
  split_lines (s ++ ["010"%char]) = split_lines s ++ [[]].
Proof.
  induction s as [|c s IH]; simpl; [reflexivity|].
  destruct (is_newline c); rewrite IH; [reflexivity|].
  destruct (split_lines_cons s) as (l & ls & ->). reflexivity.
Qed.

Lemma split_lines_snoc (s : chars) (c : ascii) :
  is_newline c = false ->
  exists ls l, split_lines s = ls ++ [l]
               /\ split_lines (s ++ [c]) = ls ++ [l ++ [c]].
Proof.
  intros Hc. induction s as [|a s (ls & l & E1 & E2)]; simpl.
  - rewrite Hc. exists [], []. auto.
  - destruct (is_newline a).
    + exists ([] :: ls), l. rewrite E1, E2. auto.
    + rewrite E1, E2. destruct ls as [|l0 ls]; simpl.
      * exists [], (a :: l). auto.
      * exists ((a :: l0) :: ls), l. auto.
Qed.

Lemma to_str_app (a b : chars) : to_str (a ++ b) = (to_str a ++ to_str b)%string.
Proof. induction a as [|c a IH]; simpl; [reflexivity|]. rewrite IH. reflexivity. Qed.

Lemma of_to_str (l : chars) : of_str (to_str l) = l.
Proof. apply list_ascii_of_string_of_list_ascii. Qed.

Lemma to_of_str (s : string) : to_str (of_str s) = s.
Proof. apply string_of_list_ascii_of_string. Qed.

(** *** Indentation and trailing spaces *)

Lemma indent_of_spec (l : chars) :
  l = repeat " "%char (fst (indent_of l)) ++ snd (indent_of l)
  /\ starts_with is_space (snd (indent_of l)) = false.
Proof.
  induction l as [|c l [IH1 IH2]]; simpl; [auto|].
  destruct (is_space c) eqn:E.
  - destruct (indent_of l) as [n r]. simpl in *. split; [|assumption].
    unfold is_space in E. apply Ascii.eqb_eq in E. subst c. congruence.
  - simpl. rewrite E. auto.
Qed.

Lemma indent_of_line (k : nat) (content : chars) :
  starts_with is_space content = false ->
  indent_of (repeat " "%char k ++ content) = (k, content).
Proof.
  intros Hs. induction k as [|k IH]; simpl.
  - destruct content as [|c content]; [reflexivity|]. simpl in *.
    rewrite Hs. reflexivity.
  - rewrite IH. reflexivity.
Qed.

Lemma rstrip_spaces_spec (l : chars) :
  exists n, l = rstrip_spaces l ++ repeat " "%char n
            /\ ends_with is_space (rstrip_spaces l) = false.
Proof.
  unfold rstrip_spaces, ends_with.
  destruct (indent_of_spec (rev l)) as [E Hs].
  exists (fst (indent_of (rev l))). split.
  - rewrite <- (rev_involutive l) at 1. rewrite E at 1.
    rewrite rev_app_distr, rev_repeat. reflexivity.
  - rewrite rev_involutive. exact Hs.
Qed.

Lemma rstrip_spaces_id (l : chars) :
  ends_with is_space l = false -> rstrip_spaces l = l.
Proof.
  unfold rstrip_spaces, ends_with. intros Hs.
  rewrite <- (app_nil_l (rev l)).
  change [] with (repeat " "%char 0) at 1.
  rewrite indent_of_line by assumption. simpl. apply rev_involutive.
Qed.


(** *** Classifying a rendered line *)

Lemma strip_prefix_app (p r : chars) : strip_prefix p (p ++ r) = Some r.
Proof.
  induction p as [|c p IH]; simpl; [destruct r; reflexivity|].
  rewrite Ascii.eqb_refl. exact IH.
Qed.

Lemma strip_prefix_some (p l r : chars) :
  strip_prefix p l = Some r -> l = p ++ r.
Proof.
  revert l. induction p as [|c p IH]; intros l; simpl.
  - destruct l; intros [= ->]; reflexivity.
  - destruct l as [|b l]; [discriminate|].
    destruct (Ascii.eqb c b) eqn:E; [|discriminate].
    apply Ascii.eqb_eq in E. subst b. intros Hp. f_equal. apply IH, Hp.
Qed.

Lemma span_spec (f : ascii -> bool) (l : chars) :
  l = fst (span f l) ++ snd (span f l)
  /\ forallb f (fst (span f l)) = true
  /\ starts_with f (snd (span f l)) = false.
Proof.
  induction l as [|c l (IH1 & IH2 & IH3)]; simpl; [auto|].
  destruct (f c) eqn:E.
  - destruct (span f l) as [a b]. simpl in *.
    split; [congruence|]. split; [|assumption].
    apply andb_true_iff. auto.
  - simpl. rewrite E. auto.
Qed.

Lemma span_exact (f : ascii -> bool) (a b : chars) :
  forallb f a = true -> starts_with f b = false -> span f (a ++ b) = (a, b).
Proof.
  intros Ha Hb. induction a as [|c a IH]; simpl in *.
  - destruct b as [|c b]; [reflexivity|]. simpl in *. rewrite Hb. reflexivity.
  - apply andb_true_iff in Ha as [Hc Ha]. rewrite Hc, IH by assumption.
    reflexivity.
Qed.

Lemma ident_char_plain (c : ascii) : ident_char c = true -> plain_char c = true.
Proof.
  destruct c as [[] [] [] [] [] [] [] []]; vm_compute; congruence.
Qed.

Lemma ident_chars_plain (l : chars) :
  forallb ident_char l = true -> forallb plain_char l = true.
Proof.
  induction l as [|c l IH]; simpl; [reflexivity|].
  rewrite !andb_true_iff. intros [Hc Hl]. auto using ident_char_plain.
Qed.

Lemma ident_ok_chars (name : chars) :
  ident_ok name = true -> forallb ident_char name = true.
Proof.
  destruct name as [|c name]; [discriminate|]. unfold ident_ok.
  rewrite andb_true_iff. tauto.
Qed.

Lemma starts_with_open (args : chars) :
  starts_with (Ascii.eqb "(") args = true ->
  forall rest, starts_with ident_char (args ++ rest) = false.
Proof.
  destruct args as [|c args]; [discriminate|]. simpl.
  intros Hc rest. apply Ascii.eqb_eq in Hc. subst c. reflexivity.
Qed.

Lemma def_header_rendered (async : bool) (name args : string) :
  logical_ok (LDef async name args) = true ->
  def_header async (of_str name ++ of_str args ++ [":"%char])
  = Some (LDef async name args).
Proof.
  simpl. rewrite !andb_true_iff. intros [[Hn Ha] _]. unfold def_header.
  pose proof Ha as Ha'. unfold args_ok in Ha'. apply andb_true_iff in Ha' as [Hopen _].
  rewrite span_exact
    by (auto using ident_ok_chars, starts_with_open).
  rewrite rev_app_distr. simpl. rewrite rev_involutive, Hn, Ha. simpl.
  rewrite !to_of_str. reflexivity.
Qed.

Lemma def_not_async (x : chars) :
  strip_prefix (of_str "async def ") (of_str "def " ++ x) = None.
Proof. reflexivity. Qed.

Lemma class_not_async (x : chars) :
  strip_prefix (of_str "async def ") (of_str "class " ++ x) = None.
Proof. reflexivity. Qed.

Lemma class_not_def (x : chars) :
  strip_prefix (of_str "def ") (of_str "class " ++ x) = None.
Proof. reflexivity. Qed.

Lemma keyword_free_spec (content : chars) :
  keyword_free content = true ->
  strip_prefix (of_str "async def ") content = None
  /\ strip_prefix (of_str "def ") content = None
  /\ strip_prefix (of_str "class ") content = None.
Proof.
  unfold keyword_free.
  destruct (strip_prefix (of_str "async def ") content); [discriminate|].
  destruct (strip_prefix (of_str "def ") content); [discriminate|].
  destruct (strip_prefix (of_str "class ") content); [discriminate|auto].
Qed.

Lemma classify_content_rendered (l : logical) :
  logical_ok l = true -> classify_content (logical_text l) = Some l.
Proof.
  intros Hok. destruct l as [[] name args|head|text].
  - unfold classify_content, logical_text.
    rewrite strip_prefix_app. apply def_header_rendered, Hok.
  - unfold classify_content, logical_text.
    rewrite def_not_async, strip_prefix_app. apply def_header_rendered, Hok.
  - simpl in Hok. apply andb_true_iff in Hok as [Hh _].
    pose proof Hh as Hh'. unfold head_ok in Hh'.
    destruct (strip_prefix (of_str "class ") (of_str head)) as [r|] eqn:E;
      [|discriminate].
    pose proof (strip_prefix_some _ _ _ E) as Eh.
    unfold classify_content, logical_text.
    rewrite rev_app_distr. simpl rev at 1. cbn [app].
    assert (strip_prefix (of_str "async def ") (of_str head ++ [":"%char])
            = None) as ->
      by (rewrite Eh, <- app_assoc; apply class_not_async).
    assert (strip_prefix (of_str "def ") (of_str head ++ [":"%char]) = None)
      as -> by (rewrite Eh, <- app_assoc; apply class_not_def).
    assert (strip_prefix (of_str "class ") (of_str head ++ [":"%char])
            = Some (r ++ [":"%char])) as ->
      by (rewrite Eh, <- app_assoc; apply strip_prefix_app).
    rewrite rev_involutive, Hh. simpl. rewrite to_of_str. reflexivity.
  - simpl in Hok. rewrite !andb_true_iff in Hok.
    destruct Hok as [[[Hs _] _] _].
    pose proof Hs as Hs'. unfold simple_ok in Hs'.
    rewrite !andb_true_iff in Hs'. destruct Hs' as [[[Hk _] _] _].
    apply keyword_free_spec in Hk as (E1 & E2 & E3).
    unfold classify_content, logical_text. rewrite E1, E2, E3, Hs, to_of_str.
    reflexivity.
Qed.

Lemma no_space_not (l : chars) :
  starts_with (fun c => negb (is_space c)) l = true ->
  starts_with is_space l = false.
Proof.
  destruct l as [|c l]; simpl; [discriminate|]. apply negb_true_iff.
Qed.

(** What a rendered line starts and ends with. *)
Lemma logical_text_edges (l : logical) :
  logical_ok l = true ->
  exists c rest, logical_text l = c :: rest
    /\ is_space c = false /\ Ascii.eqb c "#" = false
    /\ ends_with is_space (logical_text l) = false
    /\ forallb plain_char (logical_text l) = true.
Proof.
  intros Hok. destruct l as [async name args|head|text].
  - simpl in Hok. rewrite !andb_true_iff in Hok. destruct Hok as [[Hn Ha] Hp].
    assert (forallb plain_char (of_str name ++ of_str args ++ [":"%char]) = true)
      as Hall.
    { rewrite !forallb_app, Hp, (ident_chars_plain _ (ident_ok_chars _ Hn)).
      reflexivity. }
    destruct async; unfold logical_text; eexists _, _;
      (split; [reflexivity|]); (split; [reflexivity|]); (split; [reflexivity|]);
      (split; [unfold ends_with; rewrite !rev_app_distr; reflexivity|]);
      rewrite forallb_app, Hall; reflexivity.
  - simpl in Hok. rewrite !andb_true_iff in Hok. destruct Hok as [Hh Hp].
    unfold head_ok in Hh.
    destruct (strip_prefix (of_str "class ") (of_str head)) as [r|] eqn:E;
      [|discriminate].
    apply strip_prefix_some in E. unfold logical_text.
    exists "c"%char, (of_str "lass " ++ r ++ [":"%char]).
    split; [rewrite E; reflexivity|]. split; [reflexivity|].
    split; [reflexivity|].
    split; [unfold ends_with; rewrite rev_app_distr; reflexivity|].
    rewrite forallb_app, Hp. reflexivity.
  - simpl in Hok. rewrite !andb_true_iff in Hok.
    destruct Hok as [[[_ Hp] Hs] He]. unfold logical_text.
    destruct (of_str text) as [|c rest] eqn:E; [discriminate|].
    exists c, rest. split; [reflexivity|].
    simpl in Hs. apply negb_true_iff in Hs. split; [exact Hs|].
    split.
    { simpl in Hp. apply andb_true_iff in Hp as [Hc _].
      destruct (Ascii.eqb c "#") eqn:Ec; [|reflexivity].
      apply Ascii.eqb_eq in Ec. subst c. discriminate. }
    split; [|exact Hp].
    unfold ends_with in *. destruct (rev (c :: rest)); [discriminate|].
    simpl in *. apply negb_true_iff, He.
Qed.

Lemma classify_blank : classify [] = Blank.
Proof. reflexivity. Qed.

Lemma classify_rendered (k : nat) (l : logical) :
  logical_ok l = true -> classify (line_text k l) = Line k l.
Proof.
  intros Hok.
  destruct (logical_text_edges l Hok) as (c & rest & E & Hsp & Hhash & Hend & Hp).
  unfold classify, line_text.
  rewrite indent_of_line by (rewrite E; exact Hsp).
  rewrite rstrip_spaces_id by exact Hend.
  rewrite Hp, classify_content_rendered by exact Hok.
  rewrite E, Hhash. reflexivity.
Qed.


(** *** Blocks *)

(** Induction on statements, with the bodies. *)
Fixpoint stmt_bodies_ind (P : stmt -> Prop)
    (Hnode : forall s, Forall P (child_nodes s) -> P s) (s : stmt) : P s :=
  Hnode s
    (match s as s0 return Forall P (child_nodes s0) with
     | FunctionDef _ _ body | AsyncFunctionDef _ _ body | Block _ body =>
         (fix go (l : list stmt) : Forall P l :=
            match l with
            | [] => @List.Forall_nil _ P
            | x :: l' => @List.Forall_cons _ P x l' (stmt_bodies_ind P Hnode x) (go l')
            end) body
     | Simple _ => @List.Forall_nil _ P
     end).

Lemma render_unfold (k : nat) (s : stmt) :
  render k s = (k, header_of s) :: flat_map (render (k + 4)) (child_nodes s).
Proof. destruct s; reflexivity. Qed.

Lemma open_block_header (s : stmt) :
  open_block (header_of s) (child_nodes s) = s.
Proof. destruct s; reflexivity. Qed.

Lemma stmt_ok_unfold (s : stmt) :
  stmt_ok s = logical_ok (header_of s)
              && (negb (opens_block (header_of s))
                  || negb (Nat.eqb (length (child_nodes s)) 0))
              && forallb stmt_ok (child_nodes s).
Proof.
  destruct s; simpl; try reflexivity.
  rewrite !andb_true_r. reflexivity.
Qed.

Lemma logical_lines_app (a b : list chars) (x y : list (nat * logical)) :
  logical_lines a = Some x -> logical_lines b = Some y ->
  logical_lines (a ++ b) = Some (x ++ y).
Proof.
  revert x. induction a as [|raw a IH]; intros x; simpl.
  - intros [= <-]. auto.
  - destruct (classify raw); [auto| |discriminate].
    destruct (logical_lines a) as [ls|]; [|discriminate].
    intros [= <-] Hb. rewrite (IH ls) by auto. reflexivity.
Qed.

Lemma unparse_stmt_unfold (k : nat) (s : stmt) :
  unparse_stmt k s =
    (if opens_block (header_of s) then [[]] else [])
    ++ line_text k (header_of s)
    :: flat_map (unparse_stmt (k + 4)) (child_nodes s).
Proof. destruct s; reflexivity. Qed.

Lemma logical_lines_unparse_stmt (s : stmt) :
  forall k, stmt_ok s = true ->
            logical_lines (unparse_stmt k s) = Some (render k s).
Proof.
  induction s as [s IH] using stmt_bodies_ind. intros k.
  rewrite stmt_ok_unfold, !andb_true_iff. intros [[Hh _] Hb].
  rewrite unparse_stmt_unfold, render_unfold.
  assert (logical_lines (flat_map (unparse_stmt (k + 4)) (child_nodes s))
          = Some (flat_map (render (k + 4)) (child_nodes s))) as Hbody.
  { induction IH as [|x l Hx _ IHl]; [reflexivity|].
    simpl in Hb. apply andb_true_iff in Hb as [Hx' Hl]. simpl.
    apply logical_lines_app; auto. }
  destruct (opens_block (header_of s)); simpl;
    rewrite classify_rendered, Hbody by exact Hh; reflexivity.
Qed.

Lemma logical_lines_unparse (tree : list stmt) (k : nat) :
  forallb stmt_ok tree = true ->
  logical_lines (flat_map (unparse_stmt k) tree)
  = Some (flat_map (render k) tree).
Proof.
  induction tree as [|s tree IH]; simpl; [reflexivity|].
  rewrite andb_true_iff. intros [Hs Ht].
  apply logical_lines_app; auto using logical_lines_unparse_stmt.
Qed.

Lemma dedent_after (k : nat) (tree : list stmt) (rest : list (nat * logical)) :
  dedent k rest -> dedent (k + 4) (flat_map (render k) tree ++ rest).
Proof.
  destruct tree as [|s tree]; simpl.
  - destruct rest as [|[i l] rest]; simpl; lia.
  - rewrite render_unfold. simpl. lia.
Qed.

Lemma block_render_sized (n : nat) :
  forall (tree : list stmt) (k fuel : nat) (rest : list (nat * logical)),
    forest_count tree <= n ->
    forallb stmt_ok tree = true ->
    dedent k rest ->
    length (flat_map (render k) tree ++ rest) < fuel ->
    block fuel k (flat_map (render k) tree ++ rest) = Some (tree, rest).
Proof.
  induction n as [|n IH]; intros tree k fuel rest Hn Hok Hd Hfuel.
  - destruct tree as [|s tree].
    + destruct fuel as [|fuel]; [lia|]. simpl.
      destruct rest as [|[i l] rest]; [reflexivity|]. simpl in Hd.
      apply Nat.ltb_lt in Hd. rewrite Hd. reflexivity.
    + rewrite forest_count_cons in Hn. lia.
  - destruct tree as [|s tree].
    + destruct fuel as [|fuel]; [lia|]. simpl.
      destruct rest as [|[i l] rest]; [reflexivity|]. simpl in Hd.
      apply Nat.ltb_lt in Hd. rewrite Hd. reflexivity.
    + rewrite forest_count_cons, forest_count_app in Hn.
      simpl in Hok. apply andb_true_iff in Hok as [Hs Ht].
      rewrite stmt_ok_unfold, !andb_true_iff in Hs.
      destruct Hs as [[_ Hne] Hb].
      destruct fuel as [|fuel]; [simpl in Hfuel; lia|].
      cbn [flat_map] in Hfuel |- *. rewrite render_unfold in *.
      rewrite <- !app_assoc in *.
      cbn [app length] in Hfuel. cbn [app block].
      rewrite Nat.ltb_irrefl.
      assert (block fuel k (flat_map (render k) tree ++ rest)
              = Some (tree, rest)) as Htail.
      { apply IH; try assumption; try lia.
        rewrite !length_app in *. lia. }
      assert (block fuel (k + 4)
                (flat_map (render (k + 4)) (child_nodes s)
                 ++ flat_map (render k) tree ++ rest)
              = Some (child_nodes s, flat_map (render k) tree ++ rest))
        as Hbody.
      { apply IH; try assumption; try lia.
        - apply dedent_after, Hd. }
      clear Hfuel IH Hn Hd Hb Ht.
      destruct s as [name args body|name args body|head body|text];
        cbn [header_of child_nodes open_block opens_block] in *.
      4: { cbn [flat_map app] in *. rewrite Htail. reflexivity. }
      all: destruct body as [|b body]; [discriminate Hne|];
        revert Hbody; cbn [flat_map]; rewrite render_unfold, <- !app_assoc;
        cbn [app]; intros Hbody;
        replace (k <? k + 4)%nat with true by (symmetry; apply Nat.ltb_lt; lia);
        rewrite Hbody, Htail; reflexivity.
Qed.

Lemma block_render (tree : list stmt) :
  forallb stmt_ok tree = true ->
  block (S (length (flat_map (render 0) tree))) 0 (flat_map (render 0) tree)
  = Some (tree, []).
Proof.
  intros Hok. rewrite <- (app_nil_r (flat_map (render 0) tree)) at 2.
  apply (block_render_sized (forest_count tree)); simpl; auto.
  rewrite app_nil_r. lia.
Qed.

(** *** The text that is written parses back *)

Lemma plain_not_newline (c : ascii) :
  plain_char c = true -> is_newline c = false.
Proof.
  intros Hp. destruct (is_newline c) eqn:E; [|reflexivity].
  apply Ascii.eqb_eq in E. subst c. discriminate.
Qed.

Lemma no_newline_line_text (k : nat) (l : logical) :
  logical_ok l = true -> no_newline (line_text k l).
Proof.
  intros Hok.
  destruct (logical_text_edges l Hok) as (_ & _ & _ & _ & _ & _ & Hp).
  unfold no_newline, line_text. rewrite forallb_app. apply andb_true_iff. split.
  - induction k; [reflexivity|exact IHk].
  - revert Hp. generalize (logical_text l). intros t.
    induction t as [|c t IH]; simpl; [reflexivity|].
    rewrite !andb_true_iff. intros [Hc Ht].
    rewrite (plain_not_newline c Hc). auto.
Qed.

Lemma no_newline_unparse_stmt (s : stmt) :
  forall k, stmt_ok s = true -> Forall no_newline (unparse_stmt k s).
Proof.
  induction s as [s IH] using stmt_bodies_ind. intros k.
  rewrite stmt_ok_unfold, !andb_true_iff. intros [[Hh _] Hb].
  rewrite unparse_stmt_unfold. apply Forall_app. split.
  - destruct (opens_block (header_of s)); repeat constructor.
  - constructor; [apply no_newline_line_text, Hh|].
    induction IH as [|x l Hx _ IHl]; [constructor|].
    simpl in Hb. apply andb_true_iff in Hb as [Hx' Hl]. simpl.
    apply Forall_app. auto.
Qed.

Lemma no_newline_unparse (tree : list stmt) (k : nat) :
  forallb stmt_ok tree = true ->
  Forall no_newline (flat_map (unparse_stmt k) tree).
Proof.
  induction tree as [|s tree IH]; simpl; [constructor|].
  rewrite andb_true_iff. intros [Hs Ht]. apply Forall_app.
  auto using no_newline_unparse_stmt.
Qed.

Lemma logical_lines_split_join (ls : list chars) :
  Forall no_newline ls ->
  logical_lines (split_lines (join_lines ls)) = logical_lines ls.
Proof.
  destruct ls as [|l ls]; [reflexivity|].
  intros Hall. rewrite split_join by assumption. reflexivity.
Qed.

Lemma logical_lines_drop_blank (ls : list chars) :
  logical_lines (drop_leading_blank ls) = logical_lines ls.
Proof. destruct ls as [|[|c l] ls]; reflexivity. Qed.

Lemma logical_lines_snoc_blank (ls : list chars) :
  logical_lines (ls ++ [[]]) = logical_lines ls.
Proof.
  induction ls as [|raw ls IH]; simpl; [reflexivity|].
  destruct (classify raw); rewrite ?IH; reflexivity.
Qed.

Lemma no_newline_drop_blank (ls : list chars) :
  Forall no_newline ls -> Forall no_newline (drop_leading_blank ls).
Proof.
  destruct ls as [|[|c l] ls]; simpl; auto. intros Hall.
  inversion Hall; assumption.
Qed.

Lemma parse_lines (s : string) (tree : list stmt) :
  forallb stmt_ok tree = true ->
  logical_lines (split_lines (of_str s)) = Some (flat_map (render 0) tree) ->
  parse s = Some tree.
Proof.
  intros Hok Hl. unfold parse, parse_chars.
  rewrite Hl, block_render by assumption.
  reflexivity.
Qed.

Theorem minipy_parse_unparse (tree : list stmt) :
  forallb stmt_ok tree = true -> parse (unparse tree) = Some tree.
Proof.
  intros Hok. apply parse_lines; [assumption|].
  unfold unparse. rewrite of_to_str, logical_lines_split_join,
    logical_lines_drop_blank.
  - apply logical_lines_unparse, Hok.
  - apply no_newline_drop_blank, no_newline_unparse, Hok.
Qed.

Theorem minipy_parse_written (tree : list stmt) :
  forallb stmt_ok tree = true ->
  parse (final_newline (unparse tree)) = Some tree.
Proof.
  intros Hok. unfold final_newline.
  destruct (endswith_newline (unparse tree));
    [apply minipy_parse_unparse, Hok|].
  apply parse_lines; [assumption|].
  unfold unparse.
  change newline with (to_str ["010"%char]).
  rewrite <- to_str_app, of_to_str, split_lines_snoc_newline,
    logical_lines_snoc_blank, logical_lines_split_join,
    logical_lines_drop_blank.
  - apply logical_lines_unparse, Hok.
  - apply no_newline_drop_blank, no_newline_unparse, Hok.
Qed.

(** *** What parses is well formed *)

Lemma def_header_ok (async : bool) (rest : chars) (l : logical) :
  forallb plain_char rest = true ->
  def_header async rest = Some l -> logical_ok l = true.
Proof.
  intros Hp. unfold def_header.
  destruct (span_spec ident_char rest) as (E & _ & _).
  destruct (span ident_char rest) as [nm tail]. simpl in E.
  destruct (rev tail) as [|c ra] eqn:Er; [discriminate|].
  destruct (Ascii.eqb c ":" && ident_ok nm && args_ok (rev ra)) eqn:Hc;
    [|discriminate].
  intros [= <-]. rewrite !andb_true_iff in Hc. destruct Hc as [[_ Hn] Ha].
  simpl. rewrite !of_to_str, Hn, Ha. simpl.
  assert (tail = rev ra ++ [c]) as Et.
  { rewrite <- (rev_involutive tail), Er. reflexivity. }
  rewrite E, Et, !forallb_app, !andb_true_iff in Hp. tauto.
Qed.

Lemma classify_content_ok (content : chars) (l : logical) :
  forallb plain_char content = true ->
  starts_with (fun c => negb (is_space c)) content = true ->
  ends_with (fun c => negb (is_space c)) content = true ->
  classify_content content = Some l -> logical_ok l = true.
Proof.
  intros Hp Hs He. unfold classify_content.
  destruct (strip_prefix (of_str "async def ") content) as [rest|] eqn:E1.
  { apply strip_prefix_some in E1. rewrite E1, forallb_app in Hp.
    apply andb_true_iff in Hp as [_ Hp]. apply def_header_ok, Hp. }
  destruct (strip_prefix (of_str "def ") content) as [rest|] eqn:E2.
  { apply strip_prefix_some in E2. rewrite E2, forallb_app in Hp.
    apply andb_true_iff in Hp as [_ Hp]. apply def_header_ok, Hp. }
  destruct (strip_prefix (of_str "class ") content) as [rest|] eqn:E3.
  - destruct (rev content) as [|c rh] eqn:Er; [discriminate|].
    destruct (Ascii.eqb c ":" && head_ok (rev rh)) eqn:Hc; [|discriminate].
    intros [= <-]. apply andb_true_iff in Hc as [_ Hh].
    simpl. rewrite of_to_str, Hh. simpl.
    assert (content = rev rh ++ [c]) as Ec.
    { rewrite <- (rev_involutive content), Er. reflexivity. }
    rewrite Ec, forallb_app, andb_true_iff in Hp. tauto.
  - destruct (simple_ok content) eqn:Hok; [|discriminate].
    intros [= <-]. simpl. rewrite of_to_str, Hok, Hp, Hs, He. reflexivity.
Qed.

Lemma ends_with_no_space (l : chars) :
  l <> [] -> ends_with is_space l = false ->
  ends_with (fun c => negb (is_space c)) l = true.
Proof.
  unfold ends_with. intros Hne.
  destruct (rev l) as [|c r] eqn:E; simpl.
  - exfalso. apply Hne. rewrite <- (rev_involutive l), E. reflexivity.
  - intros ->. reflexivity.
Qed.

Lemma classify_ok (raw : chars) (i : nat) (l : logical) :
  classify raw = Line i l -> logical_ok l = true.
Proof.
  unfold classify.
  destruct (indent_of_spec raw) as [_ Hs].
  destruct (indent_of raw) as [n rest]. simpl in Hs.
  destruct (rstrip_spaces_spec rest) as (m & Er & He).
  destruct (rstrip_spaces rest) as [|c content] eqn:Ec; [discriminate|].
  destruct (Ascii.eqb c "#"); [discriminate|].
  destruct (forallb plain_char (c :: content)) eqn:Hp; [|discriminate].
  destruct (classify_content (c :: content)) as [l'|] eqn:Hl; [|discriminate].
  intros [= <- <-]. eapply classify_content_ok; [exact Hp| | |exact Hl].
  - rewrite Er in Hs. simpl in *. rewrite Hs. reflexivity.
  - apply ends_with_no_space; [discriminate|exact He].
Qed.

Lemma logical_lines_ok (raws : list chars) :
  forall ls, logical_lines raws = Some ls -> lines_ok ls.
Proof.
  induction raws as [|raw raws IH]; simpl; intros ls.
  - intros [= <-]. constructor.
  - destruct (classify raw) as [|i l|] eqn:E; [apply IH| |discriminate].
    destruct (logical_lines raws) as [ls'|]; [|discriminate].
    intros [= <-]. constructor; [exact (classify_ok _ _ _ E)|].
    apply IH. reflexivity.
Qed.

Lemma block_head_nonempty (fuel k : nat) (l : logical)
    (rest r : list (nat * logical)) (ts : list stmt) :
  block fuel k ((k, l) :: rest) = Some (ts, r) -> ts <> [].
Proof.
  destruct fuel as [|fuel]; simpl; [discriminate|].
  rewrite Nat.ltb_irrefl.
  destruct l.
  3: { destruct (block fuel k rest) as [[ss r']|]; [|discriminate].
       intros [= <- <-]. discriminate. }
  all: destruct rest as [|[j l2] rest]; [discriminate|];
    destruct (k <? j)%nat; [|discriminate];
    destruct (block fuel j _) as [[body r1]|]; [|discriminate];
    destruct (block fuel k r1) as [[ss r2]|]; [|discriminate];
    intros [= <- <-]; discriminate.
Qed.

Lemma length_nonzero {A} (l : list A) :
  l <> [] -> negb (Nat.eqb (length l) 0) = true.
Proof. destruct l; [congruence|reflexivity]. Qed.

Lemma block_ok (fuel : nat) :
  forall k ls ts r,
    lines_ok ls -> block fuel k ls = Some (ts, r) ->
    forallb stmt_ok ts = true /\ lines_ok r.
Proof.
  induction fuel as [|fuel IH]; intros k ls ts r Hok; simpl; [discriminate|].
  destruct ls as [|[i l] rest]; [intros [= <- <-]; split; [reflexivity|constructor]|].
  destruct (i <? k)%nat; [intros [= <- <-]; auto|].
  destruct (k <? i)%nat; [discriminate|].
  inversion Hok as [|? ? Hl Hrest]; subst. simpl in Hl.
  destruct l as [async name args|head|text].
  3: { destruct (block fuel k rest) as [[ss r']|] eqn:E; [|discriminate].
       intros [= <- <-]. destruct (IH _ _ _ _ Hrest E) as [Hss Hr].
       split; [|exact Hr]. simpl. simpl in Hl. rewrite Hl, Hss. reflexivity. }
  all: destruct rest as [|[j l2] rest']; [discriminate|];
    destruct (i <? j)%nat; [|discriminate];
    destruct (block fuel j _) as [[body r1]|] eqn:E1; [|discriminate];
    destruct (block fuel k r1) as [[ss r2]|] eqn:E2; [|discriminate];
    intros [= <- <-];
    destruct (IH _ _ _ _ Hrest E1) as [Hbody Hr1];
    destruct (IH _ _ _ _ Hr1 E2) as [Hss Hr2];
    split; [|exact Hr2];
    pose proof (length_nonzero _ (block_head_nonempty _ _ _ _ _ _ E1)) as Hne;
    try destruct async; simpl in *; rewrite Hl, Hne, Hbody, Hss; reflexivity.
Qed.

Theorem minipy_parse_ok (s : string) (tree : list stmt) :
  parse s = Some tree -> forallb stmt_ok tree = true.
Proof.
  unfold parse, parse_chars.
  destruct (logical_lines (split_lines (of_str s))) as [ls|] eqn:El;
    [|discriminate].
  destruct (block (S (length ls)) 0 ls) as [[ts [|x r]]|] eqn:Eb;
    try discriminate.
  intros [= <-]. eapply block_ok; [|exact Eb].
  eapply logical_lines_ok, El.
Qed.

(** *** Surrounding whitespace *)

Lemma whitespace_cases (c : ascii) :
  whitespace c = true ->
  is_newline c = true \/ is_space c = true
  \/ (plain_char c = false /\ Ascii.eqb c "#" = false
      /\ is_space c = false /\ is_newline c = false).
Proof.
  destruct c as [[] [] [] [] [] [] [] []]; vm_compute; intros Hw;
    try discriminate Hw; auto 10.
Qed.

Lemma classify_indent (raw : chars) :
  classify (" "%char :: raw)
  = match classify raw with
    | Line i l => Line (S i) l
    | other => other
    end.
Proof.
  unfold classify. simpl. destruct (indent_of raw) as [n rest].
  destruct (rstrip_spaces rest) as [|c content]; [reflexivity|].
  destruct (Ascii.eqb c "#"); [reflexivity|].
  destruct (forallb plain_char (c :: content)); [|reflexivity].
  destruct (classify_content (c :: content)); reflexivity.
Qed.

Lemma rstrip_nonempty (c : ascii) (l : chars) :
  is_space c = false -> exists content, rstrip_spaces (c :: l) = c :: content.
Proof.
  intros Hc. destruct (rstrip_spaces_spec (c :: l)) as (m & E & _).
  destruct (rstrip_spaces (c :: l)) as [|c' content].
  - exfalso. simpl in E. destruct m; [discriminate|].
    injection E as -> _. discriminate.
  - injection E as -> _. eauto.
Qed.

Lemma classify_control (c : ascii) (l : chars) :
  plain_char c = false -> Ascii.eqb c "#" = false -> is_space c = false ->
  classify (c :: l) = Bad.
Proof.
  intros Hp Hh Hs. unfold classify. simpl. rewrite Hs.
  destruct (rstrip_nonempty c l Hs) as [content ->].
  rewrite Hh. simpl. rewrite Hp. reflexivity.
Qed.

Lemma lstrip_step (c : ascii) (x : chars) (tree : module) :
  whitespace c = true ->
  parse_chars (c :: x) = Some tree -> parse_chars x = Some tree.
Proof.
  intros Hw. unfold parse_chars. simpl.
  destruct (whitespace_cases c Hw) as [Hn|[Hs|(Hp & Hh & Hs & Hn)]].
  - rewrite Hn. simpl. auto.
  - assert (is_newline c = false) as ->.
    { apply Ascii.eqb_eq in Hs. subst c. reflexivity. }
    apply Ascii.eqb_eq in Hs. subst c.
    destruct (split_lines_cons x) as (l & ls & ->). simpl.
    rewrite classify_indent.
    destruct (classify l) as [|i lg|]; [auto| |discriminate].
    destruct (logical_lines ls) as [ls'|]; [|discriminate].
    simpl. discriminate.
  - rewrite Hn. destruct (split_lines_cons x) as (l & ls & ->). simpl.
    rewrite classify_control by assumption. discriminate.
Qed.

Lemma parse_chars_lstrip (x : chars) (tree : module) :
  parse_chars x = Some tree -> parse_chars (lstrip x) = Some tree.
Proof.
  induction x as [|c x IH]; simpl; [auto|].
  destruct (whitespace c) eqn:Hw; [|auto].
  intros Hp. apply IH. eapply lstrip_step; eassumption.
Qed.

Lemma indent_of_snoc (l : chars) (c : ascii) :
  indent_of (l ++ [c])
  = match snd (indent_of l) with
    | [] => if is_space c then (S (fst (indent_of l)), [])
            else (fst (indent_of l), [c])
    | rest => (fst (indent_of l), rest ++ [c])
    end.
Proof.
  induction l as [|a l IH]; simpl.
  - destruct (is_space c); reflexivity.
  - destruct (is_space a) eqn:Ha; [|reflexivity].
    rewrite IH. destruct (indent_of l) as [n rest]. simpl.
    destruct rest; [destruct (is_space c)|]; reflexivity.
Qed.

Lemma rstrip_spaces_snoc_space (l : chars) :
  rstrip_spaces (l ++ [" "%char]) = rstrip_spaces l.
Proof.
  unfold rstrip_spaces. rewrite rev_app_distr. simpl.
  destruct (indent_of (rev l)). reflexivity.
Qed.

Lemma classify_snoc_space (l : chars) :
  classify (l ++ [" "%char]) = classify l.
Proof.
  unfold classify. rewrite indent_of_snoc.
  destruct (indent_of l) as [n rest]. simpl.
  destruct rest as [|a rest]; [reflexivity|].
  change (a :: rest ++ [" "%char]) with ((a :: rest) ++ [" "%char]).
  rewrite rstrip_spaces_snoc_space. reflexivity.
Qed.

Lemma classify_snoc_control (l : chars) (c : ascii) :
  plain_char c = false -> Ascii.eqb c "#" = false -> is_space c = false ->
  classify (l ++ [c]) = Bad \/ classify (l ++ [c]) = classify l.
Proof.
  intros Hp Hh Hs. unfold classify. rewrite indent_of_snoc, Hs.
  destruct (indent_of_spec l) as [_ Hrest].
  destruct (indent_of l) as [n rest]. simpl in *.
  destruct rest as [|a rest].
  - left. unfold rstrip_spaces. simpl. rewrite Hs. simpl. rewrite Hh.
    simpl. rewrite Hp. reflexivity.
  - simpl in Hrest.
    change (a :: rest ++ [c]) with ((a :: rest) ++ [c]).
    rewrite (rstrip_spaces_id ((a :: rest) ++ [c]))
      by (unfold ends_with; rewrite rev_app_distr; exact Hs).
    destruct (rstrip_nonempty a rest Hrest) as [content ->]. simpl.
    destruct (Ascii.eqb a "#"); [right; reflexivity|].
    left. rewrite forallb_app. simpl. rewrite Hp.
    rewrite !andb_false_r. destruct (plain_char a); reflexivity.
Qed.

Lemma logical_lines_last (ls : list chars) (a b : chars) :
  classify a = Bad \/ classify a = classify b ->
  forall lg, logical_lines (ls ++ [a]) = Some lg ->
             logical_lines (ls ++ [b]) = Some lg.
Proof.
  intros Hab. induction ls as [|raw ls IH]; simpl; intros lg.
  - destruct Hab as [->| <-]; [discriminate|auto].
  - destruct (classify raw); [apply IH| |discriminate].
    destruct (logical_lines (ls ++ [a])) as [la|]; [|discriminate].
    rewrite (IH la eq_refl). auto.
Qed.

Lemma rstrip_step (c : ascii) (x : chars) (tree : module) :
  whitespace c = true ->
  parse_chars (x ++ [c]) = Some tree -> parse_chars x = Some tree.
Proof.
  intros Hw. unfold parse_chars.
  destruct (whitespace_cases c Hw) as [Hn|[Hs|(Hp & Hh & Hs & Hn)]].
  - apply Ascii.eqb_eq in Hn. subst c.
    rewrite split_lines_snoc_newline, logical_lines_snoc_blank. auto.
  - apply Ascii.eqb_eq in Hs. subst c.
    destruct (split_lines_snoc x " "%char eq_refl) as (ls & l & -> & ->).
    destruct (logical_lines (ls ++ [l ++ [" "%char]])) as [lg|] eqn:E;
      [|discriminate].
    rewrite (logical_lines_last _ _ l (or_intror (classify_snoc_space l)) _ E).
    auto.
  - destruct (split_lines_snoc x c Hn) as (ls & l & -> & ->).
    destruct (logical_lines (ls ++ [l ++ [c]])) as [lg|] eqn:E;
      [|discriminate].
    rewrite (logical_lines_last _ _ l
               (classify_snoc_control l c Hp Hh Hs) _ E).
    auto.
Qed.

Lemma parse_chars_rstrip (x : chars) (tree : module) :
  parse_chars x = Some tree -> parse_chars (rstrip x) = Some tree.
Proof.
  unfold rstrip. rewrite <- (rev_involutive x) at 1.
  generalize (rev x). intros r. induction r as [|c r IH]; simpl; [auto|].
  destruct (whitespace c) eqn:Hw; [|auto].
  intros Hp. apply IH. eapply rstrip_step; eassumption.
Qed.

Theorem minipy_parse_strip (s : string) (tree : module) :
  parse s = Some tree -> parse (strip s) = Some tree.
Proof.
  intros Hp. unfold strip, parse. rewrite of_to_str. apply parse_chars_rstrip, parse_chars_lstrip. exact Hp.
Qed.

End MiniPyLaws.

(** ** The instance *)

(** On MiniPy the parser returns well-formed statements only, and the
    file the store writes for a tree of well-formed statements parses
    back to that tree: there the condition that a written file parses
    back, which several properties below carry, always holds. *)
Lemma minipy_read_ok (fs : files) (tree : module) :
  read_global_tools_ast (H := minipy) fs = (Ok tree, fs) ->
  forallb MiniPy.stmt_ok tree = true.
Proof.
  intros Hr. apply read_ok_iff in Hr as (src & _ & Hp). simpl in Hp.
  destruct (MiniPy.parse src) as [tree'|] eqn:E; [|discriminate].
  injection Hp as <-. eapply MiniPyLaws.minipy_parse_ok, E.
Qed.

Lemma minipy_written_read (tree : module) (fs : files) :
  forallb MiniPy.stmt_ok tree = true ->
  written (H := minipy) tree fs ->
  read_global_tools_ast (H := minipy) fs = (Ok tree, fs).
Proof.
  intros Hok (text & Hu & ->). injection Hu as <-.
  apply read_ok_iff. eexists. split; [reflexivity|]. simpl.
  rewrite (MiniPyLaws.minipy_parse_written tree Hok). reflexivity.
Qed.

(** ** What the store guarantees *)

Section Claims.
Context `{PyAst}.

Lemma create_ok_inv (tool_func r : ToolFunction) (fs fs' : files)
    (tree : module) :
  read_global_tools_ast fs = (Ok tree, fs) ->
  create_tool_function tool_func fs = (Ok r, fs') ->
  exists node rest,
    find_function_node tree (name tool_func) = None
    /\ ast_parse (str_strip (code tool_func)) = inl (node :: rest)
    /\ is_function_named (name tool_func) node = true
    /\ r = tool_func /\ written (tree ++ [node]) fs'.
Proof.
  intros Hr. rewrite (create_tool_function_unfold _ _ _ Hr).
  destruct (find_function_node tree (name tool_func)); [discriminate|].
  destruct (validated (code tool_func) (name tool_func)) as [node|e] eqn:Hv;
    [|discriminate].
  destruct (ast_unparse (tree ++ [node])) as [text|] eqn:Hu; [|discriminate].
  intros [= <- <-].
  apply validated_ok_iff in Hv as (rest & Hparse & Hn).
  exists node, rest. repeat (split; [(assumption || reflexivity)|]).
  exists text. auto.
Qed.

Lemma update_ok_inv (function_name : string) (tool_func r : ToolFunction)
    (fs fs' : files) (tree : module) :
  read_global_tools_ast fs = (Ok tree, fs) ->
  update_tool_function function_name tool_func fs = (Ok r, fs') ->
  exists node rest before old after,
    name tool_func = function_name
    /\ ast_parse (str_strip (code tool_func)) = inl (node :: rest)
    /\ is_function_named function_name node = true
    /\ tree = before ++ old :: after
    /\ is_function_named function_name old = true
    /\ (function_name ∉ function_names before)
    /\ r = tool_func /\ written (before ++ node :: after) fs'.
Proof.
  intros Hr Hu.
  assert (name tool_func = function_name) as Hname.
  { unfold update_tool_function in Hu.
    destruct (function_name =? name tool_func)%string eqn:E.
    - symmetry. apply String.eqb_eq, E.
    - discriminate. }
  rewrite (update_tool_function_unfold _ _ _ _ Hr Hname) in Hu.
  destruct (find_function_node tree function_name); [|discriminate].
  destruct (validated (code tool_func) function_name) as [node|e] eqn:Hv;
    [|discriminate].
  destruct (list_find _ tree) as [[i old]|] eqn:Hfind; [|discriminate].
  destruct (ast_unparse (<[i := node]> tree)) as [text|] eqn:Hw;
    [|discriminate].
  injection Hu as <- <-.
  apply validated_ok_iff in Hv as (rest & Hparse & Hn).
  pose proof (first_named_split _ _ _ _ Hfind) as (Etree & Hold & Hbefore).
  apply list_find_Some in Hfind as (Hi & _ & _).
  exists node, rest, (take i tree), old, (drop (S i) tree).
  repeat (split; [(assumption || reflexivity)|]).
  exists text. split; [|reflexivity].
  rewrite <- Hw. f_equal. symmetry. apply insert_take_drop.
  eapply lookup_lt_Some, Hi.
Qed.

Lemma delete_ok_inv (function_name : string) (r : unit) (fs fs' : files)
    (tree : module) :
  read_global_tools_ast fs = (Ok tree, fs) ->
  delete_tool_function function_name fs = (Ok r, fs') ->
  function_name ∈ function_names tree
  /\ written (List.filter
                (fun node => negb (is_function_named function_name node))
                tree) fs'.
Proof.
  intros Hr. rewrite (delete_tool_function_unfold _ _ _ Hr). simpl.
  destruct (_ =? _)%nat eqn:E; [discriminate|].
  destruct (ast_unparse _) as [text|] eqn:Hw; [|discriminate].
  intros [= _ <-]. split; [|exists text; auto]. apply Nat.eqb_neq in E.
  destruct (decide (function_name ∈ function_names tree)) as [Hin|Hout];
    [assumption|].
  exfalso. apply E, delete_length_eq_iff, Hout.
Qed.

Lemma not_top_level (tree : module) (n : string) :
  find_function_node tree n = None -> n ∉ function_names tree.
Proof.
  intros Hnone Hin. apply find_function_node_none in Hnone.
  apply Hnone, top_level_names_walk, Hin.
Qed.

(** What does hold of create and read: when the written file parses back
    to the tree it was rendered from, read returns what [ast.unparse]
    makes of the declaration parsed from the submission. *)
Lemma create_then_get (fs fs' : files) (tree : module)
    (tool_func r : ToolFunction) (node : stmt) :
  read_global_tools_ast fs = (Ok tree, fs) ->
  create_tool_function tool_func fs = (Ok r, fs') ->
  validated (code tool_func) (name tool_func) = Ok node ->
  read_global_tools_ast fs' = (Ok (tree ++ [node]), fs') ->
  get_tool_function (name tool_func) fs'
  = match ast_unparse [node] with
    | Some text => (Ok {| name := name tool_func; code := text |}, fs')
    | None => (Raise Unhandled, fs')
    end.
Proof.
  intros Hr Hc Hv Hr'.
  destruct (create_ok_inv _ _ _ _ _ Hr Hc) as (_ & _ & Hnone & _).
  apply validated_ok_iff in Hv as (rest & _ & Hn).
  rewrite (get_tool_function_unfold _ _ _ Hr').
  rewrite find_first_top_level; auto using not_top_level.
Qed.

Lemma function_names_single (n : string) (node : stmt) :
  is_function_named n node = true -> function_names [node] = [n].
Proof.
  intros Hn. apply is_function_named_spec in Hn as [Hf <-].
  unfold function_names. simpl. rewrite Hf. reflexivity.
Qed.


(** Statements that are not function definitions. *)
Lemma other_statements_app (a b : list stmt) :
  other_statements (a ++ b) = other_statements a ++ other_statements b.
Proof. apply List.filter_app. Qed.

Lemma other_statements_function (n : string) (node : stmt) :
  is_function_named n node = true -> other_statements [node] = [].
Proof.
  intros Hn. apply is_function_named_spec in Hn as [Hf _].
  unfold other_statements. simpl. rewrite Hf. reflexivity.
Qed.

Lemma other_statements_delete (n : string) (tree : module) :
  other_statements
    (List.filter (fun node => negb (is_function_named n node)) tree)
  = other_statements tree.
Proof.
  unfold other_statements, is_function_named.
  induction tree as [|x tree IH]; simpl; [reflexivity|].
  destruct (is_function_def x) eqn:Ef; simpl.
  - destruct (node_name x =? n)%string; simpl; rewrite ?Ef; simpl; exact IH.
  - rewrite Ef. simpl. rewrite IH. reflexivity.
Qed.

Lemma preamble_append (tree : module) (n : string) (node : stmt) :
  is_function_named n node = true ->
  preamble (tree ++ [node]) = preamble tree.
Proof.
  intros Hn. apply is_function_named_spec in Hn as [Hf _].
  induction tree as [|x tree IH]; simpl; [rewrite Hf; reflexivity|].
  destruct (is_function_def x); [reflexivity|]. rewrite IH. reflexivity.
Qed.

Lemma preamble_replace (n : string) (before after : list stmt)
    (old node : stmt) :
  is_function_named n old = true -> is_function_named n node = true ->
  preamble (before ++ node :: after) = preamble (before ++ old :: after).
Proof.
  intros Ho Hn. apply is_function_named_spec in Ho as [Ho _].
  apply is_function_named_spec in Hn as [Hn _].
  induction before as [|x before IH]; simpl; [rewrite Ho, Hn; reflexivity|].
  destruct (is_function_def x); [reflexivity|]. rewrite IH. reflexivity.
Qed.

Lemma preamble_delete (n : string) (tree : module) :
  preamble tree `prefix_of`
  preamble (List.filter (fun node => negb (is_function_named n node)) tree).
Proof.
  unfold is_function_named.
  induction tree as [|x tree IH]; simpl; [reflexivity|].
  destruct (is_function_def x) eqn:Ef; simpl; [apply prefix_nil|].
  rewrite Ef. apply prefix_cons, IH.
Qed.

(** C9, as amended: the file that a successful create, update or delete
    leaves is the rendering by [ast.unparse] of a tree that has the
    top-level statements that are not function declarations (the imports
    of the preamble among them) of the tree that was read, unchanged and
    in their order, with the statements before the first function
    declaration still at the front.  The text is rendered anew: comments
    and layout are not carried over, and what the rendering parses to is
    up to the library. *)
Theorem other_statements_kept (fs : files) (tree : module) :
  read_global_tools_ast fs = (Ok tree, fs) ->
  forall fs',
    (exists tool_func r,
        create_tool_function tool_func fs = (Ok r, fs'))
    \/ (exists function_name tool_func r,
           update_tool_function function_name tool_func fs = (Ok r, fs'))
    \/ (exists function_name r,
           delete_tool_function function_name fs = (Ok r, fs')) ->
    exists tree',
      written tree' fs'
      /\ other_statements tree' = other_statements tree
      /\ preamble tree `prefix_of` preamble tree'.
Proof.
  intros Hr fs' Hop.
  destruct Hop as [(tool_func & r & Hc)|[(fn & tool_func & r & Hu)|(fn & r & Hd)]].
  - destruct (create_ok_inv _ _ _ _ _ Hr Hc)
      as (node & rest & _ & _ & Hn & _ & Hw).
    exists (tree ++ [node]). split; [exact Hw|]. split.
    + rewrite other_statements_app, (other_statements_function _ _ Hn).
      apply app_nil_r.
    + rewrite (preamble_append _ _ _ Hn). reflexivity.
  - destruct (update_ok_inv _ _ _ _ _ _ Hr Hu)
      as (node & rest & before & old & after
          & _ & _ & Hn & -> & Hold & _ & _ & Hw).
    exists (before ++ node :: after). split; [exact Hw|]. split.
    + rewrite !other_statements_app.
      change (?x :: after) with ([x] ++ after).
      rewrite !other_statements_app,
        (other_statements_function _ _ Hn),
        (other_statements_function _ _ Hold).
      reflexivity.
    + rewrite (preamble_replace _ _ _ _ _ Hold Hn). reflexivity.
  - destruct (delete_ok_inv _ _ _ _ _ Hr Hd) as (_ & Hw).
    eexists. split; [exact Hw|]. split.
    + apply other_statements_delete.
    + apply preamble_delete.
Qed.

(** The ways the validation of the submitted code fails. *)
Lemma validated_invalid_iff (code target : string) :
  validated code target = Raise InvalidDefinition <-> no_leading_function code.
Proof.
  unfold validated, parse_new_function, no_leading_function.
  destruct (ast_parse (str_strip code)) as [[|node rest]|[]]; simpl;
    try (split; [constructor|reflexivity]).
  - destruct (is_function_def node); simpl.
    + destruct (node_name node =? target)%string; simpl;
        split; discriminate.
    + split; reflexivity.
  - split; [discriminate|contradiction].
Qed.

Lemma validated_mismatch_iff (code target : string) :
  validated code target = Raise NameMismatch
  <-> leading_function_misnamed code target.
Proof.
  unfold validated, parse_new_function, leading_function_misnamed.
  destruct (ast_parse (str_strip code)) as [[|node rest]|[]]; simpl;
    try (split; [discriminate|intros (? & ? & [=] & _)]).
  destruct (is_function_def node) eqn:Ef; simpl.
  - destruct (node_name node =? target)%string eqn:En; simpl.
    + split; [discriminate|].
      intros (node' & rest' & [= <- <-] & _ & Hne).
      apply String.eqb_eq in En. contradiction.
    + split; [|reflexivity]. intros _. exists node, rest.
      apply String.eqb_neq in En. auto.
  - split; [discriminate|].
    intros (node' & rest' & [= <- <-] & Hf & _). congruence.
Qed.

Lemma validated_fails_iff (code target : string) :
  validated code target = Raise Unhandled <-> parser_fails code.
Proof.
  unfold validated, parse_new_function, parser_fails.
  destruct (ast_parse (str_strip code)) as [[|node rest]|[]]; simpl;
    try (split; discriminate); [|split; reflexivity].
  destruct (is_function_def node); simpl; [|split; discriminate].
  destruct (node_name node =? target)%string; simpl; split; discriminate.
Qed.

Lemma wrapped_validation (failed e e' : HTTPException) :
  e = InvalidDefinition \/ e = NameMismatch ->
  e' = InvalidDefinition \/ e' = NameMismatch \/ e' = Unhandled ->
  failed <> e ->
  wrapped failed e' = e <-> e' = e.
Proof.
  intros He He' Hf.
  destruct He' as [-> | [-> | ->]]; simpl; try reflexivity.
  split; [contradiction|]. destruct He as [-> | ->]; discriminate.
Qed.

(** When create and update raise an error of the validation. *)
Lemma create_raises_validation (n code : string) (fs fs' : files)
    (names : list string) (e : HTTPException) :
  list_tool_functions fs = (Ok names, fs) ->
  e = InvalidDefinition \/ e = NameMismatch ->
  create_tool_function {| name := n; code := code |} fs = (Raise e, fs')
  <-> fs' = fs /\ (n ∉ names) /\ validated code n = Raise e.
Proof.
  intros Hl He. apply list_tool_functions_inv in Hl as (tree & Hr & -> & _).
  rewrite (create_tool_function_unfold _ _ _ Hr). simpl.
  rewrite <- find_function_node_none.
  destruct (find_function_node tree n) as [found|].
  - split; [destruct He as [-> | ->]; discriminate|].
    intros (_ & [=] & _).
  - destruct (validated code n) as [node|e'] eqn:Hv.
    + split; [|intros (_ & _ & [=])].
      destruct (ast_unparse (tree ++ [node]));
        destruct He as [-> | ->]; discriminate.
    + pose proof (wrapped_validation AddFailed e e' He
                    (validated_raises _ _ _ Hv)) as Hw.
      split.
      * intros [= Hwe ->]. apply Hw in Hwe; [subst; auto|].
        destruct He as [-> | ->]; discriminate.
      * intros (-> & _ & [= ->]). f_equal. f_equal. apply Hw; [|reflexivity].
        destruct He as [-> | ->]; discriminate.
Qed.

Lemma update_raises_validation (n code : string) (fs fs' : files)
    (names : list string) (e : HTTPException) :
  list_tool_functions fs = (Ok names, fs) ->
  e = InvalidDefinition \/ e = NameMismatch ->
  update_tool_function n {| name := n; code := code |} fs = (Raise e, fs')
  <-> fs' = fs /\ (n ∈ names) /\ validated code n = Raise e.
Proof.
  intros Hl He. apply list_tool_functions_inv in Hl as (tree & Hr & -> & _).
  rewrite (update_tool_function_unfold n {| name := n; code := code |}
             fs tree Hr eq_refl). simpl.
  pose proof (find_function_node_none tree n) as Hnone.
  destruct (find_function_node tree n) as [found|].
  - assert (n ∈ function_names (walk tree)) as Hin.
    { destruct (decide (n ∈ function_names (walk tree))) as [Hin|Hout];
        [assumption|]. apply Hnone in Hout. discriminate. }
    destruct (validated code n) as [node|e'] eqn:Hv.
    + split; [|intros (_ & _ & [=])].
      destruct (list_find _ tree) as [[i old]|];
        [destruct (ast_unparse (<[i := node]> tree))|];
        destruct He as [-> | ->]; discriminate.
    + pose proof (wrapped_validation UpdateFailed e e' He
                    (validated_raises _ _ _ Hv)) as Hw.
      split.
      * intros [= Hwe ->]. apply Hw in Hwe; [subst; auto|].
        destruct He as [-> | ->]; discriminate.
      * intros (-> & _ & [= ->]). f_equal. f_equal. apply Hw; [|reflexivity].
        destruct He as [-> | ->]; discriminate.
  - split; [destruct He as [-> | ->]; discriminate|].
    intros (_ & Hin & _). exfalso. apply (proj1 Hnone); [reflexivity|exact Hin].
Qed.

(** C3, as amended: code on which, after strip(), the parser raises a
    SyntaxError or a ValueError, or which parses to no statement, or
    which starts with a statement that is not a function declaration, is
    what create and update reject as InvalidDefinition: create does so
    exactly when the listing does not contain the name (AlreadyExists
    comes first), update exactly when it does (NotFound comes first), and
    the backing file is unchanged.  Code on which the parser raises any
    other exception is answered with 500 in the same places, the file
    unchanged.  Code that starts with a function declaration passes this
    check whatever follows it. *)
Theorem invalid_definition_rejected (fs fs' : files) (names : list string)
    (n code : string) :
  list_tool_functions fs = (Ok names, fs) ->
  (create_tool_function {| name := n; code := code |} fs
     = (Raise InvalidDefinition, fs')
   <-> fs' = fs /\ (n ∉ names) /\ no_leading_function code)
  /\ (update_tool_function n {| name := n; code := code |} fs
        = (Raise InvalidDefinition, fs')
      <-> fs' = fs /\ (n ∈ names) /\ no_leading_function code)
  /\ (parser_fails code ->
      ((n ∉ names) ->
       create_tool_function {| name := n; code := code |} fs
       = (Raise AddFailed, fs))
      /\ ((n ∈ names) ->
          update_tool_function n {| name := n; code := code |} fs
          = (Raise UpdateFailed, fs))).
Proof.
  intros Hl. rewrite <- (validated_invalid_iff code n).
  split; [apply (create_raises_validation _ _ _ _ _ _ Hl); auto|].
  split; [apply (update_raises_validation _ _ _ _ _ _ Hl); auto|].
  intros Hf. apply (validated_fails_iff code n) in Hf.
  apply list_tool_functions_inv in Hl as (tree & Hr & -> & _).
  pose proof (find_function_node_none tree n) as Hnone. split.
  - intros Hout. rewrite (create_tool_function_unfold _ _ _ Hr). simpl.
    rewrite (proj2 Hnone Hout), Hf. reflexivity.
  - intros Hin.
    rewrite (update_tool_function_unfold n {| name := n; code := code |}
               fs tree Hr eq_refl). simpl.
    destruct (find_function_node tree n) as [found|].
    + rewrite Hf. reflexivity.
    + exfalso. exact (proj1 Hnone eq_refl Hin).
Qed.

(** C7, as amended: code whose first parsed statement is a function
    declaration with another name than the addressed one is rejected as
    NameMismatch, by create exactly when the listing does not contain the
    addressed name (AlreadyExists comes first) and by update exactly when
    it does (NotFound comes first); the backing file is unchanged. *)
Theorem name_mismatch_rejected (fs fs' : files) (names : list string)
    (n code : string) :
  list_tool_functions fs = (Ok names, fs) ->
  (create_tool_function {| name := n; code := code |} fs
     = (Raise NameMismatch, fs')
   <-> fs' = fs /\ (n ∉ names) /\ leading_function_misnamed code n)
  /\ (update_tool_function n {| name := n; code := code |} fs
        = (Raise NameMismatch, fs')
      <-> fs' = fs /\ (n ∈ names) /\ leading_function_misnamed code n).
Proof.
  intros Hl. rewrite <- (validated_mismatch_iff code n). split.
  - apply (create_raises_validation _ _ _ _ _ _ Hl). auto.
  - apply (update_raises_validation _ _ _ _ _ _ Hl). auto.
Qed.

(** C5, as amended: update(n, D') succeeds if and only if a top-level
    declaration named n is present, the first statement D' parses to
    after strip() is a function declaration named n (statements after it
    are ignored), and [ast.unparse] renders the tree in which that
    declaration stands at the position of the first top-level declaration
    named n, every other top-level statement being where and what it
    was.  After success the file is that rendering; and when it parses
    back to the tree it was rendered from, read(n) returns what
    [ast.unparse] makes of the new declaration, or fails with status 500
    when [ast.unparse] raises on it.  Errors of the file system are left
    out. *)
Theorem update_in_place (fs : files) (tree : module) (n code : string) :
  read_global_tools_ast fs = (Ok tree, fs) ->
  ((exists r fs',
       update_tool_function n {| name := n; code := code |} fs = (Ok r, fs'))
   <-> exists node rest before old after text,
         ast_parse (str_strip code) = inl (node :: rest)
         /\ is_function_named n node = true
         /\ tree = before ++ old :: after
         /\ is_function_named n old = true
         /\ (n ∉ function_names before)
         /\ ast_unparse (before ++ node :: after) = Some text)
  /\ forall r fs',
       update_tool_function n {| name := n; code := code |} fs = (Ok r, fs') ->
       exists node rest before old after,
         ast_parse (str_strip code) = inl (node :: rest)
         /\ tree = before ++ old :: after
         /\ is_function_named n old = true
         /\ (n ∉ function_names before)
         /\ written (before ++ node :: after) fs'
         /\ (read_global_tools_ast fs' = (Ok (before ++ node :: after), fs') ->
             get_tool_function n fs'
             = match ast_unparse [node] with
               | Some text => (Ok {| name := n; code := text |}, fs')
               | None => (Raise Unhandled, fs')
               end).
Proof.
  intros Hr.
  assert (forall r fs',
    update_tool_function n {| name := n; code := code |} fs = (Ok r, fs') ->
    exists node rest before old after,
      ast_parse (str_strip code) = inl (node :: rest)
      /\ is_function_named n node = true
      /\ tree = before ++ old :: after
      /\ is_function_named n old = true
      /\ (n ∉ function_names before)
      /\ written (before ++ node :: after) fs'
      /\ (read_global_tools_ast fs' = (Ok (before ++ node :: after), fs') ->
          get_tool_function n fs'
          = match ast_unparse [node] with
            | Some text => (Ok {| name := n; code := text |}, fs')
            | None => (Raise Unhandled, fs')
            end)) as Hinv.
  { intros r fs' Hu.
    destruct (update_ok_inv _ _ _ _ _ _ Hr Hu)
      as (node & rest & before & old & after
          & _ & Hparse & Hn & -> & Hold & Hbefore & _ & Hw).
    exists node, rest, before, old, after.
    repeat (split; [(assumption || reflexivity)|]).
    intros Hr'. rewrite (get_tool_function_unfold _ _ _ Hr').
    rewrite find_first_top_level by assumption. reflexivity. }
  split.
  - split.
    + intros (r & fs' & Hu).
      destruct (Hinv _ _ Hu)
        as (node & rest & before & old & after
            & Hparse & Hn & -> & Hold & Hbefore & (text & Hw & _) & _).
      exists node, rest, before, old, after, text. auto 10.
    + intros (node & rest & before & old & after & text
              & Hparse & Hn & -> & Hold & Hbefore & Hw).
      rewrite (update_tool_function_unfold n {| name := n; code := code |}
             fs _ Hr eq_refl).
      simpl.
      rewrite (find_first_top_level _ _ _ _ Hbefore Hold).
      assert (validated code n = Ok node) as ->
        by (apply validated_ok_iff; eauto).
      assert (list_find (fun x => is_function_named n x = true)
                (before ++ old :: after) = Some (length before, old)) as ->.
      { apply list_find_Some. split; [|split].
        - rewrite lookup_app_r by lia. rewrite Nat.sub_diag. reflexivity.
        - exact Hold.
        - intros j y Hj Hlt Hy. apply Hbefore, elem_of_function_names.
          exists y. split; [|exact Hy]. rewrite lookup_app_l in Hj by lia.
          eapply list_elem_of_lookup_2, Hj. }
      match goal with
      | |- context [ast_unparse ?t] =>
          replace t with (before ++ node :: after)
      end.
      * rewrite Hw. eauto.
      * symmetry. etransitivity; [apply insert_app_r_alt; lia|].
        rewrite Nat.sub_diag. reflexivity.
  - intros r fs' Hu.
    destruct (Hinv _ _ Hu)
      as (node & rest & before & old & after & H1 & _ & H2).
    exists node, rest, before, old, after. auto.
Qed.

(** What does hold of delete: it looks at the top level only. *)
Lemma delete_top_level (fs : files) (tree : module) (n : string) :
  read_global_tools_ast fs = (Ok tree, fs) ->
  ((exists r fs', delete_tool_function n fs = (Ok r, fs'))
   <-> (n ∈ function_names tree)
       /\ is_Some (ast_unparse
                     (List.filter
                        (fun node => negb (is_function_named n node)) tree)))
  /\ forall r fs',
       delete_tool_function n fs = (Ok r, fs') ->
       exists tree',
         written tree' fs'
         /\ function_names tree'
            = List.filter (fun m => negb (String.eqb m n)) (function_names tree)
         /\ (n ∉ function_names tree').
Proof.
  intros Hr. split.
  - split.
    + intros (r & fs' & Hd).
      destruct (delete_ok_inv _ _ _ _ _ Hr Hd) as (Hin & text & Hw & _).
      split; [exact Hin|]. rewrite Hw. eauto.
    + intros [Hin [text Hw]].
      rewrite (delete_tool_function_unfold _ _ _ Hr). simpl.
      destruct (_ =? _)%nat eqn:E.
      * apply Nat.eqb_eq, delete_length_eq_iff in E. contradiction.
      * rewrite Hw. eauto.
  - intros r fs' Hd. destruct (delete_ok_inv _ _ _ _ _ Hr Hd) as (_ & Hw).
    eexists. split; [exact Hw|].
    rewrite function_names_delete. split; [reflexivity|].
    rewrite list_elem_of_In, filter_In, String.eqb_refl. intros [_ [=]].
Qed.

(** What does hold of create: AlreadyExists is raised for the names the
    listing returns, and leaves the file as it is. *)
Lemma create_already_exists (fs fs' : files) (names : list string)
    (tool_func : ToolFunction) :
  list_tool_functions fs = (Ok names, fs) ->
  create_tool_function tool_func fs = (Raise AlreadyExists, fs')
  <-> fs' = fs /\ name tool_func ∈ names.
Proof.
  intros Hl. apply list_tool_functions_inv in Hl as (tree & Hr & -> & _).
  rewrite (create_tool_function_unfold _ _ _ Hr).
  pose proof (find_function_node_none tree (name tool_func)) as Hnone.
  destruct (find_function_node tree (name tool_func)) as [found|].
  - split; [intros [= ->]|intros [-> _]; reflexivity].
    split; [reflexivity|].
    destruct (decide (name tool_func ∈ function_names (walk tree)))
      as [Hin|Hout]; [assumption|]. apply Hnone in Hout. discriminate.
  - destruct (validated (code tool_func) (name tool_func)) as [node|e] eqn:Hv.
    + split; [|intros [_ Hin]; exfalso; exact (proj1 Hnone eq_refl Hin)].
      destruct (ast_unparse (tree ++ [node])); discriminate.
    + split.
      * intros [= Hw ->].
        apply validated_raises in Hv as [-> | [-> | ->]]; discriminate.
      * intros [_ Hin]. exfalso. exact (proj1 Hnone eq_refl Hin).
Qed.

End Claims.

(** ** Runs on concrete files *)

#[local] Existing Instance minipy.

(** The scenario of the specification, step by step. *)
Example scenario_create :
  create_tool_function add_tool (Some initial_file)
  = (Ok add_tool, Some file_with_add).
Proof. vm_compute. reflexivity. Qed.

Example scenario_list :
  list_tool_functions (Some file_with_add) = (Ok ["add"], Some file_with_add).
Proof. vm_compute. reflexivity. Qed.

Example scenario_read :
  get_tool_function "add" (Some file_with_add)
  = (Ok add_tool, Some file_with_add).
Proof. vm_compute. reflexivity. Qed.

Example scenario_delete :
  delete_tool_function "add" (Some file_with_add)
  = (Ok tt, Some "import datetime
from zoneinfo import ZoneInfo
").
Proof. vm_compute. reflexivity. Qed.

(** C2: the listing walks the whole tree.  After [outer], which defines
    [inner] in its body, has been created in the initial file, the only
    top-level function declaration of the file is [outer], and the
    listing returns [outer] and [inner]. *)
Theorem list_tool_functions_lists_nested :
  create_tool_function outer_tool (Some initial_file)
    = (Ok outer_tool, Some file_with_outer)
  /\ (exists tree,
        read_global_tools_ast (Some file_with_outer)
          = (Ok tree, Some file_with_outer)
        /\ function_names tree = ["outer"])
  /\ list_tool_functions (Some file_with_outer)
       = (Ok ["outer"; "inner"], Some file_with_outer).
Proof.
  split; [vm_compute; reflexivity|]. split; [|vm_compute; reflexivity].
  eexists. split; vm_compute; reflexivity.
Qed.

(** C4: on the same file, which has no top-level declaration named
    [inner], create(inner, ..) fails with AlreadyExists (the file is
    unchanged), while delete(inner) answers NotFound and update(inner, ..)
    fails on the index of the node it was told exists. *)
Theorem create_rejects_nested_name :
  (exists tree,
     read_global_tools_ast (Some file_with_outer)
       = (Ok tree, Some file_with_outer)
     /\ "inner" ∉ function_names tree)
  /\ create_tool_function inner_tool (Some file_with_outer)
       = (Raise AlreadyExists, Some file_with_outer)
  /\ delete_tool_function "inner" (Some file_with_outer)
       = (Raise NotFound, Some file_with_outer)
  /\ update_tool_function "inner" inner_tool (Some file_with_outer)
       = (Raise NodeIndexMissing, Some file_with_outer).
Proof.
  split.
  - eexists. split; [vm_compute; reflexivity|].
    vm_compute. intros Hin. apply list_elem_of_singleton in Hin. discriminate.
  - repeat split; vm_compute; reflexivity.
Qed.

(** C6: [helper] is created, then [tool], which defines a [helper] of its
    own in its body.  delete(helper) succeeds, and afterwards the listing
    still contains [helper] and read(helper) succeeds, with the code of the
    nested function. *)
Theorem delete_leaves_nested_name :
  create_tool_function helper_tool (Some initial_file)
    = (Ok helper_tool, Some "import datetime
from zoneinfo import ZoneInfo

def helper():
    pass
")
  /\ create_tool_function tool_tool (Some "import datetime
from zoneinfo import ZoneInfo

def helper():
    pass
")
     = (Ok tool_tool, Some file_with_helper_and_tool)
  /\ delete_tool_function "helper" (Some file_with_helper_and_tool)
     = (Ok tt, Some file_with_tool)
  /\ list_tool_functions (Some file_with_tool)
     = (Ok ["tool"; "helper"], Some file_with_tool)
  /\ get_tool_function "helper" (Some file_with_tool)
     = (Ok {| name := "helper";
              code := "def helper():
    return 1" |}, Some file_with_tool).
Proof. repeat split; vm_compute; reflexivity. Qed.

(** C1: the text of [helper_tool] parses to exactly one function
    declaration, named [helper], and the file that create(tool, ..)
    leaves from the initial one has no top-level declaration of that
    name: its only one is [tool], which defines a [helper] of its own in
    its body.  Yet create(helper, ..) fails with AlreadyExists, and
    read(helper) returns the nested function, another declaration than
    the one submitted. *)
Theorem create_refuses_unstored_name :
  MiniPy.parse (code helper_tool)
    = Some [FunctionDef "helper" "()" [Simple "pass"]]
  /\ create_tool_function tool_tool (Some initial_file)
     = (Ok tool_tool, Some file_with_tool)
  /\ (exists tree,
        read_global_tools_ast (Some file_with_tool)
          = (Ok tree, Some file_with_tool)
        /\ function_names tree = ["tool"])
  /\ create_tool_function helper_tool (Some file_with_tool)
     = (Raise AlreadyExists, Some file_with_tool)
  /\ get_tool_function "helper" (Some file_with_tool)
     = (Ok {| name := "helper";
              code := "def helper():
    return 1" |}, Some file_with_tool).
Proof.
  split; [vm_compute; reflexivity|]. split; [vm_compute; reflexivity|].
  split; [eexists; split; vm_compute; reflexivity|].
  split; vm_compute; reflexivity.
Qed.

(** Against C3 as stated: a submission that parses to two function
    declarations is accepted by create when the first one carries the
    addressed name; only that one is stored. *)
Lemma two_declarations_accepted :
  MiniPy.parse two_code
    = Some [FunctionDef "f" "()" [Simple "pass"];
            FunctionDef "g" "()" [Simple "pass"]]
  /\ create_tool_function {| name := "f"; code := two_code |}
       (Some initial_file)
     = (Ok {| name := "f"; code := two_code |}, Some file_with_f)
  /\ create_tool_function {| name := "f"; code := two_code |}
       (Some initial_file)
     <> (Raise InvalidDefinition, Some initial_file).
Proof.
  split; [vm_compute; reflexivity|]. split; [vm_compute; reflexivity|].
  vm_compute. discriminate.
Qed.

(** Against C5 as stated: update succeeds on a submission that is not one
    function declaration, but a declaration and an assignment; the
    assignment is dropped. *)
Lemma update_accepts_trailing_statement :
  MiniPy.parse sub_code = Some [sub_def; Simple "x = 1"]
  /\ update_tool_function "add" {| name := "add"; code := sub_code |}
       (Some file_with_add)
     = (Ok {| name := "add"; code := sub_code |}, Some file_with_sub).
Proof. split; vm_compute; reflexivity. Qed.

(** Against C7 as stated: a submission whose declaration is named [mul]
    is answered with AlreadyExists by create(add, ..) when [add] is
    stored, and with NotFound by update(sub, ..) when [sub] is not. *)
Lemma name_mismatch_preempted :
  MiniPy.parse mul_code
    = Some [FunctionDef "mul" "(a, b)" [Simple "return a * b"]]
  /\ create_tool_function {| name := "add"; code := mul_code |}
       (Some file_with_add)
     = (Raise AlreadyExists, Some file_with_add)
  /\ update_tool_function "sub" {| name := "sub"; code := mul_code |}
       (Some file_with_add)
     = (Raise NotFound, Some file_with_add).
Proof. repeat split; vm_compute; reflexivity. Qed.

(** Against C9 as stated: the initial file is all preamble, a comment
    line and two imports.  After the first create the file no longer
    starts with that text, and the comment line is nowhere in it. *)
Lemma preamble_comment_lost :
  create_tool_function add_tool (Some initial_file)
    = (Ok add_tool, Some file_with_add)
  /\ String.prefix initial_file file_with_add = false
  /\ String.index 0 "# Global tool functions managed by the API"
       file_with_add = None.
Proof. repeat split; vm_compute; reflexivity. Qed.


Lemma other_statements_kept_witness :
  (read_global_tools_ast (Some initial_file) = (Ok imports, Some initial_file)
   /\ create_tool_function add_tool (Some initial_file)
        = (Ok add_tool, Some file_with_add))
  /\ exists tree',
       written tree' (Some file_with_add)
       /\ other_statements tree' = other_statements imports
       /\ preamble imports `prefix_of` preamble tree'.
Proof.
  split; [split; vm_compute; reflexivity|].
  apply (other_statements_kept (H := minipy) (Some initial_file) imports);
    [vm_compute; reflexivity|].
  left. exists add_tool, add_tool. vm_compute. reflexivity.
Defined.

Lemma invalid_definition_rejected_witness :
  list_tool_functions (Some file_with_add) = (Ok ["add"], Some file_with_add)
  /\ ((create_tool_function {| name := "sub"; code := "x = 1" |}
         (Some file_with_add)
       = (Raise InvalidDefinition, Some file_with_add)
       <-> Some file_with_add = Some file_with_add
           /\ ("sub" ∉ ["add"]) /\ no_leading_function "x = 1")
      /\ (update_tool_function "sub" {| name := "sub"; code := "x = 1" |}
            (Some file_with_add)
          = (Raise InvalidDefinition, Some file_with_add)
          <-> Some file_with_add = Some file_with_add
              /\ ("sub" ∈ ["add"]) /\ no_leading_function "x = 1")
      /\ (parser_fails "x = 1" ->
          (("sub" ∉ ["add"]) ->
           create_tool_function {| name := "sub"; code := "x = 1" |}
             (Some file_with_add)
           = (Raise AddFailed, Some file_with_add))
          /\ (("sub" ∈ ["add"]) ->
              update_tool_function "sub" {| name := "sub"; code := "x = 1" |}
                (Some file_with_add)
              = (Raise UpdateFailed, Some file_with_add)))).
Proof.
  split; [vm_compute; reflexivity|].
  apply (invalid_definition_rejected (H := minipy) (Some file_with_add)
           (Some file_with_add) ["add"] "sub" "x = 1").
  vm_compute. reflexivity.
Defined.

Lemma name_mismatch_rejected_witness :
  list_tool_functions (Some file_with_add) = (Ok ["add"], Some file_with_add)
  /\ ((create_tool_function {| name := "sub"; code := mul_code |}
         (Some file_with_add)
       = (Raise NameMismatch, Some file_with_add)
       <-> Some file_with_add = Some file_with_add
           /\ ("sub" ∉ ["add"]) /\ leading_function_misnamed mul_code "sub")
      /\ (update_tool_function "sub" {| name := "sub"; code := mul_code |}
            (Some file_with_add)
          = (Raise NameMismatch, Some file_with_add)
          <-> Some file_with_add = Some file_with_add
              /\ ("sub" ∈ ["add"]) /\ leading_function_misnamed mul_code "sub")).
Proof.
  split; [vm_compute; reflexivity|].
  apply (name_mismatch_rejected (H := minipy) (Some file_with_add)
           (Some file_with_add) ["add"] "sub" mul_code).
  vm_compute. reflexivity.
Defined.

Lemma update_in_place_witness :
  read_global_tools_ast (Some file_with_add)
    = (Ok (imports ++ [add_def]), Some file_with_add)
  /\ exists node rest before old after,
       ast_parse (str_strip sub_code) = inl (node :: rest)
       /\ imports ++ [add_def] = before ++ old :: after
       /\ is_function_named "add" old = true
       /\ ("add" ∉ function_names before)
       /\ written (before ++ node :: after) (Some file_with_sub)
       /\ (read_global_tools_ast (Some file_with_sub)
           = (Ok (before ++ node :: after), Some file_with_sub) ->
           get_tool_function "add" (Some file_with_sub)
           = match ast_unparse [node] with
             | Some text =>
                 (Ok {| name := "add"; code := text |}, Some file_with_sub)
             | None => (Raise Unhandled, Some file_with_sub)
             end).
Proof.
  split; [vm_compute; reflexivity|].
  apply (proj2 (update_in_place (H := minipy) (Some file_with_add)
                  (imports ++ [add_def]) "add" sub_code
                  ltac:(vm_compute; reflexivity))
           {| name := "add"; code := sub_code |} (Some file_with_sub)).
  vm_compute. reflexivity.
Defined.

(** * Further properties *)

(** ** The store: failures, unreadable files, what is written *)

Section StoreMore.
Context `{PyAst}.

Lemma read_cases (fs : files) :
  (exists tree, read_global_tools_ast fs = (Ok tree, fs))
  \/ (exists e, read_global_tools_ast fs = (Raise e, fs)
                /\ (e = FileMissing \/ e = StorageCorrupt \/ e = ReadFailed)).
Proof.
  unfold read_global_tools_ast, mbind, handler_bind, open_read.
  destruct fs as [src|]; [|right; eauto].
  destruct (ast_parse src) as [tree|[]]; [left|right..]; eauto 6.
Qed.

Lemma create_unreadable (tool_func : ToolFunction) (fs : files)
    (e : HTTPException) :
  read_global_tools_ast fs = (Raise e, fs) ->
  create_tool_function tool_func fs = (Raise e, fs).
Proof.
  intros Hr. unfold create_tool_function, mbind, handler_bind.
  rewrite Hr. reflexivity.
Qed.

Lemma update_unreadable (function_name : string) (tool_func : ToolFunction)
    (fs : files) (e : HTTPException) :
  read_global_tools_ast fs = (Raise e, fs) ->
  name tool_func = function_name ->
  update_tool_function function_name tool_func fs = (Raise e, fs).
Proof.
  intros Hr Hn. unfold update_tool_function.
  rewrite Hn, String.eqb_refl. simpl. unfold mbind, handler_bind.
  rewrite Hr. reflexivity.
Qed.

Lemma delete_unreadable (function_name : string) (fs : files)
    (e : HTTPException) :
  read_global_tools_ast fs = (Raise e, fs) ->
  delete_tool_function function_name fs = (Raise e, fs).
Proof.
  intros Hr. unfold delete_tool_function, mbind, handler_bind.
  rewrite Hr. reflexivity.
Qed.

Lemma list_unreadable (fs : files) (e : HTTPException) :
  read_global_tools_ast fs = (Raise e, fs) ->
  list_tool_functions fs = (Raise e, fs).
Proof.
  intros Hr. unfold list_tool_functions, mbind, handler_bind.
  rewrite Hr. reflexivity.
Qed.

Lemma get_unreadable (function_name : string) (fs : files)
    (e : HTTPException) :
  read_global_tools_ast fs = (Raise e, fs) ->
  get_tool_function function_name fs = (Raise e, fs).
Proof.
  intros Hr. unfold get_tool_function, mbind, handler_bind.
  rewrite Hr. reflexivity.
Qed.

Lemma update_mismatch (function_name : string) (tool_func : ToolFunction)
    (fs : files) :
  name tool_func <> function_name ->
  update_tool_function function_name tool_func fs
  = (Raise PathBodyMismatch, fs).
Proof.
  intros Hn. unfold update_tool_function.
  destruct (function_name =? name tool_func)%string eqn:E; [|reflexivity].
  apply String.eqb_eq in E. congruence.
Qed.


(** X2: a file that is missing or does not parse is a server error for every
    handler, with the one exception that update compares the two names
    first. *)
Theorem unreadable_file_is_server_error (fs : files) (e : HTTPException)
    (function_name : string) (tool_func : ToolFunction) :
  read_global_tools_ast fs = (Raise e, fs) ->
  status_code e = 500
  /\ create_tool_function tool_func fs = (Raise e, fs)
  /\ list_tool_functions fs = (Raise e, fs)
  /\ get_tool_function function_name fs = (Raise e, fs)
  /\ delete_tool_function function_name fs = (Raise e, fs)
  /\ update_tool_function function_name tool_func fs
     = (Raise (if String.eqb function_name (name tool_func)
               then e else PathBodyMismatch), fs).
Proof.
  intros Hr. split.
  - destruct (read_cases fs) as [(tree & Hr')|(e' & Hr' & He)];
      rewrite Hr in Hr'; [discriminate|]. injection Hr' as ->.
    destruct He as [-> | [-> | ->]]; reflexivity.
  - split; [apply create_unreadable, Hr|].
    split; [apply list_unreadable, Hr|].
    split; [apply get_unreadable, Hr|].
    split; [apply delete_unreadable, Hr|].
    destruct (String.eqb_spec function_name (name tool_func)) as [Hn|Hn].
    + apply update_unreadable; auto.
    + apply update_mismatch. congruence.
Qed.

(** X4: create appends: the file a successful create leaves is the
    rendering of the tree that was read, its statements where they were,
    with the declaration parsed from the submission last. *)
Theorem create_appends (fs fs' : files) (tree : module)
    (tool_func r : ToolFunction) :
  read_global_tools_ast fs = (Ok tree, fs) ->
  create_tool_function tool_func fs = (Ok r, fs') ->
  r = tool_func
  /\ exists node,
       validated (code tool_func) (name tool_func) = Ok node
       /\ written (tree ++ [node]) fs'
       /\ is_function_named (name tool_func) node = true
       /\ function_names (tree ++ [node])
          = function_names tree ++ [name tool_func].
Proof.
  intros Hr Hc.
  destruct (create_ok_inv _ _ _ _ _ Hr Hc)
    as (node & rest & _ & Hparse & Hn & -> & Hw).
  split; [reflexivity|]. exists node.
  split; [apply validated_ok_iff; eauto|].
  split; [exact Hw|]. split; [exact Hn|].
  rewrite function_names_app, (function_names_single _ _ Hn). reflexivity.
Qed.

Lemma filter_not_named (n : string) (tree : module) :
  n ∉ function_names tree ->
  List.filter (fun node => negb (is_function_named n node)) tree = tree.
Proof.
  rewrite elem_of_function_names. intros Hno.
  induction tree as [|x tree IH]; simpl; [reflexivity|].
  destruct (is_function_named n x) eqn:E.
  - exfalso. apply Hno. exists x. split; [left|exact E].
  - simpl. f_equal. apply IH. intros (node & Hin & Hn). apply Hno.
    exists node. split; [right|]; assumption.
Qed.

(** X5: create and then delete of the same name, when the file create
    left parses back to the tree it was rendered from: delete renders
    the tree that was there before, so that a file that was the
    rendering of its tree comes back byte for byte. *)
Theorem create_then_delete (fs fs' : files) (tree : module)
    (tool_func r : ToolFunction) (node : stmt) :
  read_global_tools_ast fs = (Ok tree, fs) ->
  create_tool_function tool_func fs = (Ok r, fs') ->
  validated (code tool_func) (name tool_func) = Ok node ->
  read_global_tools_ast fs' = (Ok (tree ++ [node]), fs') ->
  delete_tool_function (name tool_func) fs'
  = match ast_unparse tree with
    | Some text => (Ok tt, Some (final_newline text))
    | None => (Raise WriteFailed, fs')
    end
  /\ (written tree fs ->
      delete_tool_function (name tool_func) fs' = (Ok tt, fs)).
Proof.
  intros Hr Hc Hv Hr'.
  destruct (create_ok_inv _ _ _ _ _ Hr Hc) as (_ & _ & Hnone & _).
  apply validated_ok_iff in Hv as (rest & _ & Hn).
  assert (delete_tool_function (name tool_func) fs'
          = match ast_unparse tree with
            | Some text => (Ok tt, Some (final_newline text))
            | None => (Raise WriteFailed, fs')
            end) as Hd.
  { rewrite (delete_tool_function_unfold _ _ _ Hr'). simpl.
    rewrite List.filter_app, (filter_not_named _ _ (not_top_level _ _ Hnone)).
    simpl. rewrite Hn. simpl. rewrite app_nil_r, length_app. simpl.
    replace (length tree =? length tree + 1)%nat with false; [reflexivity|].
    symmetry. apply Nat.eqb_neq. lia. }
  split; [exact Hd|]. intros (text & Hw & ->). rewrite Hd, Hw. reflexivity.
Qed.

Lemma update_ok_read (function_name : string) (tool_func r : ToolFunction)
    (fs fs' : files) :
  update_tool_function function_name tool_func fs = (Ok r, fs') ->
  exists tree, read_global_tools_ast fs = (Ok tree, fs).
Proof.
  intros Hu. destruct (read_cases fs) as [Hr|(e & Hr & _)]; [exact Hr|].
  exfalso. destruct (String.eqb_spec (name tool_func) function_name) as [Hn|Hn].
  - rewrite (update_unreadable _ _ _ _ Hr Hn) in Hu. discriminate.
  - rewrite (update_mismatch _ _ _ Hn) in Hu. discriminate.
Qed.

(** X6: updating twice with the same submission is updating once, when
    the file the first update left parses back to the tree it was
    rendered from: if that file is the rendering of the tree it parses
    to, and the first top-level declaration of the name in that tree is
    the one parsed from the submission, the second update answers as the
    first and leaves the file as it is. *)
Theorem update_idempotent (fs fs' : files) (tree' : module)
    (function_name : string) (tool_func r : ToolFunction) (i : nat)
    (node : stmt) :
  update_tool_function function_name tool_func fs = (Ok r, fs') ->
  read_global_tools_ast fs' = (Ok tree', fs') ->
  written tree' fs' ->
  validated (code tool_func) function_name = Ok node ->
  list_find (fun x => is_function_named function_name x = true) tree'
  = Some (i, node) ->
  update_tool_function function_name tool_func fs' = (Ok r, fs').
Proof.
  intros Hu Hr' (text & Hw & ->) Hv Hfind.
  assert (name tool_func = function_name /\ r = tool_func) as [Hname ->].
  { destruct (update_ok_read _ _ _ _ _ Hu) as (tree & Hr).
    destruct (update_ok_inv _ _ _ _ _ _ Hr Hu)
      as (? & ? & ? & ? & ? & Hname & _ & _ & _ & _ & _ & Hres & _).
    auto. }
  rewrite (update_tool_function_unfold _ _ _ _ Hr' Hname).
  pose proof (first_named_split _ _ _ _ Hfind) as (Etree & Hn & Hbefore).
  assert (find_function_node tree' function_name = Some node) as ->.
  { rewrite Etree. apply find_first_top_level; assumption. }
  rewrite Hv, Hfind.
  apply list_find_Some in Hfind as (Hi & _ & _).
  match goal with
  | |- context [ast_unparse ?t] => replace t with tree'
  end.
  - rewrite Hw. reflexivity.
  - symmetry. apply list_insert_id, Hi.
Qed.

(** X7: a top-level definition hides the nested ones of its name: for the
    first top-level definition named [n], when there is one,
    get_tool_function returns what [ast.unparse] makes of it, and fails
    with status 500 when [ast.unparse] raises on it. *)
Theorem get_prefers_top_level (fs : files) (tree : module) (n : string)
    (node : stmt) :
  read_global_tools_ast fs = (Ok tree, fs) ->
  List.find (is_function_named n) tree = Some node ->
  get_tool_function n fs
  = match ast_unparse [node] with
    | Some text => (Ok {| name := n; code := text |}, fs)
    | None => (Raise Unhandled, fs)
    end.
Proof.
  intros Hr Hf. rewrite (get_tool_function_unfold _ _ _ Hr).
  rewrite (find_function_node_top_level _ _ _ Hf). reflexivity.
Qed.

(** X8: the listing and read agree on the names: a name is listed exactly
    when get_tool_function does not answer 404 for it, which then
    returns a definition or, when [ast.unparse] raises on the
    definition, fails with status 500; every other name is NotFound. *)
Theorem listed_iff_readable (fs : files) (names : list string) (n : string) :
  list_tool_functions fs = (Ok names, fs) ->
  (n ∈ names <->
   (exists text, get_tool_function n fs
                 = (Ok {| name := n; code := text |}, fs))
   \/ get_tool_function n fs = (Raise Unhandled, fs))
  /\ (n ∉ names <-> get_tool_function n fs = (Raise NotFound, fs)).
Proof.
  intros Hl. apply list_tool_functions_inv in Hl as (tree & Hr & -> & _).
  rewrite (get_tool_function_unfold _ _ _ Hr).
  pose proof (find_function_node_none tree n) as Hnone.
  destruct (find_function_node tree n) as [node|].
  - assert (n ∈ function_names (walk tree)) as Hin.
    { destruct (decide (n ∈ function_names (walk tree))) as [Hin|Hout];
        [assumption|]. apply Hnone in Hout. discriminate. }
    destruct (ast_unparse [node]) as [text|].
    + split; [split; eauto|]. split; [contradiction|discriminate].
    + split; [split; auto|]. split; [contradiction|discriminate].
  - pose proof (proj1 Hnone eq_refl) as Hout. split.
    + split; [contradiction|]. intros [(text & [=])|[=]].
    + split; auto.
Qed.

End StoreMore.

(** ** Runs of the store properties *)

Lemma unreadable_file_is_server_error_witness :
  read_global_tools_ast None = (Raise FileMissing, None)
  /\ status_code FileMissing = 500
  /\ create_tool_function add_tool None = (Raise FileMissing, None)
  /\ list_tool_functions None = (Raise FileMissing, None)
  /\ get_tool_function "add" None = (Raise FileMissing, None)
  /\ delete_tool_function "add" None = (Raise FileMissing, None)
  /\ update_tool_function "add" add_tool None = (Raise FileMissing, None).
Proof.
  split; [reflexivity|].
  apply (unreadable_file_is_server_error (H := minipy) None FileMissing "add"
           add_tool).
  reflexivity.
Defined.

Lemma create_appends_witness :
  (read_global_tools_ast (Some initial_file) = (Ok imports, Some initial_file)
   /\ create_tool_function add_tool (Some initial_file)
      = (Ok add_tool, Some file_with_add))
  /\ add_tool = add_tool
  /\ exists node,
       validated add_code "add" = Ok node
       /\ written (imports ++ [node]) (Some file_with_add)
       /\ is_function_named "add" node = true
       /\ function_names (imports ++ [node]) = function_names imports ++ ["add"].
Proof.
  split; [split; vm_compute; reflexivity|].
  apply (create_appends (H := minipy) (Some initial_file) (Some file_with_add)
           imports add_tool add_tool); vm_compute; reflexivity.
Defined.

Lemma create_then_delete_witness :
  (read_global_tools_ast (Some "import datetime
from zoneinfo import ZoneInfo
") = (Ok imports, Some "import datetime
from zoneinfo import ZoneInfo
")
   /\ create_tool_function add_tool (Some "import datetime
from zoneinfo import ZoneInfo
") = (Ok add_tool, Some file_with_add)
   /\ validated add_code "add" = Ok add_def
   /\ read_global_tools_ast (Some file_with_add)
      = (Ok (imports ++ [add_def]), Some file_with_add)
   /\ written imports (Some "import datetime
from zoneinfo import ZoneInfo
"))
  /\ delete_tool_function "add" (Some file_with_add)
     = (Ok tt, Some "import datetime
from zoneinfo import ZoneInfo
").
Proof.
  split.
  - repeat split; try (vm_compute; reflexivity).
    eexists. split; vm_compute; reflexivity.
  - apply (create_then_delete (H := minipy) (Some "import datetime
from zoneinfo import ZoneInfo
") (Some file_with_add) imports add_tool add_tool add_def);
      try (vm_compute; reflexivity).
    eexists. split; vm_compute; reflexivity.
Defined.

Lemma update_idempotent_witness :
  (update_tool_function "add" {| name := "add"; code := sub_code |}
     (Some file_with_add)
   = (Ok {| name := "add"; code := sub_code |}, Some file_with_sub)
   /\ read_global_tools_ast (Some file_with_sub)
      = (Ok (imports ++ [sub_def]), Some file_with_sub)
   /\ written (imports ++ [sub_def]) (Some file_with_sub)
   /\ validated sub_code "add" = Ok sub_def
   /\ list_find (fun x => is_function_named "add" x = true)
        (imports ++ [sub_def]) = Some (2, sub_def))
  /\ update_tool_function "add" {| name := "add"; code := sub_code |}
       (Some file_with_sub)
     = (Ok {| name := "add"; code := sub_code |}, Some file_with_sub).
Proof.
  split.
  - repeat split; try (vm_compute; reflexivity).
    eexists. split; vm_compute; reflexivity.
  - apply (update_idempotent (H := minipy) (Some file_with_add)
             (Some file_with_sub) (imports ++ [sub_def]) "add"
             {| name := "add"; code := sub_code |}
             {| name := "add"; code := sub_code |} 2 sub_def);
      try (vm_compute; reflexivity).
    eexists. split; vm_compute; reflexivity.
Defined.

Lemma get_prefers_top_level_witness :
  (read_global_tools_ast (Some file_with_helper_and_tool)
   = (Ok helper_and_tool, Some file_with_helper_and_tool)
   /\ List.find (is_function_named "helper") helper_and_tool
      = Some (FunctionDef "helper" "()" [Simple "pass"]))
  /\ get_tool_function "helper" (Some file_with_helper_and_tool)
     = (Ok helper_tool, Some file_with_helper_and_tool).
Proof.
  split; [split; vm_compute; reflexivity|].
  apply (get_prefers_top_level (H := minipy) (Some file_with_helper_and_tool)
           helper_and_tool "helper" (FunctionDef "helper" "()" [Simple "pass"]));
    vm_compute; reflexivity.
Defined.

Lemma listed_iff_readable_witness :
  list_tool_functions (Some file_with_outer)
  = (Ok ["outer"; "inner"], Some file_with_outer)
  /\ ("inner" ∈ ["outer"; "inner"] <->
      (exists text,
         get_tool_function "inner" (Some file_with_outer)
         = (Ok {| name := "inner"; code := text |}, Some file_with_outer))
      \/ get_tool_function "inner" (Some file_with_outer)
         = (Raise Unhandled, Some file_with_outer))
  /\ ("inner" ∉ ["outer"; "inner"] <->
      get_tool_function "inner" (Some file_with_outer)
      = (Raise NotFound, Some file_with_outer)).
Proof.
  split; [vm_compute; reflexivity|].
  apply (listed_iff_readable (H := minipy) (Some file_with_outer)).
  vm_compute. reflexivity.
Defined.

(** ** Sanitised names: fixed points *)

Section SanitizeMore.
Import Sanitize SanitizedNames.
Variables (uni_digit xid_start xid_continue : N -> bool).

Abbreviation sanitize := (sanitize_agent_name uni_digit xid_start xid_continue).
Abbreviation validate := (validate_and_sanitize_name uni_digit xid_start xid_continue).

Lemma replace_word_chars (old new : N) (s : pystr) :
  word_char old = false -> forallb word_char s = true -> replace old new s = s.
Proof.
  intros Ho. unfold replace. induction s as [|c s IH]; simpl; [reflexivity|].
  rewrite andb_true_iff. intros [Hc Hs]. rewrite IH by assumption.
  destruct (c =? old)%N eqn:E; [|reflexivity].
  apply N.eqb_eq in E. subst c. congruence.
Qed.

Lemma re_sub_word_chars_id (s : pystr) :
  forallb word_char s = true -> re_sub_non_word s = s.
Proof.
  unfold re_sub_non_word. induction s as [|c s IH]; simpl; [reflexivity|].
  rewrite andb_true_iff. intros [Hc Hs]. rewrite Hc, IH by assumption.
  reflexivity.
Qed.

Lemma rstrip_id (ch : N) (s : pystr) :
  match rev s with
  | c :: _ => (c =? ch)%N = false
  | [] => True
  end -> rstrip ch s = s.
Proof.
  unfold rstrip. destruct (rev s) as [|c r] eqn:E.
  - intros _. simpl. rewrite <- (rev_involutive s), E. reflexivity.
  - intros Hc. simpl. rewrite Hc. rewrite <- E. apply rev_involutive.
Qed.

Lemma rstrip_last (ch : N) (s : pystr) :
  match rev (rstrip ch s) with
  | c :: _ => (c =? ch)%N = false
  | [] => True
  end.
Proof.
  unfold rstrip. rewrite rev_involutive.
  destruct (lstrip_suffix ch (rev s)) as (k & _ & H). exact H.
Qed.

Lemma rev_cons_last (c : N) (s : pystr) :
  s <> [] -> exists r, rev (c :: s) = hd c (rev s) :: r.
Proof.
  intros Hs. simpl. destruct (rev s) as [|x r] eqn:E.
  - exfalso. apply Hs. rewrite <- (rev_involutive s), E. reflexivity.
  - simpl. eauto.
Qed.

(** The cleaned name, when there is one, is canonical. *)
Lemma clean_canonical (name : pystr) :
  clean uni_digit name <> [] -> canonical (clean uni_digit name) = true.
Proof.
  unfold clean.
  set (filtered := re_sub_non_word
         (replace hyphen underscore (replace space underscore name))).
  assert (forallb word_char (strip underscore filtered) = true) as Hw
    by apply forallb_strip, re_sub_word_chars.
  pose proof (strip_head underscore filtered) as Hhead.
  pose proof (rstrip_last underscore (lstrip underscore filtered)) as Hlast.
  fold (strip underscore filtered) in Hlast.
  destruct (strip underscore filtered) as [|c rest] eqn:Es; [congruence|].
  intros _. specialize (Hhead c rest eq_refl).
  pose proof Hw as Hw'. simpl in Hw'. apply andb_true_iff in Hw' as [Hc Hrest].
  assert (isdigit uni_digit c = ascii_digit c) as Hd
    by (unfold isdigit; rewrite (word_char_ascii c Hc); reflexivity).
  assert (ascii_digit c = false -> ascii_letter c = true) as Hletter.
  { intros Hnd. unfold word_char in Hc. rewrite Hhead, Hnd in Hc.
    rewrite !orb_false_r in Hc. exact Hc. }
  rewrite Hd. unfold canonical.
  destruct (ascii_digit c) eqn:Hdig.
  - change (forallb word_char (underscore :: c :: rest))
      with (forallb word_char (c :: rest)).
    rewrite Hw. cbn [andb].
    replace (match rev (underscore :: c :: rest) with
             | c0 :: _ => negb (c0 =? underscore)%N
             | [] => false
             end) with true.
    + simpl. exact Hdig.
    + change (rev (underscore :: c :: rest))
        with (rev (c :: rest) ++ [underscore]).
      destruct (rev (c :: rest)) as [|x r] eqn:E.
      * apply (f_equal (@rev N)) in E. rewrite rev_involutive in E. discriminate.
      * simpl. rewrite Hlast. reflexivity.
  - rewrite Hw. cbn [andb].
    destruct (rev (c :: rest)) as [|x r] eqn:E.
    + apply (f_equal (@rev N)) in E. rewrite rev_involutive in E. discriminate.
    + rewrite Hlast. cbn [negb andb]. rewrite (Hletter eq_refl).
      destruct rest; reflexivity.
Qed.


Lemma letter_facts (c : N) :
  ascii_letter c = true ->
  word_char c = true /\ (c =? underscore)%N = false
  /\ ascii_digit c = false /\ (c <? 128)%N = true.
Proof.
  unfold ascii_letter, word_char, ascii_lower, ascii_upper, ascii_digit,
    underscore.
  rewrite !orb_true_iff, !andb_true_iff, !andb_false_iff, !N.leb_le,
    !N.leb_gt, N.eqb_neq, N.ltb_lt, N.eqb_eq. lia.
Qed.

Lemma digit_facts (c : N) :
  ascii_digit c = true ->
  (c =? underscore)%N = false /\ (c <? 128)%N = true.
Proof.
  unfold ascii_digit, underscore.
  rewrite !andb_true_iff, !N.leb_le, N.eqb_neq, N.ltb_lt. lia.
Qed.

Lemma lstrip_id (ch c : N) (s : pystr) :
  (c =? ch)%N = false -> lstrip ch (c :: s) = c :: s.
Proof. intros Hc. simpl. rewrite Hc. reflexivity. Qed.

Lemma canonical_clean (s : pystr) :
  canonical s = true -> clean uni_digit s = s.
Proof.
  unfold canonical. rewrite !andb_true_iff. intros [[Hw Hlast] Hfront].
  unfold clean.
  rewrite (replace_word_chars space underscore s eq_refl Hw).
  rewrite (replace_word_chars hyphen underscore s eq_refl Hw).
  rewrite (re_sub_word_chars_id s Hw). unfold strip.
  assert (forall c r, rev s = c :: r -> (c =? underscore)%N = false) as Hl.
  { intros c r E. rewrite E in Hlast. apply negb_true_iff, Hlast. }
  destruct s as [|c [|d rest]]; [discriminate| |].
  - destruct (letter_facts c Hfront) as (_ & Hu & Hd & Ha).
    rewrite (lstrip_id _ _ _ Hu), rstrip_id by (simpl; exact Hu).
    unfold isdigit. rewrite Ha, Hd. reflexivity.
  - apply orb_true_iff in Hfront as [Hletter|Hdig].
    + destruct (letter_facts c Hletter) as (_ & Hu & Hd & Ha).
      rewrite (lstrip_id _ _ _ Hu).
      rewrite rstrip_id.
      * unfold isdigit. rewrite Ha, Hd. reflexivity.
      * destruct (rev (c :: d :: rest)) as [|x r] eqn:E; [exact I|].
        exact (Hl x r eq_refl).
    + apply andb_true_iff in Hdig as [Hc Hd]. apply N.eqb_eq in Hc. subst c.
      destruct (digit_facts d Hd) as (Hu & Ha).
      change (lstrip underscore (underscore :: d :: rest))
        with (lstrip underscore (d :: rest)).
      rewrite (lstrip_id _ _ _ Hu).
      rewrite rstrip_id.
      * unfold isdigit. rewrite Ha, Hd. reflexivity.
      * destruct (rev (d :: rest)) as [|x r] eqn:E; [exact I|].
        apply (Hl x (r ++ [underscore])).
        change (rev (underscore :: d :: rest))
          with (rev (d :: rest) ++ [underscore]).
        rewrite E. reflexivity.
Qed.

Lemma canonical_nonempty (s : pystr) : canonical s = true -> s <> [].
Proof. destruct s; [discriminate|discriminate]. Qed.

Lemma sanitize_clean (s out : pystr) :
  sanitize (PyStr s) = inl out <-> clean uni_digit s = out /\ out <> [].
Proof.
  simpl. pose proof (clean_identifier uni_digit xid_start xid_continue s) as Hid.
  destruct (clean uni_digit s) as [|c rest].
  - split; [discriminate|]. intros [<- Hne]. congruence.
  - rewrite Hid by discriminate. split.
    + intros [= <-]. split; [reflexivity|discriminate].
    + intros [<- _]. reflexivity.
Qed.

Lemma canonical_sanitize (s : pystr) :
  canonical s = true -> sanitize (PyStr s) = inl s.
Proof.
  intros Hc. apply sanitize_clean.
  split; [apply canonical_clean, Hc|apply canonical_nonempty, Hc].
Qed.

(** X9: the names the sanitiser returns unchanged are the canonical ones:
    characters of [a-zA-Z0-9_] only, no underscore at the end, and at the
    front a letter, or one underscore and then a digit. *)
Theorem sanitize_fixed_points (s : pystr) :
  sanitize (PyStr s) = inl s <-> canonical s = true.
Proof.
  split; [|apply canonical_sanitize].
  rewrite sanitize_clean. intros [E Hne]. rewrite <- E.
  apply clean_canonical. congruence.
Qed.

Lemma sanitize_output_canonical (v : pyvalue) (out : pystr) :
  sanitize v = inl out -> canonical out = true.
Proof.
  destruct v as [s| |z]; try discriminate.
  rewrite sanitize_clean. intros [<- Hne]. apply clean_canonical, Hne.
Qed.

Lemma validate_sanitize (v : pyvalue) : validate v = sanitize v.
Proof.
  unfold validate_and_sanitize_name. destruct v as [s| |z]; try reflexivity.
  destruct (sanitize (PyStr s)); reflexivity.
Qed.

(** X10: sanitising is idempotent: a name the sanitiser has returned goes
    through the sanitiser, and through the validator of the [name] field,
    unchanged. *)
Theorem sanitize_idempotent (v : pyvalue) (out : pystr) :
  sanitize v = inl out ->
  sanitize (PyStr out) = inl out /\ validate (PyStr out) = inl out.
Proof.
  intros Hs. apply sanitize_output_canonical, canonical_sanitize in Hs.
  rewrite validate_sanitize. auto.
Qed.

(** Stripping leaves nothing exactly of the strings made of [ch]. *)
Lemma lstrip_nil_iff (ch : N) (s : pystr) :
  lstrip ch s = [] <-> forallb (fun c => (c =? ch)%N) s = true.
Proof.
  induction s as [|c s IH]; simpl; [tauto|].
  destruct (c =? ch)%N; simpl; [exact IH|]. split; discriminate.
Qed.

Lemma strip_nil_iff (ch : N) (s : pystr) :
  strip ch s = [] <-> forallb (fun c => (c =? ch)%N) s = true.
Proof.
  rewrite <- lstrip_nil_iff. unfold strip.
  destruct (lstrip_suffix ch s) as (_ & _ & Hhead).
  destruct (lstrip ch s) as [|c r] eqn:E; [tauto|].
  split; [|discriminate]. intros Hr. exfalso.
  destruct (rstrip_prefix ch (c :: r)) as (k & Ek). rewrite Hr in Ek.
  destruct k; [discriminate|]. simpl in Ek. injection Ek as -> _.
  rewrite N.eqb_refl in Hhead. discriminate.
Qed.

Lemma filtered_underscores (s : pystr) :
  forallb (fun c => (c =? underscore)%N)
    (re_sub_non_word (replace hyphen underscore (replace space underscore s)))
  = negb (existsb ascii_alnum s).
Proof.
  unfold re_sub_non_word, replace.
  induction s as [|c s IH]; simpl; [reflexivity|].
  assert (forall x, word_char x = true ->
            (x =? underscore)%N = negb (ascii_alnum x)) as Hword.
  { intros x. unfold word_char, ascii_alnum, ascii_letter, ascii_lower,
      ascii_upper, ascii_digit, underscore.
    destruct (x =? 95)%N eqn:E.
    - apply N.eqb_eq in E. subst x. reflexivity.
    - rewrite orb_false_r. intros ->. reflexivity. }
  assert (forall x, word_char x = false -> ascii_alnum x = false) as Hnon.
  { intros x. unfold word_char, ascii_alnum, ascii_letter.
    rewrite !orb_false_iff. tauto. }
  destruct (c =? space)%N eqn:Es.
  { apply N.eqb_eq in Es. subst c. simpl. exact IH. }
  destruct (c =? hyphen)%N eqn:Eh.
  { apply N.eqb_eq in Eh. subst c. simpl. exact IH. }
  destruct (word_char c) eqn:Ew; simpl.
  - rewrite (Hword c Ew), IH, negb_orb. reflexivity.
  - rewrite (Hnon c Ew). exact IH.
Qed.

(** The sanitiser, in one equation. *)
Lemma sanitize_eq (v : pyvalue) :
  sanitize v
  = match v with
    | PyStr s =>
        match clean uni_digit s with
        | [] => inr EmptyAfterSanitization
        | out => inl out
        end
    | _ => inr MustBeString
    end.
Proof.
  destruct v as [s| |z]; try reflexivity. simpl.
  pose proof (clean_identifier uni_digit xid_start xid_continue s) as Hid.
  destruct (clean uni_digit s) as [|c rest]; [reflexivity|].
  rewrite Hid by discriminate. reflexivity.
Qed.

(** X11: the sanitiser accepts a text exactly when it holds an ASCII letter
    or digit; every other text is refused as empty after
    sanitisation. *)
Theorem sanitize_accepts_iff (s : pystr) :
  ((exists out, sanitize (PyStr s) = inl out)
   <-> existsb ascii_alnum s = true)
  /\ (sanitize (PyStr s) = inr EmptyAfterSanitization
      <-> existsb ascii_alnum s = false).
Proof.
  assert (clean uni_digit s = [] <-> existsb ascii_alnum s = false) as Hnil.
  { unfold clean.
    set (filtered := re_sub_non_word
           (replace hyphen underscore (replace space underscore s))).
    rewrite <- negb_true_iff, <- (filtered_underscores s). fold filtered.
    rewrite <- strip_nil_iff.
    destruct (strip underscore filtered) as [|c r]; [tauto|].
    destruct (isdigit uni_digit c); split; discriminate. }
  rewrite sanitize_eq.
  destruct (clean uni_digit s) as [|c rest].
  - rewrite (proj1 Hnil eq_refl). split; split; try discriminate; auto.
    intros (out & [=]).
  - destruct (existsb ascii_alnum s).
    + split; split; try discriminate; eauto.
    + destruct Hnil as [_ Hnil]. discriminate (Hnil eq_refl).
Qed.

End SanitizeMore.

Lemma clean_tables (d d' : N -> bool) (s : Sanitize.pystr) :
  Sanitize.clean d s = Sanitize.clean d' s.
Proof.
  unfold Sanitize.clean.
  set (filtered := Sanitize.re_sub_non_word _).
  assert (forallb Sanitize.word_char (Sanitize.strip Sanitize.underscore filtered)
          = true) as Hw by apply forallb_strip, re_sub_word_chars.
  destruct (Sanitize.strip Sanitize.underscore filtered) as [|c rest];
    [reflexivity|].
  simpl in Hw. apply andb_true_iff in Hw as [Hc _].
  unfold Sanitize.isdigit. rewrite (word_char_ascii c Hc). reflexivity.
Qed.

(** X12: [isdigit] and [isidentifier] only ever see what the filter has left,
    which is ASCII: the outcome is the same whatever the Unicode tables
    say. *)
Theorem sanitize_tables_irrelevant (d s c d' s' c' : N -> bool)
    (v : Sanitize.pyvalue) :
  Sanitize.sanitize_agent_name d s c v = Sanitize.sanitize_agent_name d' s' c' v.
Proof.
  rewrite !sanitize_eq. destruct v as [name| |z]; try reflexivity.
  rewrite (clean_tables d d'). reflexivity.
Qed.

Lemma sanitize_idempotent_witness :
  Sanitize.sanitize_agent_name (fun _ => false) (fun _ => false) (fun _ => false)
    (Sanitize.PyStr (Sanitize.of_string "_42 things!_"))
  = inl (Sanitize.of_string "_42_things")
  /\ Sanitize.sanitize_agent_name (fun _ => false) (fun _ => false)
       (fun _ => false) (Sanitize.PyStr (Sanitize.of_string "_42_things"))
     = inl (Sanitize.of_string "_42_things")
  /\ Sanitize.validate_and_sanitize_name (fun _ => false) (fun _ => false)
       (fun _ => false) (Sanitize.PyStr (Sanitize.of_string "_42_things"))
     = inl (Sanitize.of_string "_42_things").
Proof.
  split; [reflexivity|].
  apply (sanitize_idempotent (fun _ => false) (fun _ => false) (fun _ => false)
           (Sanitize.PyStr (Sanitize.of_string "_42 things!_"))).
  reflexivity.
Defined.

(** ** The generated agent.py *)

Section GeneratedCode.
Import Agents.

Local Arguments Ascii.eqb : simpl never.

Lemma ascii_compare_le_trans (a b c : ascii) :
  Ascii.compare a b <> Gt -> Ascii.compare b c <> Gt ->
  Ascii.compare a c <> Gt.
Proof.
  unfold Ascii.compare. rewrite !N.compare_gt_iff. lia.
Qed.

Lemma string_compare_trans (s1 : string) :
  forall s2 s3,
    String.compare s1 s2 <> Gt -> String.compare s2 s3 <> Gt ->
    String.compare s1 s3 <> Gt.
Proof.
  induction s1 as [|c1 s1 IH]; intros s2 s3.
  - destruct s3; simpl; intros _ _; discriminate.
  - destruct s2 as [|c2 s2]; [simpl; intros; congruence|].
    destruct s3 as [|c3 s3]; [simpl; intros; congruence|].
    simpl. unfold Ascii.compare.
    destruct (N.compare_spec (N_of_ascii c1) (N_of_ascii c2)) as [E12|L12|G12];
      destruct (N.compare_spec (N_of_ascii c2) (N_of_ascii c3)) as [E23|L23|G23];
      destruct (N.compare_spec (N_of_ascii c1) (N_of_ascii c3)) as [E13|L13|G13];
      try congruence; try lia; try discriminate.
    apply IH.
Qed.

#[local] Instance str_le_trans : Transitive str_le.
Proof.
  intros a b c. unfold str_le, String.leb. intros Hab Hbc.
  pose proof (string_compare_trans a b c) as Ht.
  destruct (String.compare a b); destruct (String.compare b c);
    destruct (String.compare a c); try reflexivity; try congruence;
    (exfalso; apply Ht; [discriminate|discriminate|reflexivity]).
Qed.

#[local] Instance str_le_antisym : AntiSymm (=) str_le.
Proof. intros a b. apply String.leb_antisym. Qed.

#[local] Instance str_le_total : Total str_le.
Proof. intros a b. apply String.leb_total. Qed.

Lemma sorted_set_elem_of (names : list string) (x : string) :
  x ∈ sorted_set names <-> x ∈ names.
Proof.
  unfold sorted_set. rewrite merge_sort_Permutation.
  apply elem_of_remove_dups.
Qed.

Lemma sorted_set_sorted (names : list string) :
  StronglySorted str_le (sorted_set names) /\ NoDup (sorted_set names).
Proof.
  unfold sorted_set. split.
  - apply StronglySorted_merge_sort; apply _.
  - rewrite merge_sort_Permutation. apply NoDup_remove_dups.
Qed.

Lemma sorted_set_ext (names names' : list string) :
  (forall x, x ∈ names <-> x ∈ names') -> sorted_set names = sorted_set names'.
Proof.
  intros Hext. apply (StronglySorted_unique str_le).
  - apply sorted_set_sorted.
  - apply sorted_set_sorted.
  - apply NoDup_Permutation; try apply sorted_set_sorted.
    intros x. rewrite !sorted_set_elem_of. apply Hext.
Qed.

Lemma same_names_nil (names names' : list string) :
  (forall x, x ∈ names <-> x ∈ names') -> names = [] <-> names' = [].
Proof.
  intros Hext. split; intros ->.
  - destruct names' as [|x l]; [reflexivity|].
    exfalso. eapply not_elem_of_nil, Hext. left.
  - destruct names as [|x l]; [reflexivity|].
    exfalso. eapply not_elem_of_nil, Hext. left.
Qed.

(** X13: the generated text depends on the tool references only through the
    set of names: order and repetitions make no difference. *)
Theorem generated_code_ignores_order (config : AgentConfig)
    (refs : list string) :
  tool_references config ⊆ refs -> refs ⊆ tool_references config ->
  generate_agent_py_code (with_tools config refs)
  = generate_agent_py_code config.
Proof.
  intros Hsub Hsup.
  assert (forall x, x ∈ tool_references config <-> x ∈ refs) as Hext
    by (intros x; split; [apply Hsub|apply Hsup]).
  pose proof (sorted_set_ext _ _ Hext) as Hs.
  pose proof (same_names_nil _ _ Hext) as Hnil.
  unfold generate_agent_py_code, filled_template, template, import_statement,
    tools_list_definition, agent_tools_arg, with_tools. simpl.
  rewrite <- Hs.
  destruct (tool_references config) as [|t ts]; destruct refs as [|r rs];
    try reflexivity.
  - destruct Hnil as [Hnil _]. discriminate (Hnil eq_refl).
  - destruct Hnil as [_ Hnil]. discriminate (Hnil eq_refl).
Qed.

Lemma replace_from_cons (old new : chars) (x : ascii) (t : chars) :
  replace_from old new 0 (x :: t)
  = if starts_with old (x :: t)
    then new ++ replace_from old new (length old - 1) t
    else x :: replace_from old new 0 t.
Proof. reflexivity. Qed.

(** What the first replacement returns never starts with a newline and a
    closing parenthesis. *)
Lemma insert_comma_head (s : chars) :
  starts_with [nl; rp] (replace_from [nl; rp] [comma; nl; rp] 0 s) = false.
Proof.
  destruct s as [|x t]; [reflexivity|]. rewrite replace_from_cons.
  destruct (starts_with [nl; rp] (x :: t)) eqn:E; [reflexivity|].
  cbn [starts_with] in E |- *.
  destruct (Ascii.eqb nl x); [|reflexivity]. cbn [andb] in E |- *.
  destruct t as [|y t']; [reflexivity|]. rewrite replace_from_cons.
  destruct (starts_with [nl; rp] (y :: t')); [reflexivity|exact E].
Qed.

Lemma replace_cancel_sized (n : nat) :
  forall s, length s <= n ->
    replace_from [comma; nl; rp] [nl; rp] 0
      (replace_from [nl; rp] [comma; nl; rp] 0 s) = s.
Proof.
  induction n as [|n IH]; intros s Hlen.
  - destruct s; [reflexivity|simpl in Hlen; lia].
  - destruct s as [|x t]; [reflexivity|].
    rewrite (replace_from_cons [nl; rp]).
    destruct (starts_with [nl; rp] (x :: t)) eqn:Es.
    + destruct t as [|y t];
        [cbn in Es; rewrite andb_false_r in Es; discriminate|].
      cbn [starts_with] in Es. rewrite !andb_true_iff in Es.
      destruct Es as (Ex & Ey & _).
      apply Ascii.eqb_eq in Ex, Ey. subst x y.
      change (replace_from [comma; nl; rp] [nl; rp] 0
                ([comma; nl; rp]
                 ++ replace_from [nl; rp] [comma; nl; rp]
                      (length [nl; rp] - 1) (rp :: t)))
        with (nl :: rp :: replace_from [comma; nl; rp] [nl; rp] 0
                (replace_from [nl; rp] [comma; nl; rp] 0 t)).
      rewrite IH by (simpl in Hlen; lia). reflexivity.
    + rewrite replace_from_cons.
      destruct (starts_with [comma; nl; rp]
                  (x :: replace_from [nl; rp] [comma; nl; rp] 0 t)) eqn:Es2.
      * exfalso. cbn [starts_with] in Es2.
        apply andb_true_iff in Es2 as [_ Es2].
        pose proof (insert_comma_head t) as Hh. cbn [starts_with] in Hh.
        congruence.
      * rewrite IH by (simpl in Hlen; lia). reflexivity.
Qed.

Lemma str_replace_cancel (code : string) :
  str_replace ",
)" "
)" (str_replace "
)" ",
)" code) = code.
Proof.
  unfold str_replace. rewrite list_ascii_of_string_of_list_ascii.
  cbn [list_ascii_of_string replace_chars].
  rewrite (replace_cancel_sized _ _ (Nat.le_refl _)).
  apply string_of_list_ascii_of_string.
Qed.

(** X14: with tool references the two closing replacements undo each other,
    whatever the fields hold: the file is the filled template, character
    for character. *)
Theorem generated_code_with_tools (config : AgentConfig) :
  tool_references config <> [] ->
  generate_agent_py_code config = filled_template config.
Proof.
  intros Hne. unfold generate_agent_py_code, agent_tools_arg.
  destruct (tool_references config) as [|t ts]; [congruence|].
  apply str_replace_cancel.
Qed.

End GeneratedCode.

(** ** The agent endpoints *)

Section AgentEndpoints.
Import Agents.

Local Arguments Ascii.eqb : simpl never.

Lemma word_char_byte (c : N) : Sanitize.word_char c = true -> (c < 256)%N.
Proof. intros Hw. apply word_char_ascii, N.ltb_lt in Hw. lia. Qed.

Lemma of_to_string (s : Sanitize.pystr) :
  forallb Sanitize.word_char s = true ->
  Sanitize.of_string (to_string s) = s.
Proof.
  unfold Sanitize.of_string, to_string.
  rewrite list_ascii_of_string_of_list_ascii.
  induction s as [|c s IH]; simpl; [reflexivity|].
  rewrite andb_true_iff. intros [Hc Hs].
  rewrite IH by assumption.
  rewrite N_ascii_embedding by (apply word_char_byte, Hc). reflexivity.
Qed.

Lemma canonical_word_chars (s : Sanitize.pystr) :
  SanitizedNames.canonical s = true -> forallb Sanitize.word_char s = true.
Proof.
  unfold SanitizedNames.canonical. rewrite !andb_true_iff. tauto.
Qed.

Lemma validate_name_some (v out : string) :
  validate_name v = Some out <->
  exists s, Sanitize.sanitize_agent_name no_table no_table no_table
              (Sanitize.PyStr (Sanitize.of_string v)) = inl s
            /\ out = to_string s.
Proof.
  unfold validate_name. rewrite validate_sanitize.
  destruct (Sanitize.sanitize_agent_name _ _ _ _) as [s|e]; split.
  - intros [= <-]. eauto.
  - intros (s' & [= <-] & ->). reflexivity.
  - discriminate.
  - intros (s' & [=] & _).
Qed.

Lemma validate_name_fixed (v out : string) :
  validate_name v = Some out -> validate_name out = Some out.
Proof.
  rewrite validate_name_some. intros (s & Hs & ->).
  pose proof (sanitize_output_canonical _ _ _ _ _ Hs) as Hc.
  apply validate_name_some. exists s. split; [|reflexivity].
  rewrite (of_to_string s (canonical_word_chars s Hc)).
  apply canonical_sanitize, Hc.
Qed.

Lemma contains_char_to_string (ch : ascii) (s : Sanitize.pystr) :
  Sanitize.word_char (N_of_ascii ch) = false ->
  forallb Sanitize.word_char s = true ->
  contains_char ch (to_string s) = false.
Proof.
  intros Hch. unfold contains_char, to_string.
  rewrite list_ascii_of_string_of_list_ascii.
  induction s as [|c s IH]; simpl; [reflexivity|].
  rewrite andb_true_iff. intros [Hc Hs]. rewrite IH by assumption.
  destruct (Ascii.eqb ch (ascii_of_N c)) eqn:E; [|reflexivity].
  apply Ascii.eqb_eq in E. subst ch.
  rewrite N_ascii_embedding in Hch by (apply word_char_byte, Hc). congruence.
Qed.

Lemma validated_name_dir (v out : string) :
  validate_name v = Some out ->
  get_agent_dir out = inl (MANAGED_AGENTS_DIR ++ "/" ++ out)%string.
Proof.
  rewrite validate_name_some. intros (s & Hs & ->).
  apply sanitize_output_canonical, canonical_word_chars in Hs.
  unfold get_agent_dir.
  rewrite !(contains_char_to_string _ s) by (reflexivity || assumption).
  reflexivity.
Qed.

(** X15: the name of a validated configuration is never refused by
    [get_agent_dir]: the 400 of the invalid characters can only come from
    a name in the path. *)
Theorem validated_name_has_directory (v out : string) :
  validate_name v = Some out ->
  out <> ""
  /\ get_agent_dir out = inl (MANAGED_AGENTS_DIR ++ "/" ++ out)%string.
Proof.
  intros Hv. split; [|eapply validated_name_dir, Hv].
  apply validate_name_some in Hv as (s & Hs & ->).
  apply sanitize_output_canonical in Hs. destruct s; [discriminate|].
  discriminate.
Qed.

Lemma model_validate_some (fields r : AgentConfig) :
  model_validate fields = Some r ->
  validate_name (name fields) = Some (name r)
  /\ model_validate r = Some r.
Proof.
  unfold model_validate.
  destruct (validate_name (name fields)) as [n|] eqn:E; [|discriminate].
  intros [= <-]. simpl. split; [reflexivity|].
  rewrite (validate_name_fixed _ _ E). reflexivity.
Qed.

Lemma model_validate_validated (v : string) (config : AgentConfig) :
  validate_name v = Some (name config) ->
  model_validate config = Some config.
Proof.
  intros Hv. unfold model_validate.
  rewrite (validate_name_fixed _ _ Hv). destruct config; reflexivity.
Qed.

Lemma config_file_written (config : AgentConfig) (files : gmap string content) :
  write_agent_files config files !! "agent_config.json"
  = Some (ConfigJson config).
Proof.
  unfold write_agent_files.
  rewrite lookup_insert_ne by discriminate.
  rewrite lookup_insert_ne by discriminate.
  apply lookup_insert_eq.
Qed.

Lemma get_agent_written (agent_name : string) (config r : AgentConfig)
    (files : gmap string content) (fs : agents_fs) :
  get_agent_dir agent_name = inl (MANAGED_AGENTS_DIR ++ "/" ++ agent_name)%string ->
  model_validate config = Some r ->
  get_agent agent_name
    (<[agent_name := Directory (write_agent_files config files)]> fs)
  = (inl r,
     <[agent_name := Directory (write_agent_files config files)]> fs).
Proof.
  intros Hdir Hv. unfold get_agent. rewrite Hdir, lookup_insert_eq.
  rewrite config_file_written, Hv.
  rewrite (proj2 (model_validate_some _ _ Hv)). reflexivity.
Qed.

Lemma get_agent_dir_cases (agent_name : string) :
  get_agent_dir agent_name = inr AgentInvalidCharacters
  \/ get_agent_dir agent_name
     = inl (MANAGED_AGENTS_DIR ++ "/" ++ agent_name)%string.
Proof.
  unfold get_agent_dir. destruct (_ || _); auto.
Qed.

Lemma elem_of_list_agents (agent_name : string) (fs : agents_fs) :
  agent_name ∈ list_agents fs <->
  exists files, fs !! agent_name = Some (Directory files).
Proof.
  unfold list_agents. rewrite list_elem_of_In, in_map_iff. split.
  - intros ([n e] & Hn & Hin). simpl in Hn. subst n.
    apply filter_In in Hin as [Hin Hd]. simpl in Hd.
    apply list_elem_of_In, elem_of_map_to_list in Hin.
    destruct e; [discriminate|eauto].
  - intros (files & Hl). exists (agent_name, Directory files).
    split; [reflexivity|]. apply filter_In. split; [|reflexivity].
    apply list_elem_of_In, elem_of_map_to_list, Hl.
Qed.

Lemma validate_name_nonempty (v out : string) :
  validate_name v = Some out -> out <> "".
Proof.
  intros Hv. apply validate_name_some in Hv as (s & Hs & ->).
  apply sanitize_output_canonical in Hs. destruct s; discriminate.
Qed.

(** X16: a validated configuration, which is what the endpoints receive,
    passes the validation that builds the answer: create answers 409 when
    an entry of the name exists and otherwise makes the directory with
    its three files, update rewrites the three files of an existing
    directory, and both answer the configuration as it was sent. *)
Theorem validated_config_accepted (v : string) (agent_config : AgentConfig)
    (fs : agents_fs) :
  validate_name v = Some (name agent_config) ->
  (fs !! name agent_config = None ->
   create_agent agent_config fs
   = (inl agent_config,
      <[name agent_config := Directory (write_agent_files agent_config ∅)]>
        fs))
  /\ (is_Some (fs !! name agent_config) ->
      create_agent agent_config fs = (inr AgentAlreadyExists, fs))
  /\ (forall files,
        fs !! name agent_config = Some (Directory files) ->
        update_agent (name agent_config) agent_config fs
        = (inl agent_config,
           <[name agent_config
               := Directory (write_agent_files agent_config files)]> fs)).
Proof.
  intros Hv. pose proof (validated_name_dir _ _ Hv) as Hd.
  pose proof (model_validate_validated _ _ Hv) as Hm.
  split; [|split].
  - intros Hl. unfold create_agent. rewrite Hd, Hl, Hm. reflexivity.
  - intros [e Hl]. unfold create_agent. rewrite Hd, Hl. reflexivity.
  - intros files Hl. unfold update_agent.
    rewrite String.eqb_refl. simpl. rewrite Hd, Hl, Hm. reflexivity.
Qed.

(** X17: what create answers is what get_agent answers afterwards, and the
    listing names the new agent. *)
Theorem create_agent_then_get (agent_config r : AgentConfig)
    (fs fs' : agents_fs) :
  create_agent agent_config fs = (inl r, fs') ->
  get_agent (name agent_config) fs' = (inl r, fs')
  /\ name agent_config ∈ list_agents fs'.
Proof.
  unfold create_agent.
  destruct (get_agent_dir_cases (name agent_config)) as [Hd|Hd]; rewrite Hd;
    [discriminate|].
  destruct (fs !! name agent_config) eqn:Hl; [discriminate|].
  destruct (model_validate agent_config) as [r'|] eqn:Hv; [|discriminate].
  intros [= <- <-]. split.
  - apply get_agent_written; assumption.
  - apply elem_of_list_agents. eexists. apply lookup_insert_eq.
Qed.

(** X18: create is all or nothing: when it raises for a configuration
    whose name is not empty, the managed directory is as it was; a
    directory made before the failure is removed again. *)
Theorem create_agent_all_or_nothing (agent_config : AgentConfig)
    (e : AgentError) (fs fs' : agents_fs) :
  name agent_config <> "" ->
  create_agent agent_config fs = (inr e, fs') -> fs' = fs.
Proof.
  intros _. unfold create_agent.
  destruct (get_agent_dir (name agent_config)); [|intros [= _ <-]; reflexivity].
  destruct (fs !! name agent_config) eqn:Hl; [intros [= _ <-]; reflexivity|].
  destruct (model_validate agent_config); [discriminate|].
  intros [= _ <-]. rewrite delete_insert_eq. apply delete_id, Hl.
Qed.

(** X19: create and then delete gives back the managed directory as it
    was. *)
Theorem create_agent_then_delete (agent_config r : AgentConfig)
    (fs fs' : agents_fs) :
  create_agent agent_config fs = (inl r, fs') ->
  delete_agent (name agent_config) fs' = (inl tt, fs).
Proof.
  unfold create_agent, delete_agent.
  destruct (get_agent_dir (name agent_config)); [|discriminate].
  destruct (fs !! name agent_config) eqn:Hl; [discriminate|].
  destruct (model_validate agent_config); [|discriminate].
  intros [= _ <-]. rewrite lookup_insert_eq, delete_insert_eq.
  rewrite (delete_id _ _ Hl). reflexivity.
Qed.

(** X20: after a successful delete of a name that is not empty the agent
    is gone: get_agent answers 404, the listing does not name it, and the
    other entries are untouched. *)
Theorem delete_agent_removes (agent_name : string) (fs fs' : agents_fs) :
  agent_name <> "" ->
  delete_agent agent_name fs = (inl tt, fs') ->
  get_agent agent_name fs' = (inr AgentNotFound, fs')
  /\ (agent_name ∉ list_agents fs')
  /\ forall other, other <> agent_name -> fs' !! other = fs !! other.
Proof.
  intros _. unfold delete_agent.
  destruct (get_agent_dir_cases agent_name) as [Hd|Hd]; rewrite Hd;
    [discriminate|].
  destruct (fs !! agent_name) as [[|files]|]; try discriminate.
  intros [= <-]. split; [|split].
  - unfold get_agent. rewrite Hd, lookup_delete_eq. reflexivity.
  - rewrite elem_of_list_agents, lookup_delete_eq. intros (files' & [=]).
  - intros other Hne. apply lookup_delete_ne. congruence.
Qed.

Lemma written_files_kept (config : AgentConfig) (files : gmap string content)
    (file : string) :
  file ∉ ["agent_config.json"; "__init__.py"; "agent.py"] ->
  write_agent_files config files !! file = files !! file.
Proof.
  rewrite !not_elem_of_cons. intros (H1 & H2 & H3 & _).
  unfold write_agent_files. rewrite !lookup_insert_ne by congruence.
  reflexivity.
Qed.

(** X21: a successful update names an existing agent directory by the name in
    the body.  Afterwards the directory holds the new configuration and
    the code generated from it, the files that update does not write
    (a stale .env, say) are still there, get_agent answers what update
    answered, and the other entries are untouched. *)
Theorem update_agent_in_place (agent_name : string)
    (agent_config r : AgentConfig) (fs fs' : agents_fs) :
  update_agent agent_name agent_config fs = (inl r, fs') ->
  agent_name = name agent_config
  /\ (exists files files',
        fs !! agent_name = Some (Directory files)
        /\ fs' !! agent_name = Some (Directory files')
        /\ files' !! "agent_config.json" = Some (ConfigJson agent_config)
        /\ files' !! "agent.py"
           = Some (Text (generate_agent_py_code agent_config))
        /\ forall file,
             file ∉ ["agent_config.json"; "__init__.py"; "agent.py"] ->
             files' !! file = files !! file)
  /\ get_agent agent_name fs' = (inl r, fs')
  /\ forall other, other <> agent_name -> fs' !! other = fs !! other.
Proof.
  unfold update_agent.
  destruct (String.eqb_spec agent_name (name agent_config)) as [Hn|Hn];
    [|discriminate]. simpl.
  destruct (get_agent_dir_cases agent_name) as [Hd|Hd]; rewrite Hd;
    [discriminate|].
  destruct (fs !! agent_name) as [[|files]|] eqn:Hl; try discriminate.
  destruct (model_validate agent_config) as [r'|] eqn:Hv; [|discriminate].
  intros [= <- <-]. split; [exact Hn|]. split; [|split].
  - exists files, (write_agent_files agent_config files).
    split; [reflexivity|]. split; [apply lookup_insert_eq|].
    split; [apply config_file_written|].
    split; [apply lookup_insert_eq|]. apply written_files_kept.
  - apply get_agent_written; assumption.
  - intros other Hne. apply lookup_insert_ne. congruence.
Qed.

(** X22: a name with a slash, a backslash or a dot is refused with status 400
    by every endpoint, before the managed directory is looked at. *)
Theorem separator_names_refused (agent_name : string)
    (agent_config : AgentConfig) (fs : agents_fs) :
  contains_char "/" agent_name || contains_char "092" agent_name
  || contains_char "." agent_name = true ->
  get_agent agent_name fs = (inr AgentInvalidCharacters, fs)
  /\ delete_agent agent_name fs = (inr AgentInvalidCharacters, fs)
  /\ (exists e, update_agent agent_name agent_config fs = (inr e, fs)
                /\ agent_status e = 400)
  /\ (name agent_config = agent_name ->
      create_agent agent_config fs = (inr AgentInvalidCharacters, fs)).
Proof.
  intros Hbad.
  assert (get_agent_dir agent_name = inr AgentInvalidCharacters) as Hd
    by (unfold get_agent_dir; rewrite Hbad; reflexivity).
  split; [unfold get_agent; rewrite Hd; reflexivity|].
  split; [unfold delete_agent; rewrite Hd; reflexivity|].
  split.
  - unfold update_agent.
    destruct (negb (String.eqb agent_name (name agent_config)));
      [exists AgentNameMismatch|exists AgentInvalidCharacters; rewrite Hd];
      auto.
  - intros Hn. unfold create_agent. rewrite Hn, Hd. reflexivity.
Qed.

End AgentEndpoints.

(** ** Runs of the agent properties *)

Lemma generated_code_ignores_order_witness :
  (Agents.tool_references weather_time_agent ⊆ sorted_references
   /\ sorted_references ⊆ Agents.tool_references weather_time_agent)
  /\ Agents.generate_agent_py_code
       (Agents.with_tools weather_time_agent sorted_references)
     = Agents.generate_agent_py_code weather_time_agent.
Proof.
  split; [split; apply (bool_decide_unpack _); vm_compute; reflexivity|].
  apply (generated_code_ignores_order weather_time_agent sorted_references);
    apply (bool_decide_unpack _); vm_compute; reflexivity.
Defined.

Lemma generated_code_with_tools_witness :
  Agents.tool_references weather_time_agent <> []
  /\ Agents.generate_agent_py_code weather_time_agent
     = Agents.filled_template weather_time_agent.
Proof.
  split; [discriminate|].
  apply (generated_code_with_tools weather_time_agent). discriminate.
Defined.

Lemma validated_name_has_directory_witness :
  Agents.validate_name "my agent-1" = Some "my_agent_1"
  /\ "my_agent_1" <> ""
  /\ Agents.get_agent_dir "my_agent_1" = inl "managed_agents/my_agent_1".
Proof.
  split; [reflexivity|].
  apply (validated_name_has_directory "my agent-1" "my_agent_1"). reflexivity.
Defined.

Lemma validated_config_accepted_witness :
  Agents.validate_name "Echo!" = Some "Echo"
  /\ Agents.create_agent echo_agent ∅ = (inl echo_agent, one_agent)
  /\ Agents.create_agent echo_agent one_agent
     = (inr Agents.AgentAlreadyExists, one_agent)
  /\ Agents.update_agent "Echo" echo_agent stale_agent
     = (inl echo_agent, updated_agent).
Proof.
  split; [reflexivity|].
  destruct (validated_config_accepted "Echo!" echo_agent ∅ eq_refl)
    as (Hcreate & _ & _).
  destruct (validated_config_accepted "Echo!" echo_agent one_agent eq_refl)
    as (_ & Hexists & _).
  destruct (validated_config_accepted "Echo!" echo_agent stale_agent eq_refl)
    as (_ & _ & Hupdate).
  split; [apply Hcreate; vm_compute; reflexivity|].
  split; [apply Hexists; eexists; vm_compute; reflexivity|].
  apply (Hupdate stale_files). vm_compute. reflexivity.
Defined.

Lemma create_agent_then_get_witness :
  Agents.create_agent echo_agent ∅ = (inl echo_agent, one_agent)
  /\ Agents.get_agent "Echo" one_agent = (inl echo_agent, one_agent)
  /\ "Echo" ∈ Agents.list_agents one_agent.
Proof.
  split; [vm_compute; reflexivity|].
  apply (create_agent_then_get echo_agent echo_agent ∅ one_agent).
  vm_compute. reflexivity.
Defined.

Lemma create_agent_all_or_nothing_witness :
  (Agents.name unnamed_agent <> ""
   /\ fst (Agents.create_agent unnamed_agent stale_agent)
      = inr Agents.AgentFailed)
  /\ snd (Agents.create_agent unnamed_agent stale_agent) = stale_agent.
Proof.
  split; [split; [discriminate|vm_compute; reflexivity]|].
  apply (create_agent_all_or_nothing unnamed_agent Agents.AgentFailed
           stale_agent);
    [discriminate|vm_compute; reflexivity].
Defined.

Lemma create_agent_then_delete_witness :
  Agents.create_agent echo_agent notes_only
  = (inl echo_agent,
     <["Echo" := Agents.Directory (Agents.write_agent_files echo_agent ∅)]>
       notes_only)
  /\ Agents.delete_agent "Echo"
       (<["Echo" := Agents.Directory (Agents.write_agent_files echo_agent ∅)]>
          notes_only)
     = (inl tt, notes_only).
Proof.
  split; [vm_compute; reflexivity|].
  apply (create_agent_then_delete echo_agent echo_agent notes_only).
  vm_compute. reflexivity.
Defined.

Lemma delete_agent_removes_witness :
  ("Echo" <> "" /\ Agents.delete_agent "Echo" stale_agent
                   = (inl tt, notes_only))
  /\ Agents.get_agent "Echo" notes_only
     = (inr Agents.AgentNotFound, notes_only)
  /\ ("Echo" ∉ Agents.list_agents notes_only)
  /\ forall other,
       other <> "Echo" -> notes_only !! other = stale_agent !! other.
Proof.
  split; [split; [discriminate|vm_compute; reflexivity]|].
  apply (delete_agent_removes "Echo" stale_agent notes_only);
    [discriminate|vm_compute; reflexivity].
Defined.

Lemma update_agent_in_place_witness :
  Agents.update_agent "Echo" echo_agent stale_agent
  = (inl echo_agent, updated_agent)
  /\ Agents.get_agent "Echo" updated_agent = (inl echo_agent, updated_agent).
Proof.
  split; [vm_compute; reflexivity|].
  destruct (update_agent_in_place "Echo" echo_agent echo_agent stale_agent
              updated_agent) as (_ & _ & Hget & _);
    [vm_compute; reflexivity|exact Hget].
Defined.

Lemma separator_names_refused_witness :
  Agents.contains_char "/" "../global_tools"
  || Agents.contains_char "092" "../global_tools"
  || Agents.contains_char "." "../global_tools" = true
  /\ Agents.get_agent "../global_tools" one_agent
     = (inr Agents.AgentInvalidCharacters, one_agent)
  /\ Agents.delete_agent "../global_tools" one_agent
     = (inr Agents.AgentInvalidCharacters, one_agent).
Proof.
  split; [reflexivity|].
  destruct (separator_names_refused "../global_tools" echo_agent one_agent
              eq_refl) as (Hget & Hdelete & _).
  split; assumption.
Defined.
